(** * packet: command-line utilities (packet/commands.py)

    A shallow embedding of the administrative commands of the packet
    tracker: roster import, packet season creation, directory sync,
    result reports and the signature admin operations.  The relational
    store, the unit-of-work session and the directory service are modelled
    explicitly; every command is a computation in a small state and
    exception monad over them. *)

From Stdlib Require Import ZArith QArith.
From stdpp Require Import gmap strings list fin_maps pretty.

Local Open Scope Z_scope.

(** ** Dates and times (datetime.time, datetime.datetime, timedelta) *)

Record time := mk_time {
  hour : Z; minute : Z; second : Z; microsecond : Z
}.

(** [time(hour=h)]: the other fields default to zero. *)
Definition time_of_hour (h : Z) : time :=
  {| hour := h; minute := 0; second := 0; microsecond := 0 |}.

Definition packet_start_time : time := time_of_hour 19.
Definition packet_end_time : time := time_of_hour 21.

(** A naive [datetime]: a calendar day, kept as its proleptic Gregorian
    ordinal (what [date.toordinal()] returns), and a time of day. *)
Record datetime := mk_datetime { dt_date : Z; dt_time : time }.

Definition MINORDINAL : Z := 1.
Definition MAXORDINAL : Z := 3652059.

(** [datetime.combine(d, t)] *)
Definition combine (d : Z) (t : time) : datetime :=
  {| dt_date := d; dt_time := t |}.

Inductive exn :=
  | IndexError | AttributeError | OverflowError | ZeroDivisionError.

(** [dt + timedelta(days=n)]: the time of day is kept, the day moves, and
    Python raises OverflowError when the result leaves years 1..9999. *)
Definition add_days (dt : datetime) (n : Z) : exn + datetime :=
  let d := dt_date dt + n in
  if (MINORDINAL <=? d) && (d <=? MAXORDINAL)
  then inr {| dt_date := d; dt_time := dt_time dt |}
  else inl OverflowError.

Definition time_ltb (a b : time) : bool :=
  (hour a <? hour b) || ((hour a =? hour b) &&
  ((minute a <? minute b) || ((minute a =? minute b) &&
  ((second a <? second b) || ((second a =? second b) &&
  (microsecond a <? microsecond b)))))).

(** [a < b] on datetimes: by day, then by time of day. *)
Definition dt_ltb (a b : datetime) : bool :=
  (dt_date a <? dt_date b) ||
  ((dt_date a =? dt_date b) && time_ltb (dt_time a) (dt_time b)).

Definition dt_leb (a b : datetime) : bool := negb (dt_ltb b a).

(** ** Strings: [str.strip()] *)

(** The characters [str.isspace] accepts among the first 256 code points. *)
Definition py_isspace (c : Ascii.ascii) : bool :=
  let n := Ascii.nat_of_ascii c in
  (((9 <=? n) && (n <=? 13)) || ((28 <=? n) && (n <=? 32)) ||
   (n =? 133) || (n =? 160))%nat.

Fixpoint lstrip (s : string) : string :=
  match s with
  | EmptyString => EmptyString
  | String c s' => if py_isspace c then lstrip s' else s
  end.

Definition rstrip (s : string) : string := String.rev (lstrip (String.rev s)).

Definition strip (s : string) : string := rstrip (lstrip s).

(** ** The relational store

    The schema (packet/models.py) is not part of the sources at hand;
    Section 3 of the specification gives the entities.  A Freshman is
    identified by its username and a Packet by its id, so those two tables
    are finite maps from the key.  The signature tables are row lists in
    insertion order: the commands address their rows by (packet id,
    signer) filters only, and count what a filter matched. *)

(** Modelled from the spec: the Freshman entity of Section 3 (identity is
    the username, the key of the table; display name; on-floor flag). *)
Record Freshman := mk_Freshman { name : string; onfloor : bool }.

(** Modelled from the spec: the Packet entity of Section 3 (owner
    reference, start and end timestamps; the id is the key of the
    table). *)
Record Packet := mk_Packet {
  freshman_username : string;
  start : datetime;
  end_ : datetime
}.

(** Modelled from the spec: the UpperSignature entity of Section 3 (packet,
    member, signed flag and the cached role flags). *)
Record UpperSignature := mk_UpperSignature {
  upper_packet_id : Z;
  upper_member : string;
  upper_signed : bool;
  eboard : option string;
  active_rtp : bool;
  three_da : bool;
  webmaster : bool;
  c_m : bool;
  drink_admin : bool
}.

(** Modelled from the spec: the FreshSignature entity of Section 3. *)
Record FreshSignature := mk_FreshSignature {
  fresh_packet_id : Z;
  fresh_freshman_username : string;
  fresh_signed : bool
}.

(** Modelled from the spec: the MiscSignature entity of Section 3. *)
Record MiscSignature := mk_MiscSignature {
  misc_packet_id : Z;
  misc_member : string
}.

Record Store := mk_Store {
  freshmen : gmap string Freshman;
  packets : gmap Z Packet;
  upper_sigs : list UpperSignature;
  fresh_sigs : list FreshSignature;
  misc_sigs : list MiscSignature
}.

Global Instance time_eq_dec : EqDecision time.
Proof. solve_decision. Defined.
Global Instance datetime_eq_dec : EqDecision datetime.
Proof. solve_decision. Defined.
Global Instance Freshman_eq_dec : EqDecision Freshman.
Proof. solve_decision. Defined.
Global Instance Packet_eq_dec : EqDecision Packet.
Proof. solve_decision. Defined.
Global Instance UpperSignature_eq_dec : EqDecision UpperSignature.
Proof. solve_decision. Defined.
Global Instance FreshSignature_eq_dec : EqDecision FreshSignature.
Proof. solve_decision. Defined.
Global Instance MiscSignature_eq_dec : EqDecision MiscSignature.
Proof. solve_decision. Defined.

(** ** The process: session, committed store, standard output

    Every command works on the session (the ORM unit of work) and the
    database keeps the committed store; [db.session.commit()] publishes
    the session.  A process that ends, normally or by an exception,
    without committing leaves the committed store as it was. *)

Inductive Event :=
  | StartPacketMail (packet_id : Z)
  | PacketStartingNotification (packet_id : Z)
  | PacketsStartingNotification (start_ : datetime).

Record World := mk_World {
  committed : Store;
  session : Store;
  stdout : list string;
  files : gmap string string;
  outbox : list Event
}.

Definition M (A : Type) : Type := World → (exn + A) * World.

Global Instance M_ret : MRet M := λ A (a : A) w, (inr a, w).
Global Instance M_bind : MBind M := λ A B (f : A → M B) (m : M A) w,
  match m w with
  | (inl e, w') => (inl e, w')
  | (inr a, w') => f a w'
  end.

Definition raise {A} (e : exn) : M A := λ w, (inl e, w).

Definition lift {A} (r : exn + A) : M A := λ w, (r, w).

Definition get_session : M Store := λ w, (inr (session w), w).

Definition with_session (f : Store → Store) (w : World) : World :=
  {| committed := committed w; session := f (session w);
     stdout := stdout w; files := files w; outbox := outbox w |}.

Definition modify_session (f : Store → Store) : M unit := λ w,
  (inr tt, with_session f w).

Definition commit : M unit := λ w,
  (inr tt, {| committed := session w; session := session w;
              stdout := stdout w; files := files w; outbox := outbox w |}).

(** [print(s)] and [sys.stdout.write(s)]: standard output is kept as the
    list of the chunks written. *)
Definition print (s : string) : M unit := λ w,
  (inr tt, {| committed := committed w; session := session w;
              stdout := stdout w ++ [s]; files := files w;
              outbox := outbox w |}).

Definition set_files (f : gmap string string → gmap string string) : M unit := λ w,
  (inr tt, {| committed := committed w; session := session w;
              stdout := stdout w; files := f (files w);
              outbox := outbox w |}).

Definition send (e : Event) : M unit := λ w,
  (inr tt, {| committed := committed w; session := session w;
              stdout := stdout w; files := files w;
              outbox := outbox w ++ [e] |}).

(** [try: body except Exception as e: handler; raise e] *)
Definition reraising {A} (body : M A) (handler : M unit) : M A := λ w,
  match body w with
  | (inl e, w') => (inl e, snd (handler w'))
  | r => r
  end.

Fixpoint for_each {A} (l : list A) (body : A → M unit) : M unit :=
  match l with
  | [] => mret tt
  | x :: l' => body x ;; for_each l' body
  end.

(** One invocation of a command on a database: the session starts as a
    view of the committed store. *)
Definition run {A} (c : M A) (db : Store) : (exn + A) * World :=
  c {| committed := db; session := db; stdout := []; files := ∅; outbox := [] |}.

Definition db_after {A} (c : M A) (db : Store) : Store :=
  committed (snd (run c db)).

Definition printed {A} (c : M A) (db : Store) : list string :=
  stdout (snd (run c db)).

Definition outcome {A} (c : M A) (db : Store) : exn + A := fst (run c db).

(** ** Roster parsing *)

Record CSVFreshman := mk_CSVFreshman {
  csv_name : string;
  rit_username : string;
  csv_onfloor : bool
}.

Global Instance CSVFreshman_eq_dec : EqDecision CSVFreshman.
Proof. solve_decision. Defined.

(** [CSVFreshman.__init__]: [row[i]] raises IndexError on a short row. *)
Definition index (row : list string) (i : nat) : exn + string :=
  match row !! i with
  | Some s => inr s
  | None => inl IndexError
  end.

Definition CSVFreshman_init (row : list string) : exn + CSVFreshman :=
  match index row 0, index row 3, index row 1 with
  | inr c0, inr c3, inr c1 =>
      inr {| csv_name := strip c0; rit_username := strip c3;
             csv_onfloor := bool_decide (strip c1 = "TRUE") |}
  | inl e, _, _ => inl e
  | _, inl e, _ => inl e
  | _, _, inl e => inl e
  end.

(** The dict comprehension [{f.rit_username: f for f in map(CSVFreshman, rows)}]:
    rows are taken in file order and a later row replaces an earlier entry
    with the same key. *)
Fixpoint csv_dict (rows : list (list string)) (acc : gmap string CSVFreshman)
  : exn + gmap string CSVFreshman :=
  match rows with
  | [] => inr acc
  | row :: rows' =>
      match CSVFreshman_init row with
      | inr f => csv_dict rows' (<[rit_username f := f]> acc)
      | inl e => inl e
      end
  end.

(** [parse_csv]: the argument is the list of rows [csv.reader] yields for
    the file; a file that cannot be opened or decoded is not modelled. *)
Definition parse_csv (freshmen_csv : list (list string))
  : M (gmap string CSVFreshman) :=
  print "Parsing file..." ;;
  reraising (lift (csv_dict freshmen_csv ∅)) (print "Failure while parsing CSV").

(** ** create-secret and the date prompt *)

(** [create_secret]: [token] is what [token_hex()] returns. *)
Definition create_secret (token : string) : M unit :=
  print "Here's your random secure token:" ;;
  print token.

Section input_date.
(** [datetime.strptime(date_str, '%m/%d/%Y').date()], as the day it
    returns; [None] stands for the ValueError of a string that is not a
    date in this format. *)
Variable strptime : string → option Z.

(** [input_date]: the console is the list of the lines still to be read.
    [input] writes the prompt and reads a line; at the end of the input it
    raises EOFError, which the loop does not catch ([None] in the result).
    Returned with the result: the lines left unread and the prompts
    written, one for each turn of the loop. *)
Fixpoint input_date (prompt : string) (stdin : list string)
  : option Z * list string * list string :=
  let shown := prompt +:+ " (format: MM/DD/YYYY): " in
  match stdin with
  | [] => (None, [], [shown])
  | date_str :: rest =>
      match strptime date_str with
      | Some day => (Some day, rest, [shown])
      | None =>
          let '(result, unread, prompts) := input_date prompt rest in
          (result, unread, shown :: prompts)
      end
  end.
End input_date.

(** ** Session operations on the tables *)

Definition set_freshmen (f : gmap string Freshman → gmap string Freshman)
  (s : Store) : Store :=
  {| freshmen := f (freshmen s); packets := packets s;
     upper_sigs := upper_sigs s; fresh_sigs := fresh_sigs s;
     misc_sigs := misc_sigs s |}.

Definition set_packets (f : gmap Z Packet → gmap Z Packet) (s : Store) : Store :=
  {| freshmen := freshmen s; packets := f (packets s);
     upper_sigs := upper_sigs s; fresh_sigs := fresh_sigs s;
     misc_sigs := misc_sigs s |}.

Definition set_upper_sigs (f : list UpperSignature → list UpperSignature)
  (s : Store) : Store :=
  {| freshmen := freshmen s; packets := packets s;
     upper_sigs := f (upper_sigs s); fresh_sigs := fresh_sigs s;
     misc_sigs := misc_sigs s |}.

Definition set_fresh_sigs (f : list FreshSignature → list FreshSignature)
  (s : Store) : Store :=
  {| freshmen := freshmen s; packets := packets s;
     upper_sigs := upper_sigs s; fresh_sigs := f (fresh_sigs s);
     misc_sigs := misc_sigs s |}.

Definition set_misc_sigs (f : list MiscSignature → list MiscSignature)
  (s : Store) : Store :=
  {| freshmen := freshmen s; packets := packets s;
     upper_sigs := upper_sigs s; fresh_sigs := fresh_sigs s;
     misc_sigs := f (misc_sigs s) |}.

(** [db.session.add(row)] *)
Definition add_upper (sig : UpperSignature) : Store → Store :=
  set_upper_sigs (λ l, l ++ [sig]).
Definition add_fresh (sig : FreshSignature) : Store → Store :=
  set_fresh_sigs (λ l, l ++ [sig]).
Definition add_misc (sig : MiscSignature) : Store → Store :=
  set_misc_sigs (λ l, l ++ [sig]).

(** [X.query.filter_by(packet_id=pid, member=m)]: the rows of a filter. *)
Definition upper_matches (pid : Z) (m : string) (sig : UpperSignature) : Prop :=
  upper_packet_id sig = pid ∧ upper_member sig = m.
Definition fresh_matches (pid : Z) (u : string) (sig : FreshSignature) : Prop :=
  fresh_packet_id sig = pid ∧ fresh_freshman_username sig = u.
Definition misc_matches (pid : Z) (m : string) (sig : MiscSignature) : Prop :=
  misc_packet_id sig = pid ∧ misc_member sig = m.

Global Instance upper_matches_dec pid m sig : Decision (upper_matches pid m sig).
Proof. unfold upper_matches. apply _. Defined.
Global Instance fresh_matches_dec pid u sig : Decision (fresh_matches pid u sig).
Proof. unfold fresh_matches. apply _. Defined.
Global Instance misc_matches_dec pid m sig : Decision (misc_matches pid m sig).
Proof. unfold misc_matches. apply _. Defined.

(** [X.query.filter_by(...).delete()]: every matching row goes. *)
Definition delete_upper (pid : Z) (m : string) : Store → Store :=
  set_upper_sigs (filter (λ sig, ¬ upper_matches pid m sig)).
Definition delete_fresh (pid : Z) (u : string) : Store → Store :=
  set_fresh_sigs (filter (λ sig, ¬ fresh_matches pid u sig)).
Definition delete_misc (pid : Z) (m : string) : Store → Store :=
  set_misc_sigs (filter (λ sig, ¬ misc_matches pid m sig)).

(** Modelled from the spec: the relationship collections of a packet
    ([packet.upper_signatures] and the like) belong to the missing schema;
    they hold the rows of the packet, as loaded from the table. *)
Definition upper_signatures (s : Store) (pid : Z) : list UpperSignature :=
  filter (λ sig, upper_packet_id sig = pid) (upper_sigs s).
Definition fresh_signatures (s : Store) (pid : Z) : list FreshSignature :=
  filter (λ sig, fresh_packet_id sig = pid) (fresh_sigs s).
Definition misc_signatures (s : Store) (pid : Z) : list MiscSignature :=
  filter (λ sig, misc_packet_id sig = pid) (misc_sigs s).

(** [dict.values()].  A finite map lists its entries in an order of its
    own, not in Python's insertion order; the stored rows a loop adds come
    out in that order, and no property below depends on it. *)
Definition values {K A} `{Countable K} (d : gmap K A) : list A :=
  (map_to_list d).*2.

(** [Packet.query.filter(Packet.end > datetime.now()).all()] *)
Definition open_or_future_packets (now : datetime) (s : Store)
  : list (Z * Packet) :=
  filter (λ p, dt_ltb now (end_ p.2) = true) (map_to_list (packets s)).

(** ** sync-freshmen *)

Definition set_onfloor (b : bool) (f : Freshman) : Freshman :=
  {| name := name f; onfloor := b |}.
Definition set_name (n : string) (f : Freshman) : Freshman :=
  {| name := n; onfloor := onfloor f |}.

(** Body of the first loop.  [freshmen_in_db] holds the session's Freshman
    objects by username, so a write to one of them is a write to the
    session's row. *)
Definition upsert_freshman (csv_freshman : CSVFreshman)
  (freshmen_in_db : gmap string Freshman) : gmap string Freshman :=
  match freshmen_in_db !! rit_username csv_freshman with
  | None =>
      <[rit_username csv_freshman :=
          {| name := csv_name csv_freshman; onfloor := csv_onfloor csv_freshman |}]>
        freshmen_in_db
  | Some f =>
      <[rit_username csv_freshman :=
          set_name (csv_name csv_freshman) (set_onfloor (csv_onfloor csv_freshman) f)]>
        freshmen_in_db
  end.

(** The second loop: freshmen that left the roster are off floor. *)
Definition mark_departed (freshmen_in_csv : gmap string CSVFreshman)
  (freshmen_in_db : gmap string Freshman) : gmap string Freshman :=
  map_imap (λ u f, Some (match freshmen_in_csv !! u with
                         | None => set_onfloor false f
                         | Some _ => f
                         end)) freshmen_in_db.

(** [fresh_sig.freshman.onfloor]: the relationship resolves the username in
    the session; a signature without its Freshman yields [None], and the
    attribute access then raises. *)
Definition freshman_onfloor (s : Store) (fresh_sig : FreshSignature) : exn + bool :=
  match freshmen s !! fresh_freshman_username fresh_sig with
  | Some f => inr (onfloor f)
  | None => inl AttributeError
  end.

(** Body of the loop over the signatures of freshmen that are no longer
    on floor: the filter reads [fresh_sig.freshman.onfloor], the body
    deletes. *)
Definition drop_body (fresh_sig : FreshSignature) : M unit :=
  s ← get_session;
  is_onfloor ← lift (freshman_onfloor s fresh_sig);
  if negb is_onfloor
  then modify_session (delete_fresh (fresh_packet_id fresh_sig)
                                    (fresh_freshman_username fresh_sig))
  else mret tt.

(** The third loop, for one packet.  [packet.fresh_signatures] is the
    collection loaded with the packet: the bulk deletes take rows off the
    table but leave the loaded collection as it is, so
    [current_fresh_sigs] is computed from the loaded rows.  (Reading the
    collection afresh after the deletes would select the same roster
    entries, see [new_fresh_sigs_reload].) *)
Definition sync_packet_freshmen (freshmen_in_csv : gmap string CSVFreshman)
  (p : Z * Packet) : M unit :=
  s0 ← get_session;
  let packet_fresh_signatures := fresh_signatures s0 p.1 in
  for_each packet_fresh_signatures drop_body ;;
  let current_fresh_sigs := (fresh_freshman_username <$> packet_fresh_signatures) in
  for_each
    (filter (λ csv_freshman,
               (rit_username csv_freshman ∉ current_fresh_sigs) ∧
               csv_onfloor csv_freshman = true ∧
               rit_username csv_freshman ≠ freshman_username p.2)
            (values freshmen_in_csv))
    (λ csv_freshman,
       modify_session (add_fresh {| fresh_packet_id := p.1;
                                    fresh_freshman_username := rit_username csv_freshman;
                                    fresh_signed := false |})).

Definition sync_freshmen (now : datetime) (freshmen_csv : list (list string))
  : M unit :=
  freshmen_in_csv ← parse_csv freshmen_csv;
  print "Syncing contents with the DB..." ;;
  for_each (values freshmen_in_csv)
    (λ csv_freshman, modify_session (set_freshmen (upsert_freshman csv_freshman))) ;;
  modify_session (set_freshmen (mark_departed freshmen_in_csv)) ;;
  s ← get_session;
  for_each (open_or_future_packets now s) (sync_packet_freshmen freshmen_in_csv) ;;
  commit ;;
  print "Done!".

(** ** The directory service

    The LDAP client (packet/ldap.py) is not part of the sources at hand.
    Section 6 of the specification lists what the commands consume: the
    active members, the intro-member and co-op predicates, the eboard-role
    lookup and the five role membership sets. *)

(** Modelled from the spec: a member of the directory, with what
    [ldap_is_intromember], [ldap_is_on_coop] and [ldap_get_eboard_role]
    answer for it. *)
Record LdapMember := mk_LdapMember {
  uid : string;
  ldap_is_intromember : bool;
  ldap_is_on_coop : bool;
  ldap_get_eboard_role : option string
}.

(** Modelled from the spec: the directory as one command run sees it, one
    field for each list the commands fetch. *)
Record Ldap := mk_Ldap {
  ldap_get_active_members : list LdapMember;
  ldap_get_active_rtps : list string;
  ldap_get_3das : list string;
  ldap_get_webmasters : list string;
  ldap_get_constitutional_maintainers : list string;
  ldap_get_drink_admins : list string
}.

(** [lambda member: not ldap_is_intromember(member) and not ldap_is_on_coop(member)] *)
Definition is_upper (member : LdapMember) : Prop :=
  ldap_is_intromember member = false ∧ ldap_is_on_coop member = false.

Global Instance is_upper_dec member : Decision (is_upper member).
Proof. unfold is_upper. apply _. Defined.

(** The six role assignments that follow every UpperSignature the commands
    touch: [sig.eboard = ldap_get_eboard_role(member)], [sig.active_rtp =
    sig.member in rtp], and so on. *)
Definition with_roles (d : Ldap) (member : LdapMember) (sig : UpperSignature)
  : UpperSignature :=
  {| upper_packet_id := upper_packet_id sig;
     upper_member := upper_member sig;
     upper_signed := upper_signed sig;
     eboard := ldap_get_eboard_role member;
     active_rtp := bool_decide (upper_member sig ∈ ldap_get_active_rtps d);
     three_da := bool_decide (upper_member sig ∈ ldap_get_3das d);
     webmaster := bool_decide (upper_member sig ∈ ldap_get_webmasters d);
     c_m := bool_decide (upper_member sig ∈ ldap_get_constitutional_maintainers d);
     drink_admin := bool_decide (upper_member sig ∈ ldap_get_drink_admins d) |}.

(** [UpperSignature(packet=packet, member=m, signed=b)]: the role columns
    start empty; where the source gives no [signed], callers pass the
    column's default, false. *)
Definition new_upper (pid : Z) (m : string) (signed : bool) : UpperSignature :=
  {| upper_packet_id := pid; upper_member := m; upper_signed := signed;
     eboard := None; active_rtp := false; three_da := false;
     webmaster := false; c_m := false; drink_admin := false |}.

(** ** ldap-sync *)

(** [{member.uid: member for member in filter(..., ldap_get_active_members())}] *)
Definition all_upper_dict (d : Ldap) : gmap string LdapMember :=
  foldl (λ acc member, <[uid member := member]> acc) ∅
        (filter is_upper (ldap_get_active_members d)).

(** First loop: refresh the roles of the signatures of active members.  The
    loop writes to the objects of [packet.upper_signatures], which are the
    session's rows of this packet. *)
Definition refresh_roles (d : Ldap) (all_upper : gmap string LdapMember)
  (pid : Z) (sig : UpperSignature) : UpperSignature :=
  if decide (upper_packet_id sig = pid) then
    match all_upper !! upper_member sig with
    | Some member => with_roles d member sig
    | None => sig
    end
  else sig.

(** The session after the first loop. *)
Definition refreshed (d : Ldap) (all_upper : gmap string LdapMember) (pid : Z)
  (s : Store) : Store :=
  set_upper_sigs (fmap (refresh_roles d all_upper pid)) s.

(** Body of the second loop. *)
Definition migrate_to_misc (pid : Z) (s : Store) (sig : UpperSignature) : Store :=
  let s := delete_upper pid (upper_member sig) s in
  if upper_signed sig
  then add_misc {| misc_packet_id := pid; misc_member := upper_member sig |} s
  else s.

(** The UpperSignature the third loop builds for a MiscSignature. *)
Definition reactivated (d : Ldap) (all_upper : gmap string LdapMember)
  (pid : Z) (sig : MiscSignature) : UpperSignature :=
  match all_upper !! misc_member sig with
  | Some member => with_roles d member (new_upper pid (misc_member sig) true)
  | None => new_upper pid (misc_member sig) true
  end.

(** Body of the third loop. *)
Definition migrate_to_upper (d : Ldap) (all_upper : gmap string LdapMember)
  (pid : Z) (s : Store) (sig : MiscSignature) : Store :=
  add_upper (reactivated d all_upper pid sig)
            (delete_misc pid (misc_member sig) s).

(** Body of the fourth loop; [entry] is a key of [all_upper] with the
    member stored under it. *)
Definition create_upper (d : Ldap) (pid : Z) (s : Store)
  (entry : string * LdapMember) : Store :=
  add_upper (with_roles d entry.2 (new_upper pid entry.1 false)) s.

(** The work on one open packet.  A signature built with [packet=packet]
    joins the packet's loaded collection, and a bulk delete takes rows off
    the table without editing a loaded collection: the third loop reads
    the misc collection with the rows the second loop added, and
    [upper_sigs] in the fourth is the loaded upper collection followed by
    the rows the third loop added.  (Reading the collection afresh from
    the session would select the same members, see [upper_sigs_reload].) *)
Definition ldap_sync_packet (d : Ldap) (all_upper : gmap string LdapMember)
  (p : Z * Packet) (s : Store) : Store :=
  let s := refreshed d all_upper p.1 s in
  let packet_upper_signatures := upper_signatures s p.1 in
  let s := foldl (migrate_to_misc p.1) s
             (filter (λ sig, all_upper !! upper_member sig = None)
                     packet_upper_signatures) in
  let to_reactivate :=
    filter (λ sig, is_Some (all_upper !! misc_member sig))
           (misc_signatures s p.1) in
  let s := foldl (migrate_to_upper d all_upper p.1) s to_reactivate in
  let packet_upper_signatures :=
    packet_upper_signatures ++ (reactivated d all_upper p.1 <$> to_reactivate) in
  let upper_sigs := upper_member <$> packet_upper_signatures in
  foldl (create_upper d p.1) s
        (filter (λ entry, entry.1 ∉ upper_sigs) (map_to_list all_upper)).

Definition ldap_sync (now : datetime) (d : Ldap) : M unit :=
  print "Fetching data from LDAP..." ;;
  let all_upper := all_upper_dict d in
  print "Applying updates to the DB..." ;;
  s ← get_session;
  for_each (open_or_future_packets now s)
    (λ packet, modify_session (ldap_sync_packet d all_upper packet)) ;;
  commit ;;
  print "Done!".

(** ** create-packets *)

(** [str.lower()] on the letters A to Z. *)
Definition lower_ascii (c : Ascii.ascii) : Ascii.ascii :=
  let n := Ascii.nat_of_ascii c in
  if ((65 <=? n) && (n <=? 90))%nat then Ascii.ascii_of_nat (n + 32) else c.

Fixpoint lower (s : string) : string :=
  match s with
  | EmptyString => EmptyString
  | String c s' => String (lower_ascii c) (lower s')
  end.

(** The id an autoincrement key gives the next Packet row. *)
Definition next_packet_id (ps : gmap Z Packet) : Z :=
  1 + foldr Z.max 0 (map_to_list ps).*1.

(** The UpperSignature of a new packet for one member. *)
Definition packet_upper (d : Ldap) (pid : Z) (member : LdapMember) : UpperSignature :=
  with_roles d member (new_upper pid (uid member) false).

(** [Freshman.query.filter_by(onfloor=True).filter(Freshman.rit_username != u).all()] *)
Definition other_onfloor_freshmen (s : Store) (u : string) : list (string * Freshman) :=
  filter (λ f, onfloor f.2 = true ∧ f.1 ≠ u) (map_to_list (freshmen s)).

(** Body of the main loop, for one freshman of the roster. *)
Definition create_packet (d : Ldap) (all_upper : list LdapMember)
  (start_ end__ : datetime) (freshman : string * Freshman) : M unit :=
  s ← get_session;
  let pid := next_packet_id (packets s) in
  modify_session (set_packets (insert pid
    {| freshman_username := freshman.1; start := start_; end_ := end__ |})) ;;
  send (StartPacketMail pid) ;;
  send (PacketStartingNotification pid) ;;
  for_each all_upper (λ member, modify_session (add_upper (packet_upper d pid member))) ;;
  s ← get_session;
  for_each (other_onfloor_freshmen s freshman.1)
    (λ onfloor_freshman,
       modify_session (add_fresh {| fresh_packet_id := pid;
                                    fresh_freshman_username := onfloor_freshman.1;
                                    fresh_signed := false |})).

(** [answer] is what the operator types at the prompt and [base_date] the
    day [input_date] returns, once a well-formed date was typed; the
    prompts themselves are not kept in [stdout].  The mail and the
    notifications are recorded in [outbox]. *)
Definition create_packets (answer : string) (base_date : Z) (d : Ldap)
  (freshmen_csv : list (list string)) : M unit :=
  print "WARNING: The 'sync-freshmen' command must be run first to ensure that the state of floor is up to date." ;;
  if decide (lower answer ≠ "y") then mret tt else
  let start_ := combine base_date packet_start_time in
  end__ ← lift (add_days (combine base_date packet_end_time) 14);
  print "Fetching data from LDAP..." ;;
  let all_upper := filter is_upper (ldap_get_active_members d) in
  send (PacketsStartingNotification start_) ;;
  freshmen_in_csv ← parse_csv freshmen_csv;
  print "Creating DB entries and sending emails..." ;;
  s ← get_session;
  for_each (filter (λ f, is_Some (freshmen_in_csv !! f.1)) (map_to_list (freshmen s)))
           (create_packet d all_upper start_ end__) ;;
  commit ;;
  print "Done!".

(** ** extend-packet and the signature removals *)

(** Modelled from the spec: [Packet.by_id] belongs to the missing schema;
    it is the lookup by primary key.  The commands call a method on its
    result at once, which raises when there is no such packet. *)
Definition by_id (packet_id : Z) : M Packet :=
  s ← get_session;
  match packets s !! packet_id with
  | Some packet => mret packet
  | None => raise AttributeError
  end.

(** Modelled from the spec: [Packet.is_open] belongs to the missing
    schema; by Section 3 a packet is "open while current time < end". *)
Definition is_open (now : datetime) (packet : Packet) : bool :=
  dt_ltb now (end_ packet).

Definition set_end (e : datetime) (packet : Packet) : Packet :=
  {| freshman_username := freshman_username packet; start := start packet;
     end_ := e |}.

(** [new_date] is the day [input_date] returns. *)
Definition extend_packet (now : datetime) (packet_id : Z) (new_date : Z) : M unit :=
  packet ← by_id packet_id;
  if negb (is_open now packet) then
    print "Packet is already closed so it cannot be extended"
  else
    print ("Ready to extend packet #" +:+ pretty packet_id +:+ " for "
             +:+ freshman_username packet) ;;
    modify_session (set_packets
      (insert packet_id (set_end (combine new_date packet_end_time) packet))) ;;
    commit ;;
    print "Packet successfully extended".

(** [sig.signed = False] *)
Definition unsigned_upper (sig : UpperSignature) : UpperSignature :=
  {| upper_packet_id := upper_packet_id sig; upper_member := upper_member sig;
     upper_signed := false;
     eboard := eboard sig; active_rtp := active_rtp sig;
     three_da := three_da sig; webmaster := webmaster sig;
     c_m := c_m sig; drink_admin := drink_admin sig |}.

Definition unsigned_fresh (sig : FreshSignature) : FreshSignature :=
  {| fresh_packet_id := fresh_packet_id sig;
     fresh_freshman_username := fresh_freshman_username sig;
     fresh_signed := false |}.

(** [query.first()] followed by [sig.signed = False]: the first matching
    row is rewritten in place; [None] when the filter has no row. *)
Fixpoint unsign_first_upper (pid : Z) (m : string) (l : list UpperSignature)
  : option (list UpperSignature) :=
  match l with
  | [] => None
  | sig :: l' =>
      if decide (upper_matches pid m sig)
      then Some (unsigned_upper sig :: l')
      else cons sig <$> unsign_first_upper pid m l'
  end.

Fixpoint unsign_first_fresh (pid : Z) (u : string) (l : list FreshSignature)
  : option (list FreshSignature) :=
  match l with
  | [] => None
  | sig :: l' =>
      if decide (fresh_matches pid u sig)
      then Some (unsigned_fresh sig :: l')
      else cons sig <$> unsign_first_fresh pid u l'
  end.

Definition remove_sig (now : datetime) (packet_id : Z) (username : string)
  (is_member : bool) : M unit :=
  packet ← by_id packet_id;
  if negb (is_open now packet) then
    print "Packet is already closed so its signatures cannot be modified"
  else if is_member then
    s ← get_session;
    match unsign_first_upper packet_id username (upper_sigs s) with
    | Some l =>
        modify_session (set_upper_sigs (λ _, l)) ;;
        commit ;;
        print "Successfully unsigned packet"
    | None =>
        let result := length (filter (misc_matches packet_id username) (misc_sigs s)) in
        modify_session (delete_misc packet_id username) ;;
        if decide (result = 1%nat) then
          commit ;;
          print "Successfully unsigned packet"
        else
          print "Failed to unsign packet; could not find signature"
    end
  else
    s ← get_session;
    match unsign_first_fresh packet_id username (fresh_sigs s) with
    | Some l =>
        modify_session (set_fresh_sigs (λ _, l)) ;;
        commit ;;
        print "Successfully unsigned packet"
    | None =>
        print ("Failed to unsign packet; " +:+ username +:+ " is not an onfloor")
    end.

Definition remove_member_sig (now : datetime) (packet_id : Z) (member : string)
  : M unit := remove_sig now packet_id member true.

Definition remove_freshman_sig (now : datetime) (packet_id : Z) (freshman : string)
  : M unit := remove_sig now packet_id freshman false.

(** ** fetch-results *)

(** Modelled from the spec: what [signatures_received] and
    [signatures_required] return, with the five counts the report reads
    (Section 4.4). *)
Record SigCounts := mk_SigCounts {
  upper : Z;
  fresh : Z;
  misc : Z;
  member_total : Z;
  total : Z
}.

Definition nl : string := String (Ascii.ascii_of_nat 10) EmptyString.
Definition tab : string := String (Ascii.ascii_of_nat 9) EmptyString.

Definition column_titles : list string :=
  ["Name (RIT Username)"; "Upperclassmen Score"; "Total Score"; "Upperclassmen";
   "Freshmen"; "Miscellaneous"; "Total Missed"].

(** [open(file_path, 'w', newline='') if file_path else sys.stdout]: an
    absent or empty path means standard output ([None] here), and opening
    a file for writing empties it. *)
Definition open_w (file_path : option string) : M (option string) :=
  match file_path with
  | Some path =>
      if decide (path = EmptyString) then mret None
      else set_files (insert path EmptyString) ;; mret (Some path)
  | None => mret None
  end.

(** [file_handle.write(text)] *)
Definition write (file_handle : option string) (text : string) : M unit :=
  match file_handle with
  | Some path => set_files (λ fs, <[path := default EmptyString (fs !! path) +:+ text]> fs)
  | None => print text
  end.

(** [[f(x) for x in l]] where [f] may raise: the first exception ends the
    evaluation. *)
Fixpoint collect {A B} (f : A → exn + B) (l : list A) : exn + list B :=
  match l with
  | [] => inr []
  | x :: l' =>
      match f x with
      | inl e => inl e
      | inr y =>
          match collect f l' with
          | inl e => inl e
          | inr ys => inr (y :: ys)
          end
      end
  end.

Section reporter.
(** Modelled from the spec: [Packet.signatures_received] and
    [Packet.signatures_required] belong to the missing schema and Section
    4.4 leaves their rule open, so the report takes them as given
    functions of the stored packet. *)
Variable signatures_received signatures_required : Store → Z * Packet → SigCounts.

(** ['{:0.2f}%'.format(a / b * 100)] for integers [a] and [b ≠ 0]: the
    quotient is a binary floating-point number, whose rounding and
    printing are left to this function. *)
Variable format_score : Z → Z → string.

(** One line of [csv.writer]. *)
Variable csv_line : list string → string.

(** [a / b * 100], formatted: true division raises on a zero divisor. *)
Definition score (a b : Z) : exn + string :=
  if decide (b = 0) then inl ZeroDivisionError else inr (format_score a b).

(** The row of one packet.  The list elements are evaluated in order, so
    the member score is computed, and may raise, before the total score. *)
Definition report_row (s : Store) (packet : Z * Packet) : exn + list string :=
  let received := signatures_received s packet in
  let required := signatures_required s packet in
  let owner := freshman_username packet.2 in
  let owner_name :=
    match freshmen s !! owner with
    | Some f => inr (name f)
    | None => inl AttributeError
    end in
  match owner_name with
  | inl e => inl e
  | inr n =>
      match score (member_total received) (member_total required) with
      | inl e => inl e
      | inr member_score =>
          match score (total received) (total required) with
          | inl e => inl e
          | inr total_score =>
              inr [ n +:+ " (" +:+ owner +:+ "):";
                    member_score;
                    total_score;
                    pretty (upper received) +:+ "/" +:+ pretty (upper required);
                    pretty (fresh received) +:+ "/" +:+ pretty (fresh required);
                    pretty (misc received) +:+ "/" +:+ pretty (misc required);
                    pretty (total required - total received) ]
          end
      end
  end.

(** The text block of one row. *)
Definition text_block (row : list string) : string :=
  let col i := default EmptyString (column_titles !! i) in
  let cell i := default EmptyString (row !! i) in
  nl +:+ nl +:+ cell 0%nat +:+ nl +:+
  tab +:+ col 1%nat +:+ ": " +:+ cell 1%nat +:+ nl +:+
  tab +:+ col 2%nat +:+ ": " +:+ cell 2%nat +:+ nl +:+
  tab +:+ col 3%nat +:+ ": " +:+ cell 3%nat +:+ nl +:+
  tab +:+ col 4%nat +:+ ": " +:+ cell 4%nat +:+ nl +:+
  tab +:+ col 5%nat +:+ ": " +:+ cell 5%nat +:+ nl +:+ nl +:+
  tab +:+ col 6%nat +:+ ": " +:+ cell 6%nat +:+ nl.

(** [Packet.query.filter_by(end=end_date).all()] *)
Definition packets_ending (end_date : datetime) (s : Store) : list (Z * Packet) :=
  filter (λ p, end_ p.2 = end_date) (map_to_list (packets s)).

(** [end_day] is the day the [--date] option or, failing that, the
    prompt gives. *)
Definition fetch_results (file_path : option string) (use_csv : bool)
  (end_day : Z) : M unit :=
  let end_date := combine end_day packet_end_time in
  file_handle ← open_w file_path;
  s ← get_session;
  data ← lift (collect (report_row s) (packets_ending end_date s));
  if use_csv then
    write file_handle (csv_line column_titles) ;;
    for_each data (λ row, write file_handle (csv_line row))
  else
    for_each data (λ row, write file_handle (text_block row)).
End reporter.

(** ** The command line *)

(** One invocation: the command with its arguments and with what it reads
    while it runs (the clock, the directory, the operator's answers). *)
Inductive Command :=
  | CreateSecret (token : string)
  | SyncFreshmen (now : datetime) (freshmen_csv : list (list string))
  | CreatePackets (answer : string) (base_date : Z) (d : Ldap)
      (freshmen_csv : list (list string))
  | LdapSync (now : datetime) (d : Ldap)
  | FetchResults
      (signatures_received signatures_required : Store → Z * Packet → SigCounts)
      (format_score : Z → Z → string) (csv_line : list string → string)
      (file_path : option string) (use_csv : bool) (end_day : Z)
  | ExtendPacket (now : datetime) (packet_id : Z) (new_date : Z)
  | RemoveMemberSig (now : datetime) (packet_id : Z) (member : string)
  | RemoveFreshmanSig (now : datetime) (packet_id : Z) (freshman : string).

Definition command (c : Command) : M unit :=
  match c with
  | CreateSecret token => create_secret token
  | SyncFreshmen now freshmen_csv => sync_freshmen now freshmen_csv
  | CreatePackets answer base_date d freshmen_csv =>
      create_packets answer base_date d freshmen_csv
  | LdapSync now d => ldap_sync now d
  | FetchResults received required format_score csv_line file_path use_csv end_day =>
      fetch_results received required format_score csv_line file_path use_csv end_day
  | ExtendPacket now packet_id new_date => extend_packet now packet_id new_date
  | RemoveMemberSig now packet_id member => remove_member_sig now packet_id member
  | RemoveFreshmanSig now packet_id freshman =>
      remove_freshman_sig now packet_id freshman
  end.

(** ** Who is represented on a packet *)

(** [u] has a row in the UpperSignature, MiscSignature or FreshSignature
    set of packet [pid]. *)
Definition has_upper (s : Store) (pid : Z) (u : string) : Prop :=
  ∃ sig, sig ∈ upper_sigs s ∧ upper_matches pid u sig.
Definition has_misc (s : Store) (pid : Z) (u : string) : Prop :=
  ∃ sig, sig ∈ misc_sigs s ∧ misc_matches pid u sig.
Definition has_fresh (s : Store) (pid : Z) (u : string) : Prop :=
  ∃ sig, sig ∈ fresh_sigs s ∧ fresh_matches pid u sig.

(** [u] has signed packet [pid] as an upperclassman. *)
Definition has_signed_upper (s : Store) (pid : Z) (u : string) : Prop :=
  ∃ sig, sig ∈ upper_sigs s ∧ upper_matches pid u sig ∧ upper_signed sig = true.

(** [u] is an on-floor freshman of the store. *)
Definition is_onfloor (s : Store) (u : string) : Prop :=
  ∃ f, freshmen s !! u = Some f ∧ onfloor f = true.

(** [u] is the uid of an active member of the directory who is neither an
    intro member nor on co-op: the members ldap-sync and create-packets
    treat as upperclassmen. *)
Definition is_active_upper (d : Ldap) (u : string) : Prop :=
  ∃ member, member ∈ ldap_get_active_members d ∧ is_upper member ∧ uid member = u.

(** Exactly one of two propositions. *)
Definition exactly_one (P Q : Prop) : Prop := (P ∧ ¬ Q) ∨ (¬ P ∧ Q).

(** The loop of [ldap_sync] over the open packets. *)
Definition ldap_sync_all (d : Ldap) (all_upper : gmap string LdapMember)
  (l : list (Z * Packet)) (s : Store) : Store :=
  foldl (λ s p, ldap_sync_packet d all_upper p s) s l.

(** * Notions used to state and prove the properties *)

(** Every entry of a roster dict sits under the username it carries. *)
Definition keyed_by_username (d : gmap string CSVFreshman) : Prop :=
  ∀ k c, d !! k = Some c → rit_username c = k.

(** The packets of [s] that [db] does not have carry the season's
    timestamps. *)
Definition new_packets_timed (db : Store) (base_date : Z) (s : Store) : Prop :=
  ∀ pid p, packets s !! pid = Some p → packets db !! pid = None →
    start p = combine base_date packet_start_time ∧
    end_ p = combine (base_date + 14) packet_end_time.

Definition timed (db : Store) (base_date : Z) (s c : Store) : Prop :=
  new_packets_timed db base_date s ∧ new_packets_timed db base_date c.

(** Two stores hold the same signatures of upperclassmen and former
    members for packet [q]. *)
Definition same_rows (q : Z) (s s' : Store) : Prop :=
  (∀ sig, upper_packet_id sig = q → sig ∈ upper_sigs s ↔ sig ∈ upper_sigs s') ∧
  (∀ m, misc_packet_id m = q → m ∈ misc_sigs s ↔ m ∈ misc_sigs s').

(** The Freshman row a roster entry stands for. *)
Definition freshman_of_csv (c : CSVFreshman) : Freshman :=
  {| name := csv_name c; onfloor := csv_onfloor c |}.

(** The Freshman table after the first two loops. *)
Definition synced_freshmen (freshmen_in_csv : gmap string CSVFreshman)
  (freshmen_in_db : gmap string Freshman) : gmap string Freshman :=
  mark_departed freshmen_in_csv
    (foldl (λ acc c, upsert_freshman c acc) freshmen_in_db (values freshmen_in_csv)).

(** The Freshman of a signature is on record. *)
Definition resolves (F : gmap string Freshman) (sig : FreshSignature) : Prop :=
  is_Some (F !! fresh_freshman_username sig).

(** The Freshman of a signature is on record and off floor. *)
Definition offfloor (F : gmap string Freshman) (sig : FreshSignature) : Prop :=
  onfloor <$> F !! fresh_freshman_username sig = Some false.

Global Instance resolves_dec F sig : Decision (resolves F sig).
Proof. unfold resolves. apply _. Defined.

Global Instance offfloor_dec F sig : Decision (offfloor F sig).
Proof. unfold offfloor. apply _. Defined.

(** One turn of the loop that drops the signatures of off-floor freshmen,
    when it does not raise. *)
Definition drop_offfloor (s : Store) (sig : FreshSignature) : Store :=
  if decide (offfloor (freshmen s) sig)
  then delete_fresh (fresh_packet_id sig) (fresh_freshman_username sig) s
  else s.

(** The signatures the last loop adds to packet [p], given the loaded
    collection. *)
Definition new_fresh_sigs (freshmen_in_csv : gmap string CSVFreshman)
  (p : Z * Packet) (loaded : list FreshSignature) : list FreshSignature :=
  (λ c, mk_FreshSignature p.1 (rit_username c) false) <$>
    filter (λ c, (rit_username c ∉ fresh_freshman_username <$> loaded) ∧
                 csv_onfloor c = true ∧
                 rit_username c ≠ freshman_username p.2)
           (values freshmen_in_csv).

(** What [sync_packet_freshmen] does to the session when it does not
    raise. *)
Definition packet_step (freshmen_in_csv : gmap string CSVFreshman)
  (p : Z * Packet) (s : Store) : Store :=
  set_fresh_sigs
    (λ l, filter (λ x, ¬ (fresh_packet_id x = p.1 ∧ offfloor (freshmen s) x)) l
          ++ new_fresh_sigs freshmen_in_csv p (fresh_signatures s p.1)) s.

(** The loop over the packets, when no turn raises. *)
Definition sync_all (csv : gmap string CSVFreshman) (l : list (Z * Packet))
  (s : Store) : Store :=
  foldl (λ s p, packet_step csv p s) s l.

(** Every signature of the listed packets has its Freshman on record. *)
Definition all_resolve (s : Store) (l : list (Z * Packet)) : Prop :=
  Forall (λ p, Forall (resolves (freshmen s)) (fresh_signatures s p.1)) l.

Global Instance all_resolve_dec s l : Decision (all_resolve s l).
Proof. unfold all_resolve. apply _. Defined.

(** The store the command commits, or the exception that ends it, once the
    roster is parsed. *)
Definition sync_freshmen_result (now : datetime) (csv : gmap string CSVFreshman)
  (db : Store) : exn + Store :=
  let s1 := set_freshmen (synced_freshmen csv) db in
  let l := open_or_future_packets now s1 in
  if decide (all_resolve s1 l) then inr (sync_all csv l s1) else inl AttributeError.

(** The signatures of a packet after its turn in sync-freshmen, given the
    loaded collection [loaded] and the Freshman table [F] before the
    run. *)
Definition after_turn (csv : gmap string CSVFreshman) (F : gmap string Freshman)
  (p : Z * Packet) (loaded : list FreshSignature) : list FreshSignature :=
  filter (λ x, ¬ offfloor (synced_freshmen csv F) x) loaded
  ++ new_fresh_sigs csv p loaded.

Global Instance has_upper_decision s pid u : Decision (has_upper s pid u).
Proof.
  refine (cast_if (decide (Exists (upper_matches pid u) (upper_sigs s))));
    unfold has_upper; by rewrite <- Exists_exists.
Defined.
Global Instance has_misc_decision s pid u : Decision (has_misc s pid u).
Proof.
  refine (cast_if (decide (Exists (misc_matches pid u) (misc_sigs s))));
    unfold has_misc; by rewrite <- Exists_exists.
Defined.
Global Instance has_fresh_decision s pid u : Decision (has_fresh s pid u).
Proof.
  refine (cast_if (decide (Exists (fresh_matches pid u) (fresh_sigs s))));
    unfold has_fresh; by rewrite <- Exists_exists.
Defined.
Global Instance has_signed_upper_decision s pid u :
  Decision (has_signed_upper s pid u).
Proof.
  refine (cast_if (decide (Exists (λ sig, upper_matches pid u sig ∧
                                          upper_signed sig = true)
                                  (upper_sigs s))));
    unfold has_signed_upper; by rewrite <- Exists_exists.
Defined.
Global Instance is_active_upper_decision d u : Decision (is_active_upper d u).
Proof.
  refine (cast_if (decide (Exists (λ member, is_upper member ∧ uid member = u)
                                  (ldap_get_active_members d))));
    unfold is_active_upper; by rewrite <- Exists_exists.
Defined.

(** A Hoare triple for a command: from a world in [P], a normal end with
    value [a] leaves a world in [Q a], and an end by an exception leaves a
    world in [E]. *)
Definition triple {A} (P : World → Prop) (c : M A) (Q : A → World → Prop)
  (E : World → Prop) : Prop :=
  ∀ w, P w → match c w with
             | (inr a, w') => Q a w'
             | (inl _, w') => E w'
             end.

(** A relation between the session and the committed store, as a property
    of worlds. *)
Definition holds (R : Store → Store → Prop) (w : World) : Prop :=
  R (session w) (committed w).

(** The data model of Section 3 for freshman signatures: a FreshSignature
    belongs to a stored packet, and no packet has one of its own owner. *)
Definition fresh_sigs_have_packet (s : Store) : Prop :=
  ∀ sig, sig ∈ fresh_sigs s → is_Some (packets s !! fresh_packet_id sig).

Definition no_self_signature (s : Store) : Prop :=
  ∀ pid packet, packets s !! pid = Some packet →
                ¬ has_fresh s pid (freshman_username packet).

Definition consistent (s : Store) : Prop :=
  fresh_sigs_have_packet s ∧ no_self_signature s.

(** The relations the commands keep between session and committed store. *)
Definition kept (s c : Store) : Prop := consistent s ∧ consistent c.
Definition kept_committed (s c : Store) : Prop := consistent c.

(** The committed store after [remove_sig], case by case. *)
Definition remove_sig_store (now : datetime) (packet_id : Z) (username : string)
  (is_member : bool) (db : Store) : Store :=
  match packets db !! packet_id with
  | None => db
  | Some packet =>
      if negb (is_open now packet) then db
      else if is_member then
        match unsign_first_upper packet_id username (upper_sigs db) with
        | Some l => set_upper_sigs (λ _, l) db
        | None =>
            if decide (length (filter (misc_matches packet_id username)
                                      (misc_sigs db)) = 1%nat)
            then delete_misc packet_id username db
            else db
        end
      else
        match unsign_first_fresh packet_id username (fresh_sigs db) with
        | Some l => set_fresh_sigs (λ _, l) db
        | None => db
        end
  end.

(** The packet and the signer of a signature row. *)
Definition upper_key (sig : UpperSignature) : Z * string :=
  (upper_packet_id sig, upper_member sig).
Definition fresh_key (sig : FreshSignature) : Z * string :=
  (fresh_packet_id sig, fresh_freshman_username sig).

(** The text of a file: the chunks written to it, one after the other. *)
Definition join (l : list string) : string := foldr String.append EmptyString l.

(** The first line create-packets prints. *)
Definition create_packets_warning : string :=
  "WARNING: The 'sync-freshmen' command must be run first to ensure that the state of floor is up to date.".

(** The freshmen create-packets makes a packet for: the stored freshmen
    whose username is in the roster,
    [Freshman.query.filter(Freshman.rit_username.in_(freshmen_in_csv)).all()]. *)
Definition roster_freshmen (freshmen_in_csv : gmap string CSVFreshman) (s : Store)
  : list (string * Freshman) :=
  filter (λ f, is_Some (freshmen_in_csv !! f.1)) (map_to_list (freshmen s)).

(** What one turn of the main loop of create-packets does to the session. *)
Definition create_packet_step (d : Ldap) (all_upper : list LdapMember)
  (start_ end__ : datetime) (s : Store) (freshman : string * Freshman) : Store :=
  let pid := next_packet_id (packets s) in
  set_fresh_sigs
    (λ l, l ++ ((λ f : string * Freshman, mk_FreshSignature pid f.1 false)
                  <$> other_onfloor_freshmen s freshman.1))
    (set_upper_sigs (λ l, l ++ (packet_upper d pid <$> all_upper))
       (set_packets
          (insert pid {| freshman_username := freshman.1; start := start_;
                         end_ := end__ |}) s)).

(** The main loop of create-packets. *)
Definition create_all (d : Ldap) (all_upper : list LdapMember)
  (start_ end__ : datetime) (l : list (string * Freshman)) (s : Store) : Store :=
  foldl (create_packet_step d all_upper start_ end__) s l.

(** The mail and the notification of each new packet, for packets numbered
    from [n] on. *)
Fixpoint season_events {A} (n : Z) (l : list A) : list Event :=
  match l with
  | [] => []
  | _ :: l' =>
      StartPacketMail n :: PacketStartingNotification n :: season_events (n + 1) l'
  end.

(** The references of the data model: every signature row of an
    upperclassman or former member belongs to a stored packet, every
    freshman signature and every packet to a stored Freshman. *)
Definition referential (s : Store) : Prop :=
  (∀ sig, sig ∈ upper_sigs s → is_Some (packets s !! upper_packet_id sig)) ∧
  (∀ sig, sig ∈ misc_sigs s → is_Some (packets s !! misc_packet_id sig)) ∧
  (∀ sig, sig ∈ fresh_sigs s → is_Some (freshmen s !! fresh_freshman_username sig)) ∧
  (∀ pid packet, packets s !! pid = Some packet →
                 is_Some (freshmen s !! freshman_username packet)).

Definition well_formed (s : Store) : Prop := consistent s ∧ referential s.

(** * A small season, for the examples *)

(** Day 738000 is 29 July 2021; the season ends on day 738014. *)
Definition ex_start : datetime := combine 738000 packet_start_time.
Definition ex_end : datetime := combine 738014 packet_end_time.

(** Three clock readings: two during the season, one after its end. *)
Definition ex_now : datetime := combine 738005 (time_of_hour 12).
Definition ex_later : datetime := combine 738006 (time_of_hour 9).
Definition ex_after : datetime := combine 738020 (time_of_hour 12).

Definition ex_packet : Packet :=
  {| freshman_username := "alice1"; start := ex_start; end_ := ex_end |}.

(** Alice owns packet 1.  Zed has signed it as an upperclassman, Amy has
    not; Bob and Carol have freshman signatures on it, and Carol has left
    the floor; a former member has a miscellaneous signature. *)
Definition ex_db : Store :=
  {| freshmen := list_to_map [ ("alice1", mk_Freshman "Alice" true);
                               ("bob1", mk_Freshman "Bob" true);
                               ("carol1", mk_Freshman "Carol" false) ];
     packets := list_to_map [ (1, ex_packet) ];
     upper_sigs := [ new_upper 1 "zed" true; new_upper 1 "amy" false ];
     fresh_sigs := [ mk_FreshSignature 1 "bob1" true;
                     mk_FreshSignature 1 "carol1" false ];
     misc_sigs := [ mk_MiscSignature 1 "old" ] |}.

Definition ex_empty_db : Store :=
  {| freshmen := ∅; packets := ∅; upper_sigs := []; fresh_sigs := [];
     misc_sigs := [] |}.

(** The roster of the specification's example, with a third freshman. *)
Definition ex_roster : list (list string) :=
  [ ["Alice"; "TRUE"; "x"; "alice1"];
    ["Bob"; "FALSE"; "x"; "bob1"];
    ["Dan"; "TRUE"; "x"; "dan1"] ].

(** A roster that names alice1 twice. *)
Definition ex_roster_twice : list (list string) :=
  [ ["Al"; "FALSE"; "x"; "alice1"];
    ["Bob"; "TRUE"; "x"; "bob1"];
    ["Alice"; "TRUE"; "x"; " alice1 "] ].

Definition ex_amy : LdapMember :=
  {| uid := "amy"; ldap_is_intromember := false; ldap_is_on_coop := false;
     ldap_get_eboard_role := Some "Chairman" |}.
Definition ex_zed : LdapMember :=
  {| uid := "zed"; ldap_is_intromember := false; ldap_is_on_coop := false;
     ldap_get_eboard_role := None |}.
Definition ex_ivy : LdapMember :=
  {| uid := "ivy"; ldap_is_intromember := true; ldap_is_on_coop := false;
     ldap_get_eboard_role := None |}.

Definition ex_directory (members : list LdapMember) : Ldap :=
  {| ldap_get_active_members := members;
     ldap_get_active_rtps := ["amy"];
     ldap_get_3das := [];
     ldap_get_webmasters := ["zed"];
     ldap_get_constitutional_maintainers := [];
     ldap_get_drink_admins := [] |}.

(** Zed is not an active member in the first directory and is one again in
    the second. *)
Definition ex_ldap_without_zed : Ldap := ex_directory [ex_amy; ex_ivy].
Definition ex_ldap_with_zed : Ldap := ex_directory [ex_amy; ex_ivy; ex_zed].

(** A scoring rule for the report example: the required counts are the
    rows of the packet, the received ones the signed rows. *)
Definition ex_required (s : Store) (p : Z * Packet) : SigCounts :=
  let u := Z.of_nat (length (upper_signatures s p.1)) in
  let f := Z.of_nat (length (fresh_signatures s p.1)) in
  {| upper := u; fresh := f; misc := 0; member_total := u; total := u + f |}.
Definition ex_received (s : Store) (p : Z * Packet) : SigCounts :=
  let u := Z.of_nat (length (filter (λ sig, upper_signed sig = true)
                                    (upper_signatures s p.1))) in
  let f := Z.of_nat (length (filter (λ sig, fresh_signed sig = true)
                                    (fresh_signatures s p.1))) in
  {| upper := u; fresh := f; misc := 0; member_total := u; total := u + f |}.
Definition ex_format_score (a b : Z) : string :=
  pretty (a * 100 / b) +:+ ".00%".
Definition ex_csv_line (row : list string) : string :=
  foldr (λ cell acc, cell +:+ "," +:+ acc) EmptyString row.

(** The freshmen of the roster, before any packet exists. *)
Definition ex_db_roster : Store :=
  {| freshmen := list_to_map [ ("alice1", mk_Freshman "Alice" true);
                               ("bob1", mk_Freshman "Bob" false);
                               ("dan1", mk_Freshman "Dan" true) ];
     packets := ∅; upper_sigs := []; fresh_sigs := []; misc_sigs := [] |}.

(** A packet without any signature row, ending on day 738014. *)
Definition ex_db_unsigned : Store :=
  {| freshmen := list_to_map [ ("alice1", mk_Freshman "Alice" true) ];
     packets := list_to_map [ (1, ex_packet) ];
     upper_sigs := []; fresh_sigs := []; misc_sigs := [] |}.

(** The roster [ex_roster] as parsed. *)
Definition ex_csv : gmap string CSVFreshman :=
  list_to_map [ ("alice1", mk_CSVFreshman "Alice" "alice1" true);
                ("bob1", mk_CSVFreshman "Bob" "bob1" false);
                ("dan1", mk_CSVFreshman "Dan" "dan1" true) ].

(** A date parser for the examples: it knows one date, 29 July 2021. *)
Definition ex_strptime (date_str : string) : option Z :=
  if decide (date_str = "07/29/2021") then Some 738000 else None.

(** The store after a sequence of invocations of the command line, the
    first of them on the empty store. *)
Definition history (cs : list Command) : Store :=
  foldl (λ db c, db_after (command c) db) ex_empty_db cs.

(** * Reasoning about computations *)

Section monad_facts.
Context {A B : Type}.

Lemma bind_ok (m : M A) (f : A → M B) w a w' :
  m w = (inr a, w') → (m ≫= f) w = f a w'.
Proof. intros E. unfold mbind, M_bind. by rewrite E. Qed.

Lemma bind_raise (m : M A) (f : A → M B) w e w' :
  m w = (inl e, w') → (m ≫= f) w = (inl e, w').
Proof. intros E. unfold mbind, M_bind. by rewrite E. Qed.

End monad_facts.

Lemma with_session_id w : with_session (λ s, s) w = w.
Proof. by destruct w. Qed.

Lemma with_session_compose f g w :
  with_session g (with_session f w) = with_session (λ s, g (f s)) w.
Proof. done. Qed.

Lemma with_session_ext f g w :
  f (session w) = g (session w) → with_session f w = with_session g w.
Proof. intros E. unfold with_session. by rewrite E. Qed.

(** A loop whose body only edits the session is a left fold on it. *)
Lemma for_each_modify {A} (l : list A) (g : A → Store → Store) w :
  for_each l (λ x, modify_session (g x)) w
  = (inr tt, with_session (λ s, foldl (λ s x, g x s) s l) w).
Proof.
  revert w. induction l as [|x l IH]; intros w; simpl.
  - by rewrite with_session_id.
  - erewrite bind_ok; [|reflexivity]. by rewrite IH.
Qed.

(** ** Lists, stores and connectives *)

(** Two facts on list filters. *)
Section filter_facts.
Context {A : Type} (P : A → Prop) `{!∀ x, Decision (P x)}.

Lemma filter_none (l : list A) : (∀ x, x ∈ l → ¬ P x) → filter P l = [].
Proof.
  induction l as [|x l IH]; intros Hno; [done|].
  rewrite filter_cons_False by (apply Hno; left).
  apply IH. intros y Hy. apply Hno. by right.
Qed.

Lemma filter_all (l : list A) : (∀ x, x ∈ l → P x) → filter P l = l.
Proof.
  induction l as [|x l IH]; intros Hall; [done|].
  rewrite filter_cons_True by (apply Hall; left).
  f_equal. apply IH. intros y Hy. apply Hall. by right.
Qed.
End filter_facts.

Lemma filter_ext_elem {A} (P Q : A → Prop) `{!∀ x, Decision (P x)}
    `{!∀ x, Decision (Q x)} (l : list A) :
  (∀ x, x ∈ l → P x ↔ Q x) → filter P l = filter Q l.
Proof.
  induction l as [|x l IH]; intros Hext; [done|].
  rewrite !filter_cons.
  rewrite IH by (intros y Hy; apply Hext; by right).
  apply decide_ext. apply Hext. left.
Qed.

Lemma fmap_ext_elem {A B} (f g : A → B) (l : list A) :
  (∀ x, x ∈ l → f x = g x) → f <$> l = g <$> l.
Proof.
  induction l as [|x l IH]; intros H; [done|].
  rewrite !fmap_cons. f_equal; [apply H; left|].
  apply IH. intros y Hy. apply H. by right.
Qed.

Lemma foldl_fixed {A B} (f : A → B → A) (l : list B) (a : A) :
  (∀ x, x ∈ l → f a x = a) → foldl f a l = a.
Proof.
  induction l as [|x l IH]; intros Hfix; [done|]. simpl.
  rewrite Hfix by left. apply IH. intros y Hy. apply Hfix. by right.
Qed.

Lemma or3_iff (A A' B B' C C' : Prop) :
  (A ↔ A') → (B ↔ B') → (C ↔ C') → ((A ∨ B) ∨ C ↔ A' ∨ B' ∨ C').
Proof. tauto. Qed.

Lemma store_eq s1 s2 :
  freshmen s1 = freshmen s2 → packets s1 = packets s2 →
  upper_sigs s1 = upper_sigs s2 → fresh_sigs s1 = fresh_sigs s2 →
  misc_sigs s1 = misc_sigs s2 → s1 = s2.
Proof. destruct s1, s2; simpl; congruence. Qed.

(** ** Hoare triples for the commands *)

Section triple_rules.
Context {A : Type} (P : World → Prop) (E : World → Prop).

Lemma triple_ret (a : A) (Q : A → World → Prop) :
  (∀ w, P w → Q a w) → triple P (mret a) Q E.
Proof. intros H w Hw. by apply H. Qed.

Lemma triple_raise e (Q : A → World → Prop) :
  (∀ w, P w → E w) → triple P (raise e) Q E.
Proof. intros H w Hw. by apply H. Qed.

Lemma triple_lift (r : exn + A) (Q : A → World → Prop) :
  (∀ w a, P w → r = inr a → Q a w) → (∀ w, P w → E w) →
  triple P (lift r) Q E.
Proof. intros Hok Herr w Hw. unfold lift. destruct r; eauto. Qed.

Lemma triple_bind {B} (m : M A) (f : A → M B) (Q : A → World → Prop)
    (R : B → World → Prop) :
  triple P m Q E → (∀ a, triple (Q a) (f a) R E) → triple P (m ≫= f) R E.
Proof.
  intros Hm Hf w Hw. unfold mbind, M_bind. specialize (Hm w Hw).
  destruct (m w) as [[e|a] w1]; [done|]. by apply Hf.
Qed.

Lemma triple_post (c : M A) (Q Q' : A → World → Prop) :
  triple P c Q' E → (∀ a w, Q' a w → Q a w) → triple P c Q E.
Proof.
  intros Hc HQ w Hw. specialize (Hc w Hw).
  destruct (c w) as [[e|a] w1]; [done|]. by apply HQ.
Qed.

Lemma triple_pre (P' : World → Prop) (c : M A) (Q : A → World → Prop) :
  triple P' c Q E → (∀ w, P w → P' w) → triple P c Q E.
Proof. intros Hc HP w Hw. by apply Hc, HP. Qed.

Lemma triple_exn (E' : World → Prop) (c : M A) (Q : A → World → Prop) :
  triple P c Q E' → (∀ w, E' w → E w) → triple P c Q E.
Proof.
  intros Hc HE w Hw. specialize (Hc w Hw).
  destruct (c w) as [[e|a] w1]; [by apply HE|done].
Qed.
End triple_rules.

Section triple_steps.
Context (R : Store → Store → Prop) (E : World → Prop).

Lemma triple_get_session :
  triple (holds R) get_session (λ s0, holds (λ s c, R s c ∧ s = s0)) E.
Proof. by intros w Hw. Qed.

Lemma triple_modify_session f (R' : Store → Store → Prop) :
  (∀ s c, R s c → R' (f s) c) →
  triple (holds R) (modify_session f) (λ _, holds R') E.
Proof. intros H w Hw. by apply H. Qed.

Lemma triple_commit (R' : Store → Store → Prop) :
  (∀ s c, R s c → R' s s) → triple (holds R) commit (λ _, holds R') E.
Proof. intros H w Hw. by eapply H. Qed.

Lemma triple_print text : triple (holds R) (print text) (λ _, holds R) E.
Proof. by intros w Hw. Qed.

Lemma triple_send e : triple (holds R) (send e) (λ _, holds R) E.
Proof. by intros w Hw. Qed.

Lemma triple_set_files f : triple (holds R) (set_files f) (λ _, holds R) E.
Proof. by intros w Hw. Qed.

Lemma triple_write file_handle text :
  triple (holds R) (write file_handle text) (λ _, holds R) E.
Proof. destruct file_handle; [apply triple_set_files|apply triple_print]. Qed.
End triple_steps.

Lemma triple_for_each {A} (I E : World → Prop) (l : list A) (body : A → M unit) :
  (∀ x, x ∈ l → triple I (body x) (λ _, I) E) →
  triple I (for_each l body) (λ _, I) E.
Proof.
  induction l as [|x l IH]; intros Hb; simpl.
  - by apply triple_ret.
  - eapply triple_bind; [apply Hb; left|].
    intros ?. apply IH. intros y Hy. apply Hb. by right.
Qed.

Lemma triple_parse_csv (R : Store → Store → Prop) (E : World → Prop) rows :
  (∀ s c, R s c → ∀ out fs ob, E (mk_World c s out fs ob)) →
  triple (holds R) (parse_csv rows)
    (λ csv, holds (λ s c, R s c ∧ csv_dict rows ∅ = inr csv)) E.
Proof.
  intros HE w Hw. unfold parse_csv, reraising, lift, print, mbind, M_bind.
  destruct (csv_dict rows ∅); [|done]. simpl. by apply HE.
Qed.

(** What a triple says of one run on a database. *)
Lemma triple_run {A} (c : M A) (J : Store → Prop) (Q : A → World → Prop) db :
  triple (holds (λ s c, J s ∧ J c)) c Q (holds (λ _ c, J c)) →
  (∀ a w, Q a w → J (committed w)) →
  J db → J (db_after c db).
Proof.
  intros Hc HQ Hdb. unfold db_after, run.
  set (w0 := mk_World db db [] ∅ []).
  specialize (Hc w0 (conj Hdb Hdb)).
  destruct (c w0) as [[e|a] w1]; simpl; [done|]. by eapply HQ.
Qed.

Ltac triple_step rule := eapply triple_bind; [apply rule | intros ?].

Lemma triple_pure {A} (R : Store → Store → Prop) (φ : Prop) (c : M A)
    (Q : A → World → Prop) (E : World → Prop) :
  (φ → triple (holds R) c Q E) → triple (holds (λ s c, R s c ∧ φ)) c Q E.
Proof. intros Hc w [Hw Hφ]. by apply Hc. Qed.

(** ** Order on datetimes *)

Lemma time_ltb_asym a b : time_ltb a b = true → time_ltb b a = false.
Proof.
  unfold time_ltb. intros H.
  repeat match goal with
         | H : _ || _ = true |- _ => apply orb_true_iff in H; destruct H as [H|H]
         | H : _ && _ = true |- _ => apply andb_true_iff in H; destruct H as [? H]
         end;
  repeat match goal with
         | |- _ || _ = false => apply orb_false_iff; split
         | |- _ && _ = false => apply andb_false_iff
         end; try lia;
  repeat match goal with
         | |- _ ∨ _ => first [left; lia | right]
         | |- _ || _ = false => apply orb_false_iff; split
         | |- _ && _ = false => apply andb_false_iff
         end; lia.
Qed.

Lemma dt_ltb_asym a b : dt_ltb a b = true → dt_ltb b a = false.
Proof.
  unfold dt_ltb. intros H.
  apply orb_true_iff in H. apply orb_false_iff.
  destruct H as [H|H].
  - split; [lia|]. apply andb_false_iff. left. lia.
  - apply andb_true_iff in H as [H1 H2]. split; [lia|].
    apply andb_false_iff. right. by apply time_ltb_asym.
Qed.

(** A packet open at a later time was open at every earlier one. *)
Lemma dt_leb_ltb_trans a b c :
  dt_leb a b = true → dt_ltb b c = true → dt_ltb a c = true.
Proof.
  unfold dt_leb, dt_ltb. intros H1 H2.
  apply negb_true_iff, orb_false_iff in H1 as [H1 H1'].
  apply andb_false_iff in H1'.
  apply orb_true_iff in H2. apply orb_true_iff.
  destruct H2 as [H2|H2]; [left; lia|].
  apply andb_true_iff in H2 as [H2 H3].
  destruct (decide (dt_date a = dt_date b)) as [E|NE].
  - right. apply andb_true_iff. split; [lia|].
    destruct H1' as [H1'|H1']; [lia|].
    revert H1' H3. unfold time_ltb. intros H1' H3.
    repeat match goal with
           | H : _ || _ = true |- _ => apply orb_true_iff in H; destruct H as [H|H]
           | H : _ && _ = true |- _ => apply andb_true_iff in H; destruct H as [? H]
           | H : _ || _ = false |- _ => apply orb_false_iff in H; destruct H as [? H]
           | H : _ && _ = false |- _ => apply andb_false_iff in H; destruct H as [H|H]
           end; try lia;
    repeat first
      [ apply orb_true_iff; left; lia
      | apply orb_true_iff; right; apply andb_true_iff; split; [lia|] ];
    lia.
  - left. lia.
Qed.

(** ** extend-packet *)

Lemma by_id_found packet_id packet w :
  packets (session w) !! packet_id = Some packet →
  by_id packet_id w = (inr packet, w).
Proof. intros E. unfold by_id, get_session, mbind, M_bind. by rewrite E. Qed.

(** C6: on a packet whose end timestamp is in the past, extend-packet ends
    normally, leaves the committed store (the end timestamp with it) as it
    was, and prints only that the packet cannot be extended. *)
Theorem extend_packet_closed now packet_id new_date (db : Store) packet :
  packets db !! packet_id = Some packet →
  dt_ltb (end_ packet) now = true →
  outcome (extend_packet now packet_id new_date) db = inr tt ∧
  db_after (extend_packet now packet_id new_date) db = db ∧
  printed (extend_packet now packet_id new_date) db
    = ["Packet is already closed so it cannot be extended"].
Proof.
  intros Hp Hpast.
  assert (Hclosed : is_open now packet = false) by by apply dt_ltb_asym.
  unfold outcome, db_after, printed, run, extend_packet.
  erewrite bind_ok; [|by apply by_id_found].
  rewrite Hclosed. done.
Qed.

(** ** The signature removals *)

Lemma unsign_first_fresh_none pid u l :
  (∀ sig, sig ∈ l → ¬ fresh_matches pid u sig) →
  unsign_first_fresh pid u l = None.
Proof.
  induction l as [|sig l IH]; intros Hno; simpl; [done|].
  destruct (decide (fresh_matches pid u sig)) as [Hm|_].
  - exfalso. eapply Hno; [left|done].
  - rewrite IH; [done|]. intros sig' Hin. apply Hno. by right.
Qed.

Lemma unsign_first_upper_none pid m l :
  (∀ sig, sig ∈ l → ¬ upper_matches pid m sig) →
  unsign_first_upper pid m l = None.
Proof.
  induction l as [|sig l IH]; intros Hno; simpl; [done|].
  destruct (decide (upper_matches pid m sig)) as [Hm|_].
  - exfalso. eapply Hno; [left|done].
  - rewrite IH; [done|]. intros sig' Hin. apply Hno. by right.
Qed.

Lemma unsign_first_upper_some pid m l1 sig l2 :
  (∀ sig', sig' ∈ l1 → ¬ upper_matches pid m sig') →
  upper_matches pid m sig →
  unsign_first_upper pid m (l1 ++ sig :: l2)
  = Some (l1 ++ unsigned_upper sig :: l2).
Proof.
  intros Hno Hm. induction l1 as [|x l1 IH]; simpl.
  - by rewrite decide_True.
  - rewrite decide_False; [|apply Hno; left].
    rewrite IH; [done|]. intros y Hy. apply Hno. by right.
Qed.

(** C8: on an open packet, remove-freshman-sig for a username without a
    FreshSignature on that packet ends normally, prints that the freshman
    is not an on-floor, and leaves the committed store as it was. *)
Theorem remove_freshman_sig_absent now packet_id freshman (db : Store) packet :
  packets db !! packet_id = Some packet →
  is_open now packet = true →
  ¬ has_fresh db packet_id freshman →
  outcome (remove_freshman_sig now packet_id freshman) db = inr tt ∧
  db_after (remove_freshman_sig now packet_id freshman) db = db ∧
  printed (remove_freshman_sig now packet_id freshman) db
    = ["Failed to unsign packet; " +:+ freshman +:+ " is not an onfloor"].
Proof.
  intros Hp Hopen Hno.
  unfold outcome, db_after, printed, run, remove_freshman_sig, remove_sig.
  erewrite bind_ok; [|by apply by_id_found].
  rewrite Hopen. simpl.
  erewrite bind_ok; [|reflexivity]. simpl.
  rewrite unsign_first_fresh_none; [done|].
  intros sig Hin Hm. apply Hno. by exists sig.
Qed.

(** C5: on an open packet, remove-member-sig clears the signed flag of the
    first matching UpperSignature when there is one and commits; with no
    UpperSignature and exactly one matching MiscSignature it deletes that
    row, commits and reports success; in every other case it reports that
    no signature was found and the committed store is as before. *)
Theorem remove_member_sig_cases now packet_id member (db : Store) packet :
  packets db !! packet_id = Some packet →
  is_open now packet = true →
  let c := remove_member_sig now packet_id member in
  outcome c db = inr tt ∧
  (∀ l1 sig l2,
     upper_sigs db = l1 ++ sig :: l2 →
     (∀ sig', sig' ∈ l1 → ¬ upper_matches packet_id member sig') →
     upper_matches packet_id member sig →
     db_after c db = set_upper_sigs (λ _, l1 ++ unsigned_upper sig :: l2) db ∧
     printed c db = ["Successfully unsigned packet"]) ∧
  (¬ has_upper db packet_id member →
   length (filter (misc_matches packet_id member) (misc_sigs db)) = 1%nat →
   db_after c db = delete_misc packet_id member db ∧
   printed c db = ["Successfully unsigned packet"]) ∧
  (¬ has_upper db packet_id member →
   length (filter (misc_matches packet_id member) (misc_sigs db)) ≠ 1%nat →
   db_after c db = db ∧
   printed c db = ["Failed to unsign packet; could not find signature"]).
Proof.
  intros Hp Hopen c. subst c.
  unfold outcome, db_after, printed, run, remove_member_sig, remove_sig.
  erewrite bind_ok; [|by apply by_id_found].
  rewrite Hopen. simpl.
  erewrite bind_ok; [|reflexivity]. simpl.
  split; [|split; [|split]].
  - destruct (unsign_first_upper _ _ _); [done|].
    unfold mbind, M_bind, modify_session. simpl. by case_decide.
  - intros l1 sig l2 El Hno Hm.
    rewrite El, unsign_first_upper_some by done. done.
  - intros Hno Hone.
    rewrite unsign_first_upper_none by (intros sig Hin Hm; apply Hno; by exists sig).
    unfold mbind, M_bind, modify_session. simpl.
    rewrite decide_True by done. done.
  - intros Hno Hne.
    rewrite unsign_first_upper_none by (intros sig Hin Hm; apply Hno; by exists sig).
    unfold mbind, M_bind, modify_session. simpl.
    rewrite decide_False by done. done.
Qed.

(** ** fetch-results *)

Lemma collect_raises {A B} (f : A → exn + B) (l : list A) (e : exn) :
  (∀ x e', x ∈ l → f x = inl e' → e' = e) →
  (∃ x, x ∈ l ∧ f x = inl e) →
  collect f l = inl e.
Proof.
  induction l as [|x l IH]; intros Honly [y [Hy Hfy]].
  - by apply elem_of_nil in Hy.
  - simpl. destruct (f x) as [e'|b] eqn:Efx.
    + f_equal. eapply Honly; [left|done].
    + apply elem_of_cons in Hy as [->|Hy]; [congruence|].
      rewrite IH; [done| |by exists y].
      intros z e' Hz. apply Honly. by right.
Qed.

Lemma score_zero (format_score : Z → Z → string) a :
  score format_score a 0 = inl ZeroDivisionError.
Proof. done. Qed.

Lemma score_raises (format_score : Z → Z → string) a b e :
  score format_score a b = inl e → e = ZeroDivisionError.
Proof. unfold score. case_decide; congruence. Qed.

Lemma report_row_raises received required format_score s packet e :
  is_Some (freshmen s !! freshman_username packet.2) →
  report_row received required format_score s packet = inl e →
  e = ZeroDivisionError.
Proof.
  intros [f Ef]. unfold report_row. rewrite Ef.
  destruct (score _ (member_total _) _) as [e1|s1] eqn:E1.
  - intros [= <-]. by eapply score_raises.
  - destruct (score _ (total _) _) as [e2|s2] eqn:E2; [|done].
    intros [= <-]. by eapply score_raises.
Qed.

Lemma report_row_zero received required format_score s packet :
  is_Some (freshmen s !! freshman_username packet.2) →
  member_total (required s packet) = 0 ∨ total (required s packet) = 0 →
  report_row received required format_score s packet = inl ZeroDivisionError.
Proof.
  intros [f Ef] Hz. unfold report_row. rewrite Ef.
  destruct Hz as [-> | ->]; [done|].
  rewrite score_zero. by destruct (score _ _ _) as [e|?] eqn:E;
    [apply score_raises in E as ->|].
Qed.

(** C9: the report divides by the required member total and by the
    required total without a guard.  When every matched packet has its
    owner on record and one of them has a zero required member total or a
    zero required total, the command ends with ZeroDivisionError and has
    written no row: standard output is empty and a named file holds
    nothing. *)
Theorem fetch_results_zero_division
    (signatures_received signatures_required : Store → Z * Packet → SigCounts)
    (format_score : Z → Z → string) (csv_line : list string → string)
    (file_path : option string) (use_csv : bool) (end_day : Z)
    (db : Store) (packet_id : Z) (packet : Packet) :
  let c := fetch_results signatures_received signatures_required format_score
             csv_line file_path use_csv end_day in
  Forall (λ p, is_Some (freshmen db !! freshman_username p.2))
         (packets_ending (combine end_day packet_end_time) db) →
  packets db !! packet_id = Some packet →
  end_ packet = combine end_day packet_end_time →
  member_total (signatures_required db (packet_id, packet)) = 0 ∨
  total (signatures_required db (packet_id, packet)) = 0 →
  outcome c db = inl ZeroDivisionError ∧
  printed c db = [] ∧
  (∀ path text, files (snd (run c db)) !! path = Some text → text = EmptyString) ∧
  db_after c db = db.
Proof.
  intros c Hfk Hp Hend Hz. subst c. rewrite Forall_forall in Hfk.
  assert (Hin : (packet_id, packet) ∈ packets_ending (combine end_day packet_end_time) db).
  { unfold packets_ending. apply list_elem_of_filter. split; [done|].
    by apply elem_of_map_to_list. }
  assert (Hc : collect (report_row signatures_received signatures_required format_score db)
                 (packets_ending (combine end_day packet_end_time) db)
               = inl ZeroDivisionError).
  { apply collect_raises.
    - intros x e' Hx. apply report_row_raises. by apply Hfk.
    - exists (packet_id, packet). split; [done|].
      apply report_row_zero; [by apply Hfk|done]. }
  unfold outcome, db_after, printed, run, fetch_results, open_w.
  destruct file_path as [path|]; [case_decide|]; simpl;
    unfold mbind, M_bind, set_files, get_session, lift; simpl;
    rewrite Hc; simpl; (split; [done|]); (split; [done|]); (split; [|done]);
    intros path' text; rewrite ?lookup_insert, ?lookup_empty; try done.
  case_decide; [congruence|done].
Qed.

(** ** Roster parsing *)

Lemma CSVFreshman_init_columns row c0 c1 c3 :
  row !! 0%nat = Some c0 → row !! 1%nat = Some c1 → row !! 3%nat = Some c3 →
  CSVFreshman_init row
  = inr {| csv_name := strip c0; rit_username := strip c3;
           csv_onfloor := bool_decide (strip c1 = "TRUE") |}.
Proof. intros E0 E1 E3. unfold CSVFreshman_init, index. by rewrite E0, E1, E3. Qed.

Lemma CSVFreshman_init_total row :
  (4 ≤ length row)%nat → ∃ f, CSVFreshman_init row = inr f.
Proof.
  intros Hlen.
  destruct row as [|c0 [|c1 [|c2 [|c3 rest]]]]; simpl in Hlen; try lia.
  eexists. by apply (CSVFreshman_init_columns _ c0 c1 c3).
Qed.

Lemma csv_dict_total rows acc :
  (∀ row, row ∈ rows → (4 ≤ length row)%nat) →
  ∃ d, csv_dict rows acc = inr d.
Proof.
  revert acc. induction rows as [|row rows IH]; intros acc Hlen; simpl.
  - by eexists.
  - destruct (CSVFreshman_init_total row) as [f Ef]; [apply Hlen; left|].
    rewrite Ef. apply IH. intros r Hr. apply Hlen. by right.
Qed.

Lemma csv_dict_keyed rows acc d :
  csv_dict rows acc = inr d → keyed_by_username acc → keyed_by_username d.
Proof.
  revert acc. induction rows as [|row rows IH]; intros acc; simpl.
  - by intros [= ->].
  - destruct (CSVFreshman_init row) as [e|f]; [done|].
    intros Hd Hacc. apply (IH _ Hd).
    intros k c. rewrite lookup_insert. case_decide; [|by apply Hacc].
    by intros [= <-].
Qed.

Lemma csv_dict_other rows acc d u :
  csv_dict rows acc = inr d →
  (∀ row f, row ∈ rows → CSVFreshman_init row = inr f → rit_username f ≠ u) →
  d !! u = acc !! u.
Proof.
  revert acc. induction rows as [|row rows IH]; intros acc; simpl.
  - by intros [= ->].
  - destruct (CSVFreshman_init row) as [e|f] eqn:Ef; [done|].
    intros Hd Hno. rewrite (IH _ Hd).
    + apply lookup_insert_ne. eapply Hno; [left|done].
    + intros r f' Hr. apply Hno. by right.
Qed.

Lemma csv_dict_last pre row post acc d f :
  csv_dict (pre ++ row :: post) acc = inr d →
  CSVFreshman_init row = inr f →
  (∀ r f', r ∈ post → CSVFreshman_init r = inr f' → rit_username f' ≠ rit_username f) →
  d !! rit_username f = Some f.
Proof.
  revert acc. induction pre as [|r0 pre IH]; intros acc; simpl.
  - intros Hd Ef Hpost. rewrite Ef in Hd.
    rewrite (csv_dict_other _ _ _ _ Hd Hpost). apply lookup_insert_eq.
  - destruct (CSVFreshman_init r0) as [e|f0]; [done|]. apply IH.
Qed.

(** Every entry of a dict keyed by username is the only value with its
    username. *)
Lemma values_one_per_username (d : gmap string CSVFreshman) u f :
  keyed_by_username d → d !! u = Some f →
  length (filter (λ c, rit_username c = u) (values d)) = 1%nat.
Proof.
  intros Hkey Hu. unfold values.
  assert (Hperm : map_to_list d ≡ₚ (u, f) :: map_to_list (delete u d)).
  { rewrite <- (insert_delete_id d u f) at 1 by done.
    apply map_to_list_insert, lookup_delete_eq. }
  rewrite Hperm, fmap_cons. simpl.
  rewrite filter_cons_True by (by apply Hkey).
  simpl. f_equal. apply length_zero_iff_nil, filter_none.
  intros c Hc Ec. apply list_elem_of_fmap in Hc as [[k c'] [-> Hin]].
  apply elem_of_map_to_list in Hin. simpl in *.
  apply lookup_delete_Some in Hin as [Hne Hk].
  apply Hkey in Hk. congruence.
Qed.

Lemma parse_csv_ok rows d w :
  csv_dict rows ∅ = inr d →
  ∃ w', parse_csv rows w = (inr d, w') ∧
        session w' = session w ∧ committed w' = committed w ∧
        stdout w' = stdout w ++ ["Parsing file..."] ∧
        files w' = files w ∧ outbox w' = outbox w.
Proof.
  intros Hd. unfold parse_csv, reraising, lift, print, mbind, M_bind.
  rewrite Hd. by eexists.
Qed.

Lemma parse_csv_raise rows e w :
  csv_dict rows ∅ = inl e →
  ∃ w', parse_csv rows w = (inl e, w') ∧
        session w' = session w ∧ committed w' = committed w.
Proof.
  intros Hd. unfold parse_csv, reraising, lift, print, mbind, M_bind.
  rewrite Hd. by eexists.
Qed.

(** C10: the roster dict is keyed by the (stripped) username.  When every
    row has its four columns, parse_csv returns a dict; for a row that is
    the last one with its username, the dict maps that username to the
    name and on-floor flag of this very row, and no other value of the dict
    carries that username. *)
Theorem parse_csv_last_row_wins (pre post : list (list string))
    (row : list string) (c0 c1 c3 : string) (db : Store) :
  Forall (λ r, (4 ≤ length r)%nat) (pre ++ row :: post) →
  row !! 0%nat = Some c0 → row !! 1%nat = Some c1 → row !! 3%nat = Some c3 →
  Forall (λ r, strip <$> r !! 3%nat ≠ Some (strip c3)) post →
  ∃ d, outcome (parse_csv (pre ++ row :: post)) db = inr d ∧
       d !! strip c3
       = Some {| csv_name := strip c0; rit_username := strip c3;
                 csv_onfloor := bool_decide (strip c1 = "TRUE") |} ∧
       length (filter (λ f, rit_username f = strip c3) (values d)) = 1%nat.
Proof.
  intros Hlen E0 E1 E3 Hpost. rewrite Forall_forall in Hlen, Hpost.
  destruct (csv_dict_total (pre ++ row :: post) ∅ Hlen) as [d Hd].
  exists d.
  pose proof (CSVFreshman_init_columns _ _ _ _ E0 E1 E3) as Ef.
  assert (Hlast : d !! strip c3
       = Some {| csv_name := strip c0; rit_username := strip c3;
                 csv_onfloor := bool_decide (strip c1 = "TRUE") |}).
  { apply (csv_dict_last _ _ _ _ _ _ Hd Ef).
    intros r f' Hr Ef'. simpl.
    unfold CSVFreshman_init, index in Ef'.
    destruct (r !! 0%nat); [|done].
    destruct (r !! 3%nat) as [c3'|] eqn:E3'; [|done].
    destruct (r !! 1%nat); [|done].
    injection Ef' as <-. simpl. intros E. apply (Hpost r Hr).
    by rewrite E3', <- E. }
  split; [|split; [done|]].
  - unfold outcome, run.
    by destruct (parse_csv_ok _ _ (mk_World db db [] ∅ []) Hd) as (w' & -> & _).
  - eapply values_one_per_username; [|done].
    eapply csv_dict_keyed; [done|]. intros k c. by rewrite lookup_empty.
Qed.

(** ** create-packets *)

Lemma next_packet_id_fresh (ps : gmap Z Packet) : ps !! next_packet_id ps = None.
Proof.
  apply not_elem_of_dom. intros Hin.
  apply elem_of_dom in Hin as [p Hp].
  apply elem_of_map_to_list in Hp.
  assert (Hk : next_packet_id ps ∈ (map_to_list ps).*1).
  { apply list_elem_of_fmap. by exists (next_packet_id ps, p). }
  unfold next_packet_id in Hk at 1.
  assert (Hle : ∀ (l : list Z) k, k ∈ l → k ≤ foldr Z.max 0 l).
  { induction l as [|x l IH]; intros k Hkl; [by apply elem_of_nil in Hkl|].
    apply elem_of_cons in Hkl as [->|Hkl]; simpl; [lia|].
    specialize (IH _ Hkl). lia. }
  apply Hle in Hk. lia.
Qed.

Lemma create_packet_timed db base_date d all_upper freshman :
  triple (holds (timed db base_date))
    (create_packet d all_upper (combine base_date packet_start_time)
       (combine (base_date + 14) packet_end_time) freshman)
    (λ _, holds (timed db base_date)) (holds (timed db base_date)).
Proof.
  unfold create_packet.
  eapply triple_bind; [apply triple_get_session|intros s0].
  eapply triple_pre; [|intros w Hw; exact (proj1 Hw)].
  eapply triple_bind.
  { apply triple_modify_session with (R' := timed db base_date).
    intros s c [Hs Hc]. split; [|done]. intros pid p. simpl.
    rewrite lookup_insert. case_decide; [by intros [= <-]|]. apply Hs. }
  intros ?. triple_step triple_send. triple_step triple_send.
  eapply triple_bind.
  { apply triple_for_each. intros member _.
    by apply triple_modify_session. }
  intros ?. eapply triple_bind; [apply triple_get_session|intros s2].
  eapply triple_pre; [|intros w Hw; exact (proj1 Hw)].
  apply triple_for_each. intros f _. by apply triple_modify_session.
Qed.

Lemma create_packets_timed db answer base_date d rows :
  triple (holds (timed db base_date)) (create_packets answer base_date d rows)
    (λ _, holds (timed db base_date)) (holds (timed db base_date)).
Proof.
  unfold create_packets.
  triple_step triple_print.
  case_decide; [by apply triple_ret|].
  eapply triple_bind.
  { apply triple_lift with
      (Q := λ end__, holds (λ s c, timed db base_date s c ∧
                                   end__ = combine (base_date + 14) packet_end_time));
      [|done].
    intros w end__ Hw Eend. split; [done|].
    unfold add_days in Eend. simpl in Eend. by destruct (_ && _); simplify_eq. }
  intros end__. apply triple_pure. intros ->.
  triple_step triple_print. triple_step triple_send.
  eapply triple_bind with (Q := λ _, holds (timed db base_date)).
  { eapply triple_post; [apply triple_parse_csv|by intros csv w [Hw _]].
    by intros s c [Hs Hc]. }
  intros csv. triple_step triple_print.
  eapply triple_bind; [apply triple_get_session|intros s0].
  eapply triple_pre; [|intros w Hw; exact (proj1 Hw)].
  eapply triple_bind.
  { apply triple_for_each. intros f _. apply create_packet_timed. }
  intros ?. eapply triple_bind.
  { apply triple_commit with (R' := timed db base_date). by intros s c [Hs _]. }
  intros ?. apply triple_print.
Qed.

(** C7, as amended: a packet that create-packets adds for a season starting
    on day [base_date] has its start on that day at [packet_start_time]
    (19:00) and its end fourteen days later at [packet_end_time] (21:00). *)
Theorem create_packets_timestamps answer base_date d rows (db : Store) pid p :
  packets db !! pid = None →
  packets (db_after (create_packets answer base_date d rows) db) !! pid = Some p →
  start p = combine base_date packet_start_time ∧
  end_ p = combine (base_date + 14) packet_end_time ∧
  dt_time (start p) = time_of_hour 19 ∧
  dt_time (end_ p) = time_of_hour 21.
Proof.
  intros Hnew Hp.
  assert (H : new_packets_timed db base_date
                (db_after (create_packets answer base_date d rows) db)).
  { apply (triple_run _ _ (λ _, holds (timed db base_date)));
      [|by intros _ w [_ Hw]|intros pid' p' E1 E2; congruence].
    eapply triple_exn; [apply create_packets_timed|]. by intros w [_ Hw]. }
  destruct (H _ _ Hp Hnew) as [-> ->]. done.
Qed.

(** ** ldap-sync: the loops in closed form *)

Lemma foldl_migrate_to_misc pid l s :
  foldl (migrate_to_misc pid) s l
  = set_misc_sigs
      (λ ms, ms ++ (mk_MiscSignature pid ∘ upper_member
                      <$> filter (λ sig, upper_signed sig = true) l))
      (set_upper_sigs
         (filter (λ sig, ¬ (upper_packet_id sig = pid ∧
                            upper_member sig ∈ upper_member <$> l))) s).
Proof.
  revert s. induction l as [|x l IH]; intros s.
  - apply store_eq; simpl; try done.
    + symmetry. apply filter_all. intros sig _ [_ Hin]. by apply elem_of_nil in Hin.
    + by rewrite app_nil_r.
  - simpl foldl. rewrite IH. unfold migrate_to_misc.
    apply store_eq; try (by destruct (upper_signed x)).
    + transitivity (filter (λ sig, ¬ (upper_packet_id sig = pid ∧
                                   upper_member sig ∈ upper_member <$> l))
                      (filter (λ sig, ¬ upper_matches pid (upper_member x) sig)
                              (upper_sigs s))).
      { by destruct (upper_signed x). }
      rewrite list_filter_filter. apply list_filter_iff. intros sig.
      unfold upper_matches. simpl. rewrite elem_of_cons. tauto.
    + destruct (upper_signed x) eqn:Ex; simpl.
      * rewrite filter_cons_True by done. rewrite fmap_cons.
        by rewrite <- app_assoc.
      * rewrite filter_cons_False by (by rewrite Ex). done.
Qed.

Lemma foldl_migrate_to_upper d all_upper pid l s :
  foldl (migrate_to_upper d all_upper pid) s l
  = set_upper_sigs (λ us, us ++ (reactivated d all_upper pid <$> l))
      (set_misc_sigs
         (filter (λ sig, ¬ (misc_packet_id sig = pid ∧
                            misc_member sig ∈ misc_member <$> l))) s).
Proof.
  revert s. induction l as [|x l IH]; intros s.
  - apply store_eq; simpl; try done.
    + by rewrite app_nil_r.
    + symmetry. apply filter_all. intros sig _ [_ Hin]. by apply elem_of_nil in Hin.
  - simpl foldl. rewrite IH. unfold migrate_to_upper.
    apply store_eq; simpl; try done.
    + by rewrite <- app_assoc.
    + rewrite list_filter_filter. apply list_filter_iff. intros sig.
      unfold misc_matches. simpl. rewrite elem_of_cons. tauto.
Qed.

Lemma foldl_create_upper d pid l s :
  foldl (create_upper d pid) s l
  = set_upper_sigs
      (λ us, us ++ ((λ entry : string * LdapMember,
                       with_roles d entry.2 (new_upper pid entry.1 false)) <$> l)) s.
Proof.
  revert s. induction l as [|x l IH]; intros s.
  - apply store_eq; simpl; try done. by rewrite app_nil_r.
  - simpl foldl. rewrite IH. unfold create_upper.
    apply store_eq; simpl; try done.
    by rewrite <- app_assoc.
Qed.

Lemma refresh_roles_packet_id d all_upper pid sig :
  upper_packet_id (refresh_roles d all_upper pid sig) = upper_packet_id sig.
Proof. unfold refresh_roles. case_decide; [|done]. by destruct (_ !! _). Qed.

Lemma refresh_roles_member d all_upper pid sig :
  upper_member (refresh_roles d all_upper pid sig) = upper_member sig.
Proof. unfold refresh_roles. case_decide; [|done]. by destruct (_ !! _). Qed.

Lemma refresh_roles_signed d all_upper pid sig :
  upper_signed (refresh_roles d all_upper pid sig) = upper_signed sig.
Proof. unfold refresh_roles. case_decide; [|done]. by destruct (_ !! _). Qed.

Lemma refresh_roles_other d all_upper pid sig :
  upper_packet_id sig ≠ pid → refresh_roles d all_upper pid sig = sig.
Proof. intros Hne. unfold refresh_roles. by rewrite decide_False. Qed.

Lemma reactivated_packet_id d all_upper pid m :
  upper_packet_id (reactivated d all_upper pid m) = pid.
Proof. unfold reactivated. by destruct (_ !! _). Qed.

Lemma reactivated_member d all_upper pid m :
  upper_member (reactivated d all_upper pid m) = misc_member m.
Proof. unfold reactivated. by destruct (_ !! _). Qed.

Lemma reactivated_signed d all_upper pid m :
  upper_signed (reactivated d all_upper pid m) = true.
Proof. unfold reactivated. by destruct (_ !! _). Qed.

(** ** ldap-sync: the rows of one packet after its turn *)

Section ldap_sync_packet_rows.
Context (d : Ldap) (all_upper : gmap string LdapMember) (p : Z * Packet).

Lemma inactive_snapshot_member s sig :
  sig ∈ upper_sigs (refreshed d all_upper p.1 s) → upper_packet_id sig = p.1 →
  upper_member sig ∈ upper_member <$>
      filter (λ sig, all_upper !! upper_member sig = None)
             (upper_signatures (refreshed d all_upper p.1 s) p.1)
  ↔ all_upper !! upper_member sig = None.
Proof.
  intros Hin Hpid. split.
  - intros (sig' & E & Hin')%list_elem_of_fmap.
    apply list_elem_of_filter in Hin' as [Hnone _]. by rewrite E.
  - intros Hnone. apply list_elem_of_fmap. exists sig. split; [done|].
    apply list_elem_of_filter. split; [done|].
    by apply list_elem_of_filter.
Qed.

Lemma to_reactivate_elem s (l : list UpperSignature) m :
  (∀ sig, sig ∈ l → all_upper !! upper_member sig = None) →
  m ∈ filter (λ sig, is_Some (all_upper !! misc_member sig))
        (filter (λ sig, misc_packet_id sig = p.1)
           (misc_sigs s ++ (mk_MiscSignature p.1 ∘ upper_member <$> l)))
  ↔ m ∈ misc_sigs s ∧ misc_packet_id m = p.1 ∧
    is_Some (all_upper !! misc_member m).
Proof.
  intros Hl. rewrite !list_elem_of_filter, elem_of_app, list_elem_of_fmap.
  split.
  - intros (Hact & Hpid & [Hin | (sig & -> & Hsig)]); [done|].
    simpl in Hact. apply Hl in Hsig. rewrite Hsig in Hact.
    by destruct Hact.
  - intros (Hin & Hpid & Hact). auto.
Qed.

Lemma ldap_sync_packet_upper s sig :
  sig ∈ upper_sigs (ldap_sync_packet d all_upper p s) ↔
    (∃ sig0, sig0 ∈ upper_sigs s ∧
             (upper_packet_id sig0 = p.1 → is_Some (all_upper !! upper_member sig0)) ∧
             sig = refresh_roles d all_upper p.1 sig0)
  ∨ (∃ m, m ∈ misc_sigs s ∧ misc_packet_id m = p.1 ∧
          is_Some (all_upper !! misc_member m) ∧
          sig = reactivated d all_upper p.1 m)
  ∨ (∃ k member, all_upper !! k = Some member ∧
          ¬ has_upper s p.1 k ∧ ¬ has_misc s p.1 k ∧
          sig = with_roles d member (new_upper p.1 k false)).
Proof.
  unfold ldap_sync_packet.
  rewrite foldl_create_upper, foldl_migrate_to_upper, foldl_migrate_to_misc.
  simpl. fold (refreshed d all_upper p.1 s).
  set (inactive := filter (λ sig, all_upper !! upper_member sig = None)
                     (upper_signatures (refreshed d all_upper p.1 s) p.1)).
  assert (Hinactive : ∀ x, x ∈ filter (λ sig, upper_signed sig = true) inactive →
                           all_upper !! upper_member x = None).
  { intros x [_ Hx]%list_elem_of_filter.
    by apply list_elem_of_filter in Hx as [? _]. }
  rewrite !elem_of_app, !list_elem_of_fmap.
  apply or3_iff.
  - rewrite list_elem_of_filter. split.
    + intros (Hkeep & Hin). apply list_elem_of_fmap in Hin as (sig0 & -> & Hin0).
      exists sig0. split; [done|]. split; [|done].
      intros Hpid. destruct (all_upper !! upper_member sig0) eqn:E; [done|].
      exfalso. apply Hkeep.
      rewrite refresh_roles_packet_id. split; [done|].
      apply inactive_snapshot_member.
      * simpl. apply list_elem_of_fmap. eauto.
      * by rewrite refresh_roles_packet_id.
      * by rewrite refresh_roles_member.
    + intros (sig0 & Hin0 & Hact & ->).
      split; [|apply list_elem_of_fmap; eauto].
      rewrite refresh_roles_packet_id. intros [Hpid Hmem].
      apply inactive_snapshot_member in Hmem.
      * rewrite refresh_roles_member in Hmem.
        destruct (Hact Hpid) as [? ?]. congruence.
      * simpl. apply list_elem_of_fmap. eauto.
      * by rewrite refresh_roles_packet_id.
  - split.
    + intros (m & -> & Hm). apply to_reactivate_elem in Hm; [|done].
      exists m. tauto.
    + intros (m & ? & ? & ? & ->). exists m. split; [done|].
      by apply to_reactivate_elem.
  - split.
    + intros ([k member] & -> & Hin). simpl.
      apply list_elem_of_filter in Hin as [Hnot Hin].
      apply elem_of_map_to_list in Hin. simpl in Hnot.
      exists k, member. split; [done|]. split; [|split; [|done]].
      * intros (sig0 & Hin0 & Hpid & Hmem). apply Hnot.
        rewrite fmap_app, elem_of_app. left.
        apply list_elem_of_fmap. exists (refresh_roles d all_upper p.1 sig0).
        rewrite refresh_roles_member. split; [done|].
        apply list_elem_of_filter. rewrite refresh_roles_packet_id.
        split; [done|]. simpl. apply list_elem_of_fmap. eauto.
      * intros (m & Hin0 & Hpid & Hmem). apply Hnot.
        rewrite fmap_app, elem_of_app. right.
        apply list_elem_of_fmap. exists (reactivated d all_upper p.1 m).
        rewrite reactivated_member. split; [done|].
        apply list_elem_of_fmap. exists m. split; [done|].
        apply to_reactivate_elem; [done|].
        rewrite Hmem, Hin. eauto.
    + intros (k & member & Hk & Hnu & Hnm & ->).
      exists (k, member). split; [done|].
      apply list_elem_of_filter. split; [|by apply elem_of_map_to_list].
      simpl. rewrite fmap_app, elem_of_app. intros [Hin|Hin].
      * apply list_elem_of_fmap in Hin as (sig1 & -> & Hin).
        apply list_elem_of_filter in Hin as [Hpid Hin]. simpl in Hin.
        apply list_elem_of_fmap in Hin as (sig0 & -> & Hin).
        apply Hnu. exists sig0. split; [done|].
        rewrite refresh_roles_packet_id in Hpid.
        by rewrite refresh_roles_member.
      * apply list_elem_of_fmap in Hin as (sig1 & -> & Hin).
        apply list_elem_of_fmap in Hin as (m & -> & Hin).
        apply to_reactivate_elem in Hin as (Hin & Hpid & _); [|done].
        apply Hnm. exists m. rewrite reactivated_member. by split.
Qed.
(** Reading [packet.upper_signatures] afresh from the session before the
    fourth loop, instead of the loaded collection with the rows added to
    it, selects the same members. *)
Lemma upper_sigs_reload s :
  let s1 := refreshed d all_upper p.1 s in
  let loaded := upper_signatures s1 p.1 in
  let s2 := foldl (migrate_to_misc p.1) s1
              (filter (λ sig, all_upper !! upper_member sig = None) loaded) in
  let to_reactivate := filter (λ sig, is_Some (all_upper !! misc_member sig))
                              (misc_signatures s2 p.1) in
  let s3 := foldl (migrate_to_upper d all_upper p.1) s2 to_reactivate in
  filter (λ entry : string * LdapMember,
            entry.1 ∉ upper_member <$>
              (loaded ++ (reactivated d all_upper p.1 <$> to_reactivate)))
         (map_to_list all_upper)
  = filter (λ entry : string * LdapMember,
              entry.1 ∉ upper_member <$> upper_signatures s3 p.1)
           (map_to_list all_upper).
Proof.
  intros s1 loaded s2 to_reactivate s3.
  apply filter_ext_elem. intros [k member] Hk.
  apply elem_of_map_to_list in Hk. simpl.
  apply not_iff_compat.
  assert (Hup : upper_sigs s3
                = filter (λ sig, ¬ (upper_packet_id sig = p.1 ∧
                                    upper_member sig ∈ upper_member <$>
                                      filter (λ sig, all_upper !! upper_member sig = None)
                                             loaded))
                         (upper_sigs s1)
                  ++ (reactivated d all_upper p.1 <$> to_reactivate)).
  { subst s3 s2. by rewrite foldl_migrate_to_upper, foldl_migrate_to_misc. }
  rewrite !list_elem_of_fmap. split.
  - intros (x & -> & Hx). exists x. split; [done|].
    apply list_elem_of_filter. rewrite Hup, elem_of_app.
    apply elem_of_app in Hx as [Hx|Hx].
    + apply list_elem_of_filter in Hx as [Hpid Hx]. split; [done|]. left.
      apply list_elem_of_filter. split; [|done]. intros [_ Hmem].
      apply inactive_snapshot_member in Hmem; [|done..]. congruence.
    + split; [|by right].
      apply list_elem_of_fmap in Hx as (m & -> & _).
      apply reactivated_packet_id.
  - intros (x & -> & Hx). exists x. split; [done|].
    apply list_elem_of_filter in Hx as [Hpid Hx].
    rewrite Hup in Hx. rewrite elem_of_app.
    apply elem_of_app in Hx as [Hx|Hx]; [left|by right].
    apply list_elem_of_filter in Hx as [_ Hx].
    by apply list_elem_of_filter.
Qed.
End ldap_sync_packet_rows.

Section ldap_sync_packet_misc_rows.
Context (d : Ldap) (all_upper : gmap string LdapMember) (p : Z * Packet).

Lemma ldap_sync_packet_misc s m :
  m ∈ misc_sigs (ldap_sync_packet d all_upper p s) ↔
    (m ∈ misc_sigs s ∧
     ¬ (misc_packet_id m = p.1 ∧ is_Some (all_upper !! misc_member m)))
  ∨ (∃ sig0, sig0 ∈ upper_sigs s ∧ upper_packet_id sig0 = p.1 ∧
             all_upper !! upper_member sig0 = None ∧
             upper_signed sig0 = true ∧
             m = mk_MiscSignature p.1 (upper_member sig0)).
Proof.
  unfold ldap_sync_packet.
  rewrite foldl_create_upper, foldl_migrate_to_upper, foldl_migrate_to_misc.
  simpl.
  set (inactive := filter (λ sig, all_upper !! upper_member sig = None) _).
  assert (Hinactive : ∀ x, x ∈ filter (λ sig, upper_signed sig = true) inactive →
                           all_upper !! upper_member x = None).
  { intros x [_ Hx]%list_elem_of_filter.
    by apply list_elem_of_filter in Hx as [? _]. }
  rewrite list_elem_of_filter. split.
  - intros [Hkeep Hin]. apply elem_of_app in Hin as [Hin|Hin].
    + left. split; [done|]. intros [Hpid Hact]. apply Hkeep. split; [done|].
      apply list_elem_of_fmap. exists m. split; [done|].
      by apply to_reactivate_elem.
    + right. apply list_elem_of_fmap in Hin as (sig1 & -> & Hin).
      apply list_elem_of_filter in Hin as [Hsigned Hin].
      apply list_elem_of_filter in Hin as [Hnone Hin].
      apply list_elem_of_filter in Hin as [Hpid Hin]. simpl in Hin.
      apply list_elem_of_fmap in Hin as (sig0 & -> & Hin).
      exists sig0. rewrite refresh_roles_packet_id in Hpid.
      rewrite refresh_roles_member in Hnone.
      rewrite refresh_roles_signed in Hsigned.
      simpl. by rewrite refresh_roles_member.
  - intros [[Hin Hkeep] | (sig0 & Hin & Hpid & Hnone & Hsigned & ->)].
    + split; [|apply elem_of_app; by left].
      intros [Hpid Hmem]. apply Hkeep. split; [done|].
      apply list_elem_of_fmap in Hmem as (m' & -> & Hm').
      by apply to_reactivate_elem in Hm' as (_ & _ & ?).
    + split.
      * simpl. intros [_ Hmem].
        apply list_elem_of_fmap in Hmem as (m' & E & Hm').
        apply to_reactivate_elem in Hm' as (_ & _ & Hact); [|done].
        rewrite <- E, Hnone in Hact. by destruct Hact.
      * apply elem_of_app. right. apply list_elem_of_fmap.
        exists (refresh_roles d all_upper p.1 sig0). simpl.
        rewrite refresh_roles_member. split; [done|].
        apply list_elem_of_filter. rewrite refresh_roles_signed. split; [done|].
        apply list_elem_of_filter. rewrite refresh_roles_member. split; [done|].
        apply list_elem_of_filter. rewrite refresh_roles_packet_id. split; [done|].
        simpl. apply list_elem_of_fmap. eauto.
Qed.

Lemma ldap_sync_packet_other s :
  freshmen (ldap_sync_packet d all_upper p s) = freshmen s ∧
  packets (ldap_sync_packet d all_upper p s) = packets s ∧
  fresh_sigs (ldap_sync_packet d all_upper p s) = fresh_sigs s.
Proof.
  unfold ldap_sync_packet.
  rewrite foldl_create_upper, foldl_migrate_to_upper, foldl_migrate_to_misc.
  done.
Qed.
End ldap_sync_packet_misc_rows.

(** ** The loop over the open packets *)

Lemma NoDup_open_or_future_packets now s :
  NoDup (open_or_future_packets now s).*1.
Proof.
  unfold open_or_future_packets.
  eapply sublist_NoDup; [apply (NoDup_fst_map_to_list (packets s))|].
  apply fmap_sublist, sublist_filter.
Qed.

Lemma elem_of_open_or_future_packets now s pid packet :
  (pid, packet) ∈ open_or_future_packets now s
  ↔ packets s !! pid = Some packet ∧ dt_ltb now (end_ packet) = true.
Proof.
  unfold open_or_future_packets.
  rewrite list_elem_of_filter, elem_of_map_to_list. simpl. tauto.
Qed.

Lemma same_rows_refl q s : same_rows q s s.
Proof. by split. Qed.

Lemma same_rows_trans q s1 s2 s3 :
  same_rows q s1 s2 → same_rows q s2 s3 → same_rows q s1 s3.
Proof.
  intros [U1 M1] [U2 M2]. split.
  - intros sig Hq. by rewrite U1, U2.
  - intros m Hq. by rewrite M1, M2.
Qed.

Lemma same_rows_has_upper q s s' u :
  same_rows q s s' → has_upper s q u ↔ has_upper s' q u.
Proof.
  intros [U _]. unfold has_upper.
  split; intros (sig & Hin & Hm); exists sig; (split; [|done]);
    apply U; try done; apply Hm.
Qed.

Lemma same_rows_has_misc q s s' u :
  same_rows q s s' → has_misc s q u ↔ has_misc s' q u.
Proof.
  intros [_ Mi]. unfold has_misc.
  split; intros (sig & Hin & Hm); exists sig; (split; [|done]);
    apply Mi; try done; apply Hm.
Qed.

Lemma same_rows_has_signed_upper q s s' u :
  same_rows q s s' → has_signed_upper s q u ↔ has_signed_upper s' q u.
Proof.
  intros [U _]. unfold has_signed_upper.
  split; intros (sig & Hin & Hm & Hs); exists sig; (split; [|done]);
    apply U; try done; apply Hm.
Qed.

Section ldap_sync_loop.
Context (d : Ldap) (all_upper : gmap string LdapMember).

Lemma ldap_sync_packet_frame p s q :
  q ≠ p.1 → same_rows q s (ldap_sync_packet d all_upper p s).
Proof.
  intros Hne. split.
  - intros sig Hq. rewrite ldap_sync_packet_upper. split.
    + intros Hin. left. exists sig. split; [done|]. split; [congruence|].
      symmetry. apply refresh_roles_other. congruence.
    + intros [(sig0 & Hin & _ & ->) | [(m & _ & _ & _ & ->) | (k & mem & _ & _ & _ & ->)]].
      * rewrite refresh_roles_packet_id in Hq.
        rewrite refresh_roles_other by congruence. done.
      * rewrite reactivated_packet_id in Hq. congruence.
      * simpl in Hq. congruence.
  - intros m Hq. rewrite ldap_sync_packet_misc. split.
    + intros Hin. left. split; [done|]. intros [? _]. congruence.
    + intros [[Hin _] | (sig0 & _ & _ & _ & _ & ->)]; [done|].
      simpl in Hq. congruence.
Qed.

Lemma ldap_sync_all_other l s :
  freshmen (ldap_sync_all d all_upper l s) = freshmen s ∧
  packets (ldap_sync_all d all_upper l s) = packets s ∧
  fresh_sigs (ldap_sync_all d all_upper l s) = fresh_sigs s.
Proof.
  revert s. induction l as [|p l IH]; intros s; [done|].
  unfold ldap_sync_all in *. simpl.
  destruct (IH (ldap_sync_packet d all_upper p s)) as (-> & -> & ->).
  apply ldap_sync_packet_other.
Qed.

Lemma ldap_sync_all_frame l s q :
  q ∉ l.*1 → same_rows q s (ldap_sync_all d all_upper l s).
Proof.
  revert s. induction l as [|p l IH]; intros s Hq; [apply same_rows_refl|].
  rewrite fmap_cons, not_elem_of_cons in Hq. destruct Hq as [Hne Hq].
  change (ldap_sync_all d all_upper (p :: l) s)
    with (ldap_sync_all d all_upper l (ldap_sync_packet d all_upper p s)).
  eapply same_rows_trans; [by apply ldap_sync_packet_frame|].
  by apply IH.
Qed.

(** The rows of a packet of the loop are, at the end, those its own turn
    left, and its turn started from the rows the packet had at first. *)
Lemma ldap_sync_all_turn l s p :
  NoDup l.*1 → p ∈ l →
  ∃ s0, same_rows p.1 s s0 ∧
        same_rows p.1 (ldap_sync_packet d all_upper p s0) (ldap_sync_all d all_upper l s).
Proof.
  revert s. induction l as [|p0 l IH]; intros s Hnd Hin.
  - by apply elem_of_nil in Hin.
  - rewrite fmap_cons in Hnd. apply NoDup_cons in Hnd as [Hp0 Hnd].
    change (ldap_sync_all d all_upper (p0 :: l) s)
      with (ldap_sync_all d all_upper l (ldap_sync_packet d all_upper p0 s)).
    apply elem_of_cons in Hin as [->|Hin].
    + exists s. split; [apply same_rows_refl|].
      by apply ldap_sync_all_frame.
    + destruct (IH (ldap_sync_packet d all_upper p0 s) Hnd Hin) as (s0 & H0 & H1).
      exists s0. split; [|done].
      eapply same_rows_trans; [|done].
      apply ldap_sync_packet_frame. intros E. apply Hp0. rewrite <- E.
      apply list_elem_of_fmap. by exists p.
Qed.
End ldap_sync_loop.

Lemma ldap_sync_db_after now d db :
  db_after (ldap_sync now d) db
  = ldap_sync_all d (all_upper_dict d) (open_or_future_packets now db) db.
Proof.
  unfold db_after, run, ldap_sync.
  erewrite bind_ok; [|reflexivity].
  erewrite bind_ok; [|reflexivity].
  erewrite bind_ok; [|reflexivity]. simpl.
  erewrite bind_ok; [|apply for_each_modify].
  done.
Qed.

Lemma ldap_sync_outcome now d db : outcome (ldap_sync now d) db = inr tt.
Proof.
  unfold outcome, run, ldap_sync.
  erewrite bind_ok; [|reflexivity].
  erewrite bind_ok; [|reflexivity].
  erewrite bind_ok; [|reflexivity]. simpl.
  erewrite bind_ok; [|apply for_each_modify].
  done.
Qed.

(** ** ldap-sync: who is represented after the sync *)

Lemma all_upper_dict_active d u :
  is_Some (all_upper_dict d !! u) ↔ is_active_upper d u.
Proof.
  unfold all_upper_dict, is_active_upper.
  assert (H : ∀ (l : list LdapMember) (acc : gmap string LdapMember),
    is_Some (foldl (λ acc member, <[uid member := member]> acc) acc l !! u)
    ↔ is_Some (acc !! u) ∨ ∃ member, member ∈ l ∧ uid member = u).
  { induction l as [|x l IH]; intros acc; simpl.
    - split; [by left|]. intros [?|(m & Hm & _)]; [done|].
      by apply elem_of_nil in Hm.
    - rewrite IH, lookup_insert. split.
      + intros [Hs | (m & Hm & E)].
        * case_decide; [|by left]. right. exists x. split; [left|done].
        * right. exists m. split; [by right|done].
      + intros [Hs | (m & Hm & E)].
        * left. by case_decide.
        * apply elem_of_cons in Hm as [->|Hm].
          -- left. by rewrite decide_True.
          -- right. by exists m. }
  rewrite H, lookup_empty. split.
  - intros [[? ?] | (m & Hm & E)]; [done|].
    apply list_elem_of_filter in Hm as [? ?]. by exists m.
  - intros (m & Hm & Hu & E). right. exists m. split; [|done].
    by apply list_elem_of_filter.
Qed.

Lemma has_upper_dec s pid u : has_upper s pid u ∨ ¬ has_upper s pid u.
Proof.
  destruct (decide (Exists (upper_matches pid u) (upper_sigs s))) as [H|H];
    rewrite Exists_exists in H; [by left|by right].
Qed.

Lemma has_misc_dec s pid u : has_misc s pid u ∨ ¬ has_misc s pid u.
Proof.
  destruct (decide (Exists (misc_matches pid u) (misc_sigs s))) as [H|H];
    rewrite Exists_exists in H; [by left|by right].
Qed.

Section ldap_sync_packet_keys.
Context (d : Ldap) (all_upper : gmap string LdapMember) (p : Z * Packet).

Lemma ldap_sync_packet_has_upper s u :
  has_upper (ldap_sync_packet d all_upper p s) p.1 u ↔ is_Some (all_upper !! u).
Proof.
  unfold has_upper at 1. split.
  - intros (sig & Hin & Hpid & Hmem).
    apply ldap_sync_packet_upper in Hin
      as [(sig0 & _ & Hact & ->) | [(m & _ & _ & Hact & ->) | (k & mem & Hk & _ & _ & ->)]].
    + rewrite refresh_roles_packet_id in Hpid.
      rewrite refresh_roles_member in Hmem. rewrite <- Hmem. by apply Hact.
    + rewrite reactivated_member in Hmem. by rewrite <- Hmem.
    + simpl in Hmem. by rewrite <- Hmem, Hk.
  - intros Hact.
    destruct (has_upper_dec s p.1 u) as [(sig0 & Hin & Hpid & Hmem)|Hnu].
    { exists (refresh_roles d all_upper p.1 sig0).
      split; [|by split; rewrite ?refresh_roles_packet_id, ?refresh_roles_member].
      apply ldap_sync_packet_upper. left. exists sig0.
      split; [done|]. split; [|done]. by rewrite Hmem. }
    destruct (has_misc_dec s p.1 u) as [(m & Hin & Hpid & Hmem)|Hnm].
    { exists (reactivated d all_upper p.1 m).
      split; [|by split; rewrite ?reactivated_packet_id, ?reactivated_member].
      apply ldap_sync_packet_upper. right. left. exists m.
      by rewrite Hmem. }
    destruct Hact as [mem Hk].
    exists (with_roles d mem (new_upper p.1 u false)). split; [|done].
    apply ldap_sync_packet_upper. right. right. by exists u, mem.
Qed.

Lemma ldap_sync_packet_has_misc s u :
  has_misc (ldap_sync_packet d all_upper p s) p.1 u
  ↔ all_upper !! u = None ∧ (has_misc s p.1 u ∨ has_signed_upper s p.1 u).
Proof.
  unfold has_misc at 1. split.
  - intros (m & Hin & Hpid & Hmem).
    apply ldap_sync_packet_misc in Hin
      as [[Hin Hkeep] | (sig0 & Hin & Hpid0 & Hnone & Hsigned & ->)].
    + split.
      * destruct (all_upper !! u) eqn:E; [|done].
        exfalso. apply Hkeep. by rewrite Hmem, E.
      * left. by exists m.
    + simpl in Hmem. split; [by rewrite <- Hmem|].
      right. by exists sig0.
  - intros [Hnone [(m & Hin & Hpid & Hmem) | (sig0 & Hin & [Hpid Hmem] & Hsigned)]].
    + exists m. split; [|done]. apply ldap_sync_packet_misc. left.
      split; [done|]. rewrite Hmem, Hnone. by intros [_ [? ?]].
    + exists (mk_MiscSignature p.1 u). split; [|done].
      apply ldap_sync_packet_misc. right. exists sig0. by rewrite Hmem.
Qed.

(** A member back in the directory with only a MiscSignature on the
    packet gets signed UpperSignatures and nothing else. *)
Lemma ldap_sync_packet_reactivated_signed s u sig :
  ¬ has_upper s p.1 u → has_misc s p.1 u →
  sig ∈ upper_sigs (ldap_sync_packet d all_upper p s) →
  upper_matches p.1 u sig → upper_signed sig = true.
Proof.
  intros Hnu Hm Hin [Hpid Hmem].
  apply ldap_sync_packet_upper in Hin
    as [(sig0 & Hin & _ & ->) | [(m & _ & _ & _ & ->) | (k & mem & _ & _ & Hnm & ->)]].
  - exfalso. apply Hnu. exists sig0. split; [done|].
    rewrite refresh_roles_packet_id in Hpid.
    by rewrite refresh_roles_member in Hmem.
  - apply reactivated_signed.
  - simpl in Hmem. subst k. done.
Qed.
End ldap_sync_packet_keys.

Section ldap_sync_open_packet.
Context (now : datetime) (d : Ldap) (db : Store) (pid : Z) (packet : Packet).
Hypothesis Hpacket : packets db !! pid = Some packet.
Hypothesis Hopen : dt_ltb now (end_ packet) = true.

Lemma ldap_sync_turn :
  ∃ s0, same_rows pid db s0 ∧
        same_rows pid (ldap_sync_packet d (all_upper_dict d) (pid, packet) s0)
                  (db_after (ldap_sync now d) db).
Proof.
  rewrite ldap_sync_db_after.
  apply (ldap_sync_all_turn d (all_upper_dict d) _ db (pid, packet)).
  - apply NoDup_open_or_future_packets.
  - by apply elem_of_open_or_future_packets.
Qed.

Lemma ldap_sync_has_upper u :
  has_upper (db_after (ldap_sync now d) db) pid u ↔ is_active_upper d u.
Proof.
  destruct ldap_sync_turn as (s0 & _ & H1).
  rewrite <- (same_rows_has_upper _ _ _ _ H1).
  rewrite (ldap_sync_packet_has_upper d (all_upper_dict d) (pid, packet)).
  apply all_upper_dict_active.
Qed.

Lemma ldap_sync_has_misc u :
  has_misc (db_after (ldap_sync now d) db) pid u
  ↔ ¬ is_active_upper d u ∧ (has_misc db pid u ∨ has_signed_upper db pid u).
Proof.
  destruct ldap_sync_turn as (s0 & H0 & H1).
  rewrite <- (same_rows_has_misc _ _ _ _ H1).
  rewrite (ldap_sync_packet_has_misc d (all_upper_dict d) (pid, packet)).
  simpl. rewrite <- (same_rows_has_misc _ _ _ _ H0).
  rewrite <- (same_rows_has_signed_upper _ _ _ _ H0).
  rewrite <- all_upper_dict_active, eq_None_not_Some. done.
Qed.

Lemma ldap_sync_reactivated_signed u sig :
  is_active_upper d u → ¬ has_upper db pid u → has_misc db pid u →
  sig ∈ upper_sigs (db_after (ldap_sync now d) db) →
  upper_matches pid u sig → upper_signed sig = true.
Proof.
  intros Hact Hnu Hm Hin Hmatch.
  destruct ldap_sync_turn as (s0 & H0 & H1).
  apply (ldap_sync_packet_reactivated_signed d (all_upper_dict d) (pid, packet) s0 u).
  - by rewrite <- (same_rows_has_upper _ _ _ _ H0).
  - by rewrite <- (same_rows_has_misc _ _ _ _ H0).
  - apply H1; [apply Hmatch|done].
  - done.
Qed.
End ldap_sync_open_packet.

Lemma ldap_sync_packets now d db :
  packets (db_after (ldap_sync now d) db) = packets db.
Proof. rewrite ldap_sync_db_after. apply ldap_sync_all_other. Qed.

(** C1: after one run of ldap-sync, on every packet whose end is in the
    future, nobody has both an UpperSignature and a MiscSignature, and
    every signer (an active upperclassman, somebody who had signed as an
    upperclassman or had a MiscSignature before the run, or anybody with a
    row after it) has exactly one of the two. *)
Theorem ldap_sync_exactly_one now d (db : Store) pid packet :
  packets db !! pid = Some packet →
  dt_ltb now (end_ packet) = true →
  let db' := db_after (ldap_sync now d) db in
  outcome (ldap_sync now d) db = inr tt ∧
  (∀ u, ¬ (has_upper db' pid u ∧ has_misc db' pid u)) ∧
  (∀ u, is_active_upper d u ∨ has_signed_upper db pid u ∨ has_misc db pid u ∨
        has_upper db' pid u ∨ has_misc db' pid u →
        exactly_one (has_upper db' pid u) (has_misc db' pid u)).
Proof.
  intros Hp Hopen db'. subst db'.
  split; [apply ldap_sync_outcome|].
  assert (Hu := ldap_sync_has_upper now d db pid packet Hp Hopen).
  assert (Hm := ldap_sync_has_misc now d db pid packet Hp Hopen).
  split.
  - intros u. rewrite Hu, Hm. tauto.
  - intros u. unfold exactly_one. rewrite Hu, Hm.
    assert (Hdec : is_active_upper d u ∨ ¬ is_active_upper d u).
    { rewrite <- all_upper_dict_active.
      destruct (all_upper_dict d !! u); [left; eauto|right; by intros [? ?]]. }
    tauto.
Qed.

(** C2: a signer with a signed UpperSignature on an open packet, absent
    from the active members in one run of ldap-sync and present in the
    next, is moved to a MiscSignature by the first run and back by the
    second, and every UpperSignature the signer then has on the packet is
    signed. *)
Theorem ldap_sync_round_trip_signed now1 now2 d1 d2 (db : Store) pid packet u :
  packets db !! pid = Some packet →
  dt_ltb now1 (end_ packet) = true →
  dt_ltb now2 (end_ packet) = true →
  has_signed_upper db pid u →
  ¬ is_active_upper d1 u →
  is_active_upper d2 u →
  let db1 := db_after (ldap_sync now1 d1) db in
  let db2 := db_after (ldap_sync now2 d2) db1 in
  (¬ has_upper db1 pid u ∧ has_misc db1 pid u) ∧
  (has_upper db2 pid u ∧ ¬ has_misc db2 pid u) ∧
  (∀ sig, sig ∈ upper_sigs db2 → upper_matches pid u sig → upper_signed sig = true).
Proof.
  intros Hp Hopen1 Hopen2 Hsigned Hout Hback db1 db2.
  assert (Hp1 : packets db1 !! pid = Some packet).
  { subst db1. by rewrite ldap_sync_packets. }
  assert (Hu1 : ¬ has_upper db1 pid u).
  { subst db1. by rewrite (ldap_sync_has_upper now1 d1 db pid packet Hp Hopen1). }
  assert (Hm1 : has_misc db1 pid u).
  { subst db1. rewrite (ldap_sync_has_misc now1 d1 db pid packet Hp Hopen1). auto. }
  split; [done|]. split; [split|].
  - subst db2. by rewrite (ldap_sync_has_upper now2 d2 db1 pid packet Hp1 Hopen2).
  - subst db2. rewrite (ldap_sync_has_misc now2 d2 db1 pid packet Hp1 Hopen2). tauto.
  - intros sig. subst db2.
    by apply (ldap_sync_reactivated_signed now2 d2 db1 pid packet Hp1 Hopen2 u).
Qed.

(** ** sync-freshmen: the Freshman table *)

Lemma upsert_freshman_insert c (F : gmap string Freshman) :
  upsert_freshman c F = <[rit_username c := freshman_of_csv c]> F.
Proof. unfold upsert_freshman. by destruct (F !! rit_username c). Qed.

Lemma foldl_upsert_other (l : list CSVFreshman) (F : gmap string Freshman) u :
  (∀ c, c ∈ l → rit_username c ≠ u) →
  foldl (λ acc c, upsert_freshman c acc) F l !! u = F !! u.
Proof.
  revert F. induction l as [|x l IH]; intros F Hno; [done|]. simpl.
  rewrite IH by (intros c Hc; apply Hno; by right).
  rewrite upsert_freshman_insert. apply lookup_insert_ne. apply Hno. left.
Qed.

Lemma foldl_upsert_elem (l : list CSVFreshman) (F : gmap string Freshman) c :
  NoDup (rit_username <$> l) → c ∈ l →
  foldl (λ acc c, upsert_freshman c acc) F l !! rit_username c
  = Some (freshman_of_csv c).
Proof.
  revert F. induction l as [|x l IH]; intros F Hnd Hin.
  - by apply elem_of_nil in Hin.
  - rewrite fmap_cons in Hnd. apply NoDup_cons in Hnd as [Hx Hnd]. simpl.
    apply elem_of_cons in Hin as [->|Hin]; [|by apply IH].
    rewrite foldl_upsert_other.
    + rewrite upsert_freshman_insert. apply lookup_insert_eq.
    + intros c Hc E. apply Hx. rewrite <- E. apply list_elem_of_fmap. eauto.
Qed.

Lemma values_usernames (csv : gmap string CSVFreshman) :
  keyed_by_username csv → rit_username <$> values csv = (map_to_list csv).*1.
Proof.
  intros Hkey. unfold values. rewrite <- list_fmap_compose.
  apply fmap_ext_elem. intros [k c] Hin. simpl.
  apply Hkey. by apply elem_of_map_to_list.
Qed.

Lemma elem_of_values (csv : gmap string CSVFreshman) c :
  keyed_by_username csv → c ∈ values csv ↔ csv !! rit_username c = Some c.
Proof.
  intros Hkey. unfold values. rewrite list_elem_of_fmap. split.
  - intros ([k c'] & -> & Hin). apply elem_of_map_to_list in Hin. simpl.
    by rewrite (Hkey _ _ Hin).
  - intros Hc. exists (rit_username c, c). split; [done|].
    by apply elem_of_map_to_list.
Qed.

Lemma synced_freshmen_lookup (csv : gmap string CSVFreshman)
    (F : gmap string Freshman) u :
  keyed_by_username csv →
  synced_freshmen csv F !! u
  = match csv !! u with
    | Some c => Some (freshman_of_csv c)
    | None => set_onfloor false <$> F !! u
    end.
Proof.
  intros Hkey. unfold synced_freshmen, mark_departed.
  rewrite map_lookup_imap.
  destruct (csv !! u) as [c|] eqn:Ec.
  - assert (Eu := Hkey _ _ Ec). subst u.
    rewrite foldl_upsert_elem.
    + cbn. by rewrite ?Ec.
    + rewrite values_usernames by done. apply NoDup_fst_map_to_list.
    + by apply elem_of_values.
  - rewrite foldl_upsert_other.
    + destruct (F !! u); cbn; by rewrite ?Ec.
    + intros c Hc E. apply elem_of_values in Hc; [|done]. congruence.
Qed.

(** Syncing the table a second time changes nothing. *)
Lemma synced_freshmen_idem (csv : gmap string CSVFreshman)
    (F : gmap string Freshman) :
  keyed_by_username csv →
  synced_freshmen csv (synced_freshmen csv F) = synced_freshmen csv F.
Proof.
  intros Hkey. apply map_eq. intros u.
  rewrite !synced_freshmen_lookup by done.
  destruct (csv !! u); [done|].
  by destruct (F !! u).
Qed.

Lemma foldl_set_freshmen {A} (g : A → gmap string Freshman → gmap string Freshman)
    (l : list A) s :
  foldl (λ s x, set_freshmen (g x) s) s l
  = set_freshmen (λ F, foldl (λ F x, g x F) F l) s.
Proof.
  revert s. induction l as [|x l IH]; intros s; simpl.
  - by destruct s.
  - by rewrite IH.
Qed.

(** ** sync-freshmen: the signatures of one packet *)

Lemma drop_body_ok sig w :
  resolves (freshmen (session w)) sig →
  drop_body sig w = (inr tt, with_session (λ s, drop_offfloor s sig) w).
Proof.
  intros [f Ef]. unfold drop_body, get_session, lift, freshman_onfloor.
  unfold mbind, M_bind. rewrite Ef.
  unfold with_session, drop_offfloor.
  destruct (onfloor f) eqn:Eo; simpl.
  - rewrite decide_False; [by destruct w|].
    unfold offfloor. rewrite Ef. simpl. congruence.
  - rewrite decide_True; [done|].
    unfold offfloor. rewrite Ef. simpl. congruence.
Qed.

Lemma drop_body_raise sig w :
  ¬ resolves (freshmen (session w)) sig →
  drop_body sig w = (inl AttributeError, w).
Proof.
  intros Hno. unfold drop_body, get_session, lift, freshman_onfloor.
  unfold mbind, M_bind.
  destruct (freshmen (session w) !! fresh_freshman_username sig) eqn:E; [|done].
  exfalso. apply Hno. unfold resolves. by rewrite E.
Qed.

Lemma drop_offfloor_freshmen s sig :
  freshmen (drop_offfloor s sig) = freshmen s.
Proof. unfold drop_offfloor. by case_decide. Qed.

Lemma drop_loop_ok l w :
  Forall (resolves (freshmen (session w))) l →
  for_each l drop_body w
  = (inr tt, with_session (λ s, foldl drop_offfloor s l) w).
Proof.
  revert w. induction l as [|x l IH]; intros w Hall; simpl.
  - by rewrite with_session_id.
  - apply Forall_cons in Hall as [Hx Hl].
    erewrite bind_ok; [|by apply drop_body_ok].
    rewrite IH; [done|]. simpl. by rewrite drop_offfloor_freshmen.
Qed.

Lemma drop_loop_raise l w :
  ¬ Forall (resolves (freshmen (session w))) l →
  ∃ w', for_each l drop_body w = (inl AttributeError, w') ∧
        committed w' = committed w.
Proof.
  revert w. induction l as [|x l IH]; intros w Hno; simpl.
  - by destruct Hno.
  - destruct (decide (resolves (freshmen (session w)) x)) as [Hx|Hx].
    + erewrite bind_ok; [|by apply drop_body_ok].
      destruct (IH (with_session (λ s, drop_offfloor s x) w)) as (w' & E & Hc).
      * simpl. rewrite drop_offfloor_freshmen. intros Hl. apply Hno.
        by apply Forall_cons.
      * by exists w'.
    + erewrite bind_raise; [|by apply drop_body_raise]. by exists w.
Qed.

Lemma foldl_drop_offfloor l s :
  foldl drop_offfloor s l
  = set_fresh_sigs
      (filter (λ x, ¬ Exists (λ sig, offfloor (freshmen s) sig ∧
                                fresh_matches (fresh_packet_id sig)
                                  (fresh_freshman_username sig) x) l)) s.
Proof.
  revert s. induction l as [|y l IH]; intros s.
  - apply store_eq; simpl; try done.
    symmetry. apply filter_all. intros x _ H. by apply Exists_nil in H.
  - simpl foldl. rewrite IH. rewrite drop_offfloor_freshmen.
    unfold drop_offfloor. case_decide as Hoff.
    + apply store_eq; simpl; try done.
      rewrite list_filter_filter. apply list_filter_iff. intros x.
      rewrite Exists_cons. tauto.
    + apply store_eq; simpl; try done.
      apply list_filter_iff. intros x. rewrite Exists_cons. tauto.
Qed.

Lemma drop_loaded_offfloor s pid :
  foldl drop_offfloor s (fresh_signatures s pid)
  = set_fresh_sigs
      (filter (λ x, ¬ (fresh_packet_id x = pid ∧ offfloor (freshmen s) x))) s.
Proof.
  rewrite foldl_drop_offfloor. apply store_eq; simpl; try done.
  apply filter_ext_elem. intros x Hx.
  apply not_iff_compat. rewrite Exists_exists. split.
  - intros (sig & Hsig & Hoff & Hpid & Huser).
    apply list_elem_of_filter in Hsig as [Hsigpid _].
    split; [congruence|]. unfold offfloor in *. by rewrite Huser.
  - intros [Hpid Hoff]. exists x. split; [by apply list_elem_of_filter|].
    done.
Qed.

Lemma foldl_add_fresh l s :
  foldl (λ s sig, add_fresh sig s) s l = set_fresh_sigs (λ fs, fs ++ l) s.
Proof.
  revert s. induction l as [|x l IH]; intros s.
  - apply store_eq; simpl; try done. by rewrite app_nil_r.
  - simpl foldl. rewrite IH. apply store_eq; simpl; try done.
    by rewrite <- app_assoc.
Qed.

Lemma sync_packet_freshmen_ok csv p w :
  Forall (resolves (freshmen (session w))) (fresh_signatures (session w) p.1) →
  sync_packet_freshmen csv p w = (inr tt, with_session (packet_step csv p) w).
Proof.
  intros Hall. unfold sync_packet_freshmen.
  erewrite bind_ok; [|reflexivity].
  erewrite bind_ok; [|by apply drop_loop_ok].
  rewrite (for_each_modify _ (λ c, add_fresh _)).
  rewrite with_session_compose. f_equal. apply with_session_ext.
  rewrite drop_loaded_offfloor.
  rewrite <- (foldl_fmap (λ s sig, add_fresh sig s)).
  rewrite foldl_add_fresh. done.
Qed.

Lemma sync_packet_freshmen_raise csv p w :
  ¬ Forall (resolves (freshmen (session w))) (fresh_signatures (session w) p.1) →
  ∃ w', sync_packet_freshmen csv p w = (inl AttributeError, w') ∧
        committed w' = committed w.
Proof.
  intros Hno. unfold sync_packet_freshmen.
  erewrite bind_ok; [|reflexivity].
  destruct (drop_loop_raise _ _ Hno) as (w' & E & Hc).
  exists w'. split; [|done]. by erewrite bind_raise.
Qed.

Lemma new_fresh_sigs_packet_id csv p loaded sig :
  sig ∈ new_fresh_sigs csv p loaded → fresh_packet_id sig = p.1.
Proof. unfold new_fresh_sigs. by intros (c & -> & _)%list_elem_of_fmap. Qed.

Lemma fresh_signatures_step_other csv p s q :
  q ≠ p.1 → fresh_signatures (packet_step csv p s) q = fresh_signatures s q.
Proof.
  intros Hne. unfold fresh_signatures, packet_step. simpl.
  rewrite filter_app.
  rewrite (filter_none _ (new_fresh_sigs _ _ _)).
  - rewrite app_nil_r. apply list_filter_filter_l.
    intros x Hq [Hp _]. congruence.
  - intros x Hx Hq. apply new_fresh_sigs_packet_id in Hx. congruence.
Qed.

Lemma fresh_signatures_step_same csv p s :
  fresh_signatures (packet_step csv p s) p.1
  = filter (λ x, ¬ offfloor (freshmen s) x) (fresh_signatures s p.1)
    ++ new_fresh_sigs csv p (fresh_signatures s p.1).
Proof.
  unfold fresh_signatures, packet_step. simpl.
  rewrite filter_app. f_equal.
  - rewrite !list_filter_filter. apply list_filter_iff. intros x. tauto.
  - apply filter_all. intros x Hx. by eapply new_fresh_sigs_packet_id.
Qed.

Lemma all_resolve_step csv p s l :
  p.1 ∉ l.*1 → all_resolve (packet_step csv p s) l ↔ all_resolve s l.
Proof.
  intros Hp. unfold all_resolve. rewrite !Forall_forall.
  split; intros H q Hq.
  - specialize (H q Hq).
    rewrite fresh_signatures_step_other in H; [done|].
    intros E. apply Hp. rewrite <- E. apply list_elem_of_fmap. eauto.
  - rewrite fresh_signatures_step_other; [by apply H|].
    intros E. apply Hp. rewrite <- E. apply list_elem_of_fmap. eauto.
Qed.

Lemma packets_loop_ok csv l w :
  NoDup l.*1 → all_resolve (session w) l →
  for_each l (sync_packet_freshmen csv) w
  = (inr tt, with_session (sync_all csv l) w).
Proof.
  revert w. induction l as [|p l IH]; intros w Hnd Hall; simpl.
  - by rewrite with_session_id.
  - rewrite fmap_cons in Hnd. apply NoDup_cons in Hnd as [Hp Hnd].
    apply Forall_cons in Hall as [Hhead Hall].
    erewrite bind_ok; [|by apply sync_packet_freshmen_ok].
    rewrite IH; [done|done|]. by apply all_resolve_step.
Qed.

Lemma packets_loop_raise csv l w :
  NoDup l.*1 → ¬ all_resolve (session w) l →
  ∃ w', for_each l (sync_packet_freshmen csv) w = (inl AttributeError, w') ∧
        committed w' = committed w.
Proof.
  revert w. induction l as [|p l IH]; intros w Hnd Hno; simpl.
  - destruct Hno. constructor.
  - rewrite fmap_cons in Hnd. apply NoDup_cons in Hnd as [Hp Hnd].
    destruct (decide (Forall (resolves (freshmen (session w)))
                        (fresh_signatures (session w) p.1))) as [Hhead|Hhead].
    + erewrite bind_ok; [|by apply sync_packet_freshmen_ok].
      destruct (IH (with_session (packet_step csv p) w) Hnd) as (w' & E & Hc).
      * simpl. rewrite all_resolve_step by done. intros Hl. apply Hno.
        by apply Forall_cons.
      * by exists w'.
    + destruct (sync_packet_freshmen_raise csv p w Hhead) as (w' & E & Hc).
      exists w'. split; [|done]. by erewrite bind_raise.
Qed.

Lemma sync_all_other csv l s :
  freshmen (sync_all csv l s) = freshmen s ∧
  packets (sync_all csv l s) = packets s ∧
  upper_sigs (sync_all csv l s) = upper_sigs s ∧
  misc_sigs (sync_all csv l s) = misc_sigs s.
Proof.
  revert s. induction l as [|p l IH]; intros s; [done|].
  unfold sync_all in *. simpl.
  by destruct (IH (packet_step csv p s)) as (-> & -> & -> & ->).
Qed.

Lemma sync_all_frame csv l s q :
  q ∉ l.*1 → fresh_signatures (sync_all csv l s) q = fresh_signatures s q.
Proof.
  revert s. induction l as [|p l IH]; intros s Hq; [done|].
  rewrite fmap_cons, not_elem_of_cons in Hq. destruct Hq as [Hne Hq].
  change (sync_all csv (p :: l) s) with (sync_all csv l (packet_step csv p s)).
  rewrite IH by done. by apply fresh_signatures_step_other.
Qed.

Lemma sync_all_turn csv l s p :
  NoDup l.*1 → p ∈ l →
  fresh_signatures (sync_all csv l s) p.1
  = filter (λ x, ¬ offfloor (freshmen s) x) (fresh_signatures s p.1)
    ++ new_fresh_sigs csv p (fresh_signatures s p.1).
Proof.
  revert s. induction l as [|p0 l IH]; intros s Hnd Hin.
  - by apply elem_of_nil in Hin.
  - rewrite fmap_cons in Hnd. apply NoDup_cons in Hnd as [Hp0 Hnd].
    change (sync_all csv (p0 :: l) s) with (sync_all csv l (packet_step csv p0 s)).
    apply elem_of_cons in Hin as [->|Hin].
    + rewrite sync_all_frame by done. apply fresh_signatures_step_same.
    + rewrite IH by done.
      rewrite fresh_signatures_step_other; [done|].
      intros E. apply Hp0. rewrite <- E. apply list_elem_of_fmap. eauto.
Qed.

(** ** sync-freshmen: the whole command *)

Lemma sync_freshmen_run now rows db :
  match csv_dict rows ∅ with
  | inl e => outcome (sync_freshmen now rows) db = inl e ∧
             db_after (sync_freshmen now rows) db = db
  | inr csv =>
      match sync_freshmen_result now csv db with
      | inr s' => outcome (sync_freshmen now rows) db = inr tt ∧
                  db_after (sync_freshmen now rows) db = s'
      | inl e => outcome (sync_freshmen now rows) db = inl e ∧
                 db_after (sync_freshmen now rows) db = db
      end
  end.
Proof.
  unfold outcome, db_after, run, sync_freshmen.
  set (w0 := {| committed := db; session := db; stdout := []; files := ∅; outbox := [] |}).
  destruct (csv_dict rows ∅) as [e|csv] eqn:Ecsv.
  - destruct (parse_csv_raise _ _ w0 Ecsv) as (w' & E & _ & Hc).
    erewrite bind_raise; [|done]. done.
  - destruct (parse_csv_ok _ _ w0 Ecsv) as (w1 & E & Hs & Hc & _).
    erewrite bind_ok; [|done].
    erewrite bind_ok; [|reflexivity].
    erewrite bind_ok; [|apply (for_each_modify _ (λ c, set_freshmen (upsert_freshman c)))].
    erewrite bind_ok; [|reflexivity].
    erewrite bind_ok; [|reflexivity].
    set (w2 := with_session (set_freshmen (mark_departed csv)) _).
    set (s1 := set_freshmen (synced_freshmen csv) db).
    assert (Hw2 : session w2 = s1).
    { subst w2. simpl. rewrite Hs. simpl. by rewrite foldl_set_freshmen. }
    assert (Hc2 : committed w2 = db) by (subst w2; simpl; by rewrite Hc).
    clearbody w2. rewrite Hw2.
    unfold sync_freshmen_result. fold s1.
    case_decide as Hres.
    + erewrite bind_ok; [|apply packets_loop_ok].
      * simpl. by rewrite Hw2.
      * apply NoDup_open_or_future_packets.
      * by rewrite Hw2.
    + destruct (packets_loop_raise csv (open_or_future_packets now s1) w2)
        as (w' & E' & Hc').
      * apply NoDup_open_or_future_packets.
      * by rewrite Hw2.
      * erewrite bind_raise; [|done]. simpl. by rewrite Hc', Hc2.
Qed.

Lemma has_fresh_loaded s pid u :
  has_fresh s pid u ↔ u ∈ fresh_freshman_username <$> fresh_signatures s pid.
Proof.
  unfold has_fresh, fresh_signatures, fresh_matches.
  rewrite list_elem_of_fmap. split.
  - intros (sig & Hin & Hpid & Hu). exists sig. split; [done|].
    by apply list_elem_of_filter.
  - intros (sig & -> & Hin). apply list_elem_of_filter in Hin as [? ?].
    by exists sig.
Qed.

(** The signatures of a packet after its turn, for a freshly synced
    Freshman table. *)
Section after_turn.
Context (csv : gmap string CSVFreshman) (F : gmap string Freshman).
Context (p : Z * Packet) (loaded : list FreshSignature).
Hypothesis Hkey : keyed_by_username csv.
Hypothesis Hres : Forall (resolves (synced_freshmen csv F)) loaded.

Lemma synced_onfloor_csv u f :
  synced_freshmen csv F !! u = Some f → onfloor f = true →
  ∃ c, csv !! u = Some c ∧ csv_onfloor c = true.
Proof.
  rewrite synced_freshmen_lookup by done.
  destruct (csv !! u) as [c|]; [intros [= <-] ?; by exists c|].
  destruct (F !! u); [|done]. intros [= <-]. done.
Qed.

Lemma csv_onfloor_synced c :
  c ∈ values csv → csv_onfloor c = true →
  ∃ f, synced_freshmen csv F !! rit_username c = Some f ∧ onfloor f = true.
Proof.
  intros Hc Hon. apply elem_of_values in Hc; [|done].
  exists (freshman_of_csv c).
  by rewrite synced_freshmen_lookup, Hc.
Qed.

Lemma after_turn_onfloor x :
  x ∈ after_turn csv F p loaded → ∃ f, synced_freshmen csv F !! fresh_freshman_username x = Some f ∧ onfloor f = true.
Proof.
  unfold after_turn. rewrite elem_of_app. intros [Hx|Hx].
  - apply list_elem_of_filter in Hx as [Hoff Hx].
    rewrite Forall_forall in Hres. destruct (Hres _ Hx) as [f Ef].
    exists f. split; [done|].
    destruct (onfloor f) eqn:Eo; [done|].
    exfalso. apply Hoff. unfold offfloor. rewrite Ef. simpl. by rewrite Eo.
  - unfold new_fresh_sigs in Hx.
    apply list_elem_of_fmap in Hx as (c & -> & Hc).
    apply list_elem_of_filter in Hc as [(_ & Hon & _) Hc]. simpl.
    by apply csv_onfloor_synced.
Qed.

Lemma after_turn_not_owner x :
  x ∈ after_turn csv F p loaded →
  fresh_freshman_username x ∈ fresh_freshman_username <$> loaded ∨
  fresh_freshman_username x ≠ freshman_username p.2.
Proof.
  unfold after_turn. rewrite elem_of_app. intros [Hx|Hx].
  - apply list_elem_of_filter in Hx as [_ Hx]. left.
    apply list_elem_of_fmap. eauto.
  - unfold new_fresh_sigs in Hx.
    apply list_elem_of_fmap in Hx as (c & -> & Hc).
    apply list_elem_of_filter in Hc as [(_ & _ & Hne) Hc]. by right.
Qed.

Lemma after_turn_complete c :
  c ∈ values csv → csv_onfloor c = true →
  rit_username c ≠ freshman_username p.2 ∨
  rit_username c ∈ fresh_freshman_username <$> loaded →
  rit_username c ∈ fresh_freshman_username <$> after_turn csv F p loaded.
Proof.
  intros Hc Hon Hne. unfold after_turn. rewrite fmap_app, elem_of_app.
  destruct (decide (rit_username c ∈ fresh_freshman_username <$> loaded))
    as [Hin|Hnin].
  - left. apply list_elem_of_fmap in Hin as (x & E & Hx).
    apply list_elem_of_fmap. exists x. split; [done|].
    apply list_elem_of_filter. split; [|done].
    destruct (csv_onfloor_synced c Hc Hon) as (f & Ef & Eo).
    unfold offfloor. rewrite <- E, Ef. simpl. by rewrite Eo.
  - right. unfold new_fresh_sigs. rewrite <- list_fmap_compose.
    apply list_elem_of_fmap. exists c. split; [done|].
    apply list_elem_of_filter. by destruct Hne.
Qed.
(** Reading [packet.fresh_signatures] afresh after the deletes, instead of
    the loaded collection, selects the same roster entries. *)
Lemma new_fresh_sigs_reload :
  new_fresh_sigs csv p (filter (λ x, ¬ offfloor (synced_freshmen csv F) x) loaded)
  = new_fresh_sigs csv p loaded.
Proof.
  unfold new_fresh_sigs. f_equal. apply filter_ext_elem. intros c Hc.
  split; intros (Hnin & Hon & Hne); (split; [|done]); intros Hin; apply Hnin.
  - apply list_elem_of_fmap in Hin as (x & E & Hx).
    apply list_elem_of_fmap. exists x. split; [done|].
    apply list_elem_of_filter. split; [|done].
    destruct (csv_onfloor_synced c Hc Hon) as (f & Ef & Eo).
    unfold offfloor. rewrite <- E, Ef. simpl. by rewrite Eo.
  - apply list_elem_of_fmap in Hin as (x & E & Hx).
    apply list_elem_of_fmap. exists x. split; [done|].
    by apply list_elem_of_filter in Hx as [_ ?].
Qed.
End after_turn.

Lemma sync_freshmen_success now rows db :
  outcome (sync_freshmen now rows) db = inr tt →
  ∃ csv, csv_dict rows ∅ = inr csv ∧ keyed_by_username csv ∧
         all_resolve (set_freshmen (synced_freshmen csv) db)
           (open_or_future_packets now db) ∧
         db_after (sync_freshmen now rows) db
         = sync_all csv (open_or_future_packets now db)
             (set_freshmen (synced_freshmen csv) db).
Proof.
  intros Hok. pose proof (sync_freshmen_run now rows db) as Hrun.
  destruct (csv_dict rows ∅) as [e|csv] eqn:Ecsv.
  { destruct Hrun as [Hrun _]. congruence. }
  exists csv. split; [done|]. split.
  { eapply csv_dict_keyed; [done|]. intros k c. by rewrite lookup_empty. }
  unfold sync_freshmen_result in Hrun.
  change (open_or_future_packets now (set_freshmen (synced_freshmen csv) db))
    with (open_or_future_packets now db) in Hrun.
  case_decide as Hres; destruct Hrun as [Ho Hdb]; [done|congruence].
Qed.

Lemma sync_freshmen_failure now rows db :
  outcome (sync_freshmen now rows) db ≠ inr tt →
  db_after (sync_freshmen now rows) db = db.
Proof.
  intros Hno. pose proof (sync_freshmen_run now rows db) as Hrun.
  destruct (csv_dict rows ∅) as [e|csv]; [by destruct Hrun|].
  destruct (sync_freshmen_result now csv db); by destruct Hrun.
Qed.

(** The command ends normally when every roster row has its four columns
    and every FreshSignature has its Freshman on record. *)
Lemma sync_freshmen_completes now rows db :
  Forall (λ row, (4 ≤ length row)%nat) rows →
  (∀ sig, sig ∈ fresh_sigs db → resolves (freshmen db) sig) →
  outcome (sync_freshmen now rows) db = inr tt.
Proof.
  intros Hrows Hfk. rewrite Forall_forall in Hrows.
  destruct (csv_dict_total rows ∅ Hrows) as [csv Ecsv].
  pose proof (sync_freshmen_run now rows db) as Hrun.
  rewrite Ecsv in Hrun. unfold sync_freshmen_result in Hrun.
  rewrite decide_True in Hrun; [by destruct Hrun|].
  assert (Hkey : keyed_by_username csv).
  { eapply csv_dict_keyed; [done|]. intros k c. by rewrite lookup_empty. }
  unfold all_resolve. apply Forall_forall. intros p _.
  apply Forall_forall. intros sig Hin.
  apply list_elem_of_filter in Hin as [_ Hin].
  destruct (Hfk sig Hin) as [f Ef]. unfold resolves. simpl.
  rewrite synced_freshmen_lookup by done.
  destruct (csv !! fresh_freshman_username sig); [done|]. by rewrite Ef.
Qed.

(** C3: after a run of sync-freshmen that ends normally, on every packet
    whose end is in the future, the freshmen with a FreshSignature on the
    packet are the on-floor freshmen, the owner counted only if the owner
    had a FreshSignature on the packet before the run.  The data model has
    none for the owner: then they are the on-floor freshmen other than the
    owner. *)
Theorem sync_freshmen_fresh_signatures now rows (db : Store) pid packet :
  outcome (sync_freshmen now rows) db = inr tt →
  let db' := db_after (sync_freshmen now rows) db in
  packets db' !! pid = Some packet →
  dt_ltb now (end_ packet) = true →
  (∀ u, has_fresh db' pid u
        ↔ is_onfloor db' u ∧ (u ≠ freshman_username packet ∨ has_fresh db pid u)) ∧
  (¬ has_fresh db pid (freshman_username packet) →
   ∀ u, has_fresh db' pid u ↔ is_onfloor db' u ∧ u ≠ freshman_username packet).
Proof.
  intros Hok db' Hp Hopen.
  assert (Hexact : ∀ u, has_fresh db' pid u
            ↔ is_onfloor db' u ∧ (u ≠ freshman_username packet ∨ has_fresh db pid u)).
  { intros u.
    destruct (sync_freshmen_success _ _ _ Hok) as (csv & Ecsv & Hkey & Hres & Hdb).
    subst db'. rewrite Hdb in *.
    set (s1 := set_freshmen (synced_freshmen csv) db) in *.
    set (l := open_or_future_packets now db) in *.
    destruct (sync_all_other csv l s1) as (HF & HP & _ & _).
    rewrite HP in Hp. simpl in Hp.
    assert (Hin : (pid, packet) ∈ l) by by apply elem_of_open_or_future_packets.
    assert (Hres_p : Forall (resolves (synced_freshmen csv (freshmen db)))
                       (fresh_signatures db pid)).
    { unfold all_resolve in Hres. rewrite Forall_forall in Hres.
      apply (Hres _ Hin). }
    rewrite !has_fresh_loaded.
    pose proof (sync_all_turn csv l s1 (pid, packet)
                  (NoDup_open_or_future_packets now db) Hin) as Hturn.
    change ((pid, packet).1) with pid in Hturn. rewrite Hturn.
    change (fresh_signatures s1 pid) with (fresh_signatures db pid).
    change (freshmen s1) with (synced_freshmen csv (freshmen db)).
    unfold is_onfloor. rewrite HF.
    change (freshmen s1) with (synced_freshmen csv (freshmen db)).
    split.
    - intros (x & -> & Hx)%list_elem_of_fmap. split.
      + by eapply after_turn_onfloor.
      + destruct (after_turn_not_owner csv (freshmen db) (pid, packet) _ x Hx);
          auto.
    - intros [(f & Ef & Eo) Hne].
      destruct (synced_onfloor_csv csv (freshmen db) Hkey u f Ef Eo) as (c & Ec & Hon).
      assert (Hu := Hkey _ _ Ec). subst u.
      apply after_turn_complete; try done.
      by apply elem_of_values. }
  split; [exact Hexact|].
  intros Hself u. rewrite Hexact. split.
  - intros [Hon [Hne|Hhad]]; [done|]. split; [done|]. by intros ->.
  - intros [Hon Hne]. auto.
Qed.

Lemma packet_step_fixed csv p s :
  (∀ x, x ∈ fresh_signatures s p.1 → ¬ offfloor (freshmen s) x) →
  new_fresh_sigs csv p (fresh_signatures s p.1) = [] →
  packet_step csv p s = s.
Proof.
  intros Hon Hnew. unfold packet_step. rewrite Hnew.
  apply store_eq; simpl; try done.
  rewrite app_nil_r. apply filter_all. intros x Hx [Hpid Hoff].
  apply (Hon x); [|done]. by apply list_elem_of_filter.
Qed.

Lemma dt_leb_refl a : dt_leb a a = true.
Proof.
  unfold dt_leb. destruct (dt_ltb a a) eqn:E; [|done].
  pose proof (dt_ltb_asym _ _ E). congruence.
Qed.

(** A second run after a run that ended normally, at the same time or
    later, ends normally and commits the store it found. *)
Lemma sync_freshmen_again now1 now2 rows db :
  dt_leb now1 now2 = true →
  outcome (sync_freshmen now1 rows) db = inr tt →
  let db1 := db_after (sync_freshmen now1 rows) db in
  outcome (sync_freshmen now2 rows) db1 = inr tt ∧
  db_after (sync_freshmen now2 rows) db1 = db1.
Proof.
  intros Hlater Hok db1.
  destruct (sync_freshmen_success _ _ _ Hok) as (csv & Ecsv & Hkey & Hres & Hdb).
  fold db1 in Hdb.
  set (s1 := set_freshmen (synced_freshmen csv) db) in *.
  set (l1 := open_or_future_packets now1 db) in *.
  destruct (sync_all_other csv l1 s1) as (HF & HP & HU & HM).
  rewrite <- Hdb in HF, HP, HU, HM.
  change (freshmen s1) with (synced_freshmen csv (freshmen db)) in HF.
  assert (Hs1' : set_freshmen (synced_freshmen csv) db1 = db1).
  { apply store_eq; simpl; try done.
    rewrite HF. by apply synced_freshmen_idem. }
  assert (Hturn : ∀ p, p ∈ open_or_future_packets now2 db1 →
            fresh_signatures db1 p.1
            = filter (λ x, ¬ offfloor (synced_freshmen csv (freshmen db)) x)
                     (fresh_signatures db p.1)
              ++ new_fresh_sigs csv p (fresh_signatures db p.1) ∧
            Forall (resolves (synced_freshmen csv (freshmen db)))
                   (fresh_signatures db p.1)).
  { intros [pid packet] Hin.
    apply elem_of_open_or_future_packets in Hin as [Hp Hopen].
    rewrite HP in Hp.
    assert (Hin1 : (pid, packet) ∈ l1).
    { apply elem_of_open_or_future_packets. split; [done|].
      by eapply dt_leb_ltb_trans. }
    split.
    - rewrite Hdb. apply (sync_all_turn csv l1 s1 (pid, packet));
        [apply NoDup_open_or_future_packets|done].
    - unfold all_resolve in Hres. rewrite Forall_forall in Hres.
      apply (Hres _ Hin1). }
  pose proof (sync_freshmen_run now2 rows db1) as Hrun.
  rewrite Ecsv in Hrun. unfold sync_freshmen_result in Hrun.
  rewrite Hs1' in Hrun.
  assert (Hres2 : all_resolve db1 (open_or_future_packets now2 db1)).
  { unfold all_resolve. apply Forall_forall. intros p Hin.
    destruct (Hturn p Hin) as [-> Hres_p]. rewrite HF.
    apply Forall_forall. intros x Hx.
    destruct (after_turn_onfloor csv (freshmen db) p _ Hkey Hres_p x Hx) as (f & Ef & _).
    unfold resolves. by rewrite Ef. }
  rewrite decide_True in Hrun by done.
  destruct Hrun as [Ho Hdb2]. split; [done|]. rewrite Hdb2.
  apply foldl_fixed. intros p Hin.
  destruct (Hturn p Hin) as [Eafter Hres_p].
  apply packet_step_fixed.
  - rewrite Eafter, HF. intros x Hx.
    destruct (after_turn_onfloor csv (freshmen db) p _ Hkey Hres_p x Hx) as (f & Ef & Eo).
    unfold offfloor. rewrite Ef. simpl. by rewrite Eo.
  - unfold new_fresh_sigs. rewrite filter_none; [done|].
    intros c Hc (Hnin & Hon & Hne). apply Hnin. rewrite Eafter.
    apply after_turn_complete; auto.
Qed.

(** C4: sync-freshmen is idempotent.  After a run that ended normally, a
    second run with the same roster, at the same time or later, ends
    normally and commits the very store the first run left; and at one and
    the same clock reading two runs leave what one run leaves, from every
    store and for every roster, also when the run raises. *)
Theorem sync_freshmen_idempotent now1 now2 rows (db : Store) :
  dt_leb now1 now2 = true →
  let db1 := db_after (sync_freshmen now1 rows) db in
  (outcome (sync_freshmen now1 rows) db = inr tt →
   outcome (sync_freshmen now2 rows) db1 = inr tt ∧
   db_after (sync_freshmen now2 rows) db1 = db1 ∧
   freshmen (db_after (sync_freshmen now2 rows) db1) = freshmen db1 ∧
   fresh_sigs (db_after (sync_freshmen now2 rows) db1) = fresh_sigs db1) ∧
  db_after (sync_freshmen now1 rows) db1 = db1.
Proof.
  intros Hlater db1. split.
  - intros Hok.
    destruct (sync_freshmen_again now1 now2 rows db Hlater Hok) as [Ho Hdb].
    fold db1 in Ho, Hdb. by rewrite Hdb.
  - destruct (outcome (sync_freshmen now1 rows) db) as [e|[]] eqn:Eo.
    + assert (Hdb : db1 = db).
      { apply sync_freshmen_failure. by rewrite Eo. }
      rewrite Hdb. apply sync_freshmen_failure. by rewrite Eo.
    + by apply (sync_freshmen_again now1 now1 rows db (dt_leb_refl now1) Eo).
Qed.

(** * The commands on the example season *)

(** Zed, who has signed packet 1, is not in the directory: after the sync
    Zed has exactly one of the two kinds of signature. *)
Lemma ldap_sync_exactly_one_witness :
  packets ex_db !! 1 = Some ex_packet ∧
  dt_ltb ex_now (end_ ex_packet) = true ∧
  exactly_one
    (has_upper (db_after (ldap_sync ex_now ex_ldap_without_zed) ex_db) 1 "zed")
    (has_misc (db_after (ldap_sync ex_now ex_ldap_without_zed) ex_db) 1 "zed").
Proof.
  split; [reflexivity|]. split; [reflexivity|].
  destruct (ldap_sync_exactly_one ex_now ex_ldap_without_zed ex_db 1 ex_packet
              eq_refl eq_refl) as (_ & _ & H).
  apply H. right. left. apply (bool_decide_unpack _). vm_compute. exact I.
Defined.

(** Zed leaves the directory and returns: Zed's signature is signed again. *)
Lemma ldap_sync_round_trip_signed_witness :
  has_signed_upper ex_db 1 "zed" ∧
  ¬ is_active_upper ex_ldap_without_zed "zed" ∧
  is_active_upper ex_ldap_with_zed "zed" ∧
  (∀ sig,
     sig ∈ upper_sigs (db_after (ldap_sync ex_later ex_ldap_with_zed)
                         (db_after (ldap_sync ex_now ex_ldap_without_zed) ex_db)) →
     upper_matches 1 "zed" sig → upper_signed sig = true).
Proof.
  assert (H1 : has_signed_upper ex_db 1 "zed")
    by (apply (bool_decide_unpack _); vm_compute; exact I).
  assert (H2 : ¬ is_active_upper ex_ldap_without_zed "zed")
    by (apply (bool_decide_unpack _); vm_compute; exact I).
  assert (H3 : is_active_upper ex_ldap_with_zed "zed")
    by (apply (bool_decide_unpack _); vm_compute; exact I).
  split; [exact H1|]. split; [exact H2|]. split; [exact H3|].
  apply (ldap_sync_round_trip_signed ex_now ex_later ex_ldap_without_zed
           ex_ldap_with_zed ex_db 1 ex_packet "zed" eq_refl eq_refl eq_refl H1 H2 H3).
Defined.

(** The roster synced into the example season. *)
Lemma sync_freshmen_fresh_signatures_witness :
  outcome (sync_freshmen ex_now ex_roster) ex_db = inr tt ∧
  ¬ has_fresh ex_db 1 (freshman_username ex_packet) ∧
  (∀ u, has_fresh (db_after (sync_freshmen ex_now ex_roster) ex_db) 1 u
        ↔ is_onfloor (db_after (sync_freshmen ex_now ex_roster) ex_db) u ∧
          u ≠ freshman_username ex_packet).
Proof.
  assert (H1 : outcome (sync_freshmen ex_now ex_roster) ex_db = inr tt)
    by (vm_compute; reflexivity).
  assert (H2 : ¬ has_fresh ex_db 1 (freshman_username ex_packet))
    by (apply (bool_decide_unpack _); vm_compute; exact I).
  split; [exact H1|]. split; [exact H2|].
  assert (H3 : packets (db_after (sync_freshmen ex_now ex_roster) ex_db) !! 1
               = Some ex_packet) by (vm_compute; reflexivity).
  destruct (sync_freshmen_fresh_signatures ex_now ex_roster ex_db 1 ex_packet
              H1 H3 eq_refl) as [_ H].
  exact (H H2).
Defined.

(** The roster synced twice, the second time a day later. *)
Lemma sync_freshmen_idempotent_witness :
  dt_leb ex_now ex_later = true ∧
  outcome (sync_freshmen ex_now ex_roster) ex_db = inr tt ∧
  db_after (sync_freshmen ex_later ex_roster)
    (db_after (sync_freshmen ex_now ex_roster) ex_db)
  = db_after (sync_freshmen ex_now ex_roster) ex_db.
Proof.
  assert (H1 : outcome (sync_freshmen ex_now ex_roster) ex_db = inr tt)
    by (vm_compute; reflexivity).
  split; [reflexivity|]. split; [exact H1|].
  destruct (sync_freshmen_idempotent ex_now ex_later ex_roster ex_db eq_refl)
    as [H _].
  apply (H H1).
Defined.

(** The three cases: Zed has an UpperSignature, the former member one
    MiscSignature, and nobody has none. *)
Lemma remove_member_sig_cases_witness :
  is_open ex_now ex_packet = true ∧
  (db_after (remove_member_sig ex_now 1 "zed") ex_db
   = set_upper_sigs (λ _, [unsigned_upper (new_upper 1 "zed" true);
                           new_upper 1 "amy" false]) ex_db ∧
   printed (remove_member_sig ex_now 1 "zed") ex_db
   = ["Successfully unsigned packet"]) ∧
  (db_after (remove_member_sig ex_now 1 "old") ex_db = delete_misc 1 "old" ex_db ∧
   printed (remove_member_sig ex_now 1 "old") ex_db
   = ["Successfully unsigned packet"]) ∧
  (db_after (remove_member_sig ex_now 1 "nobody") ex_db = ex_db ∧
   printed (remove_member_sig ex_now 1 "nobody") ex_db
   = ["Failed to unsign packet; could not find signature"]).
Proof.
  split; [reflexivity|]. split; [|split].
  - destruct (remove_member_sig_cases ex_now 1 "zed" ex_db ex_packet
                eq_refl eq_refl) as (_ & H & _).
    apply (H [] (new_upper 1 "zed" true) [new_upper 1 "amy" false]);
      [reflexivity | intros sig Hin; by apply elem_of_nil in Hin | by split].
  - destruct (remove_member_sig_cases ex_now 1 "old" ex_db ex_packet
                eq_refl eq_refl) as (_ & _ & H & _).
    apply H; [apply (bool_decide_unpack _); vm_compute; exact I | reflexivity].
  - destruct (remove_member_sig_cases ex_now 1 "nobody" ex_db ex_packet
                eq_refl eq_refl) as (_ & _ & _ & H).
    apply H; [apply (bool_decide_unpack _); vm_compute; exact I
             | vm_compute; discriminate].
Defined.

(** Packet 1 after its end. *)
Lemma extend_packet_closed_witness :
  dt_ltb (end_ ex_packet) ex_after = true ∧
  db_after (extend_packet ex_after 1 738030) ex_db = ex_db ∧
  printed (extend_packet ex_after 1 738030) ex_db
  = ["Packet is already closed so it cannot be extended"].
Proof.
  split; [reflexivity|].
  apply (extend_packet_closed ex_after 1 738030 ex_db ex_packet eq_refl eq_refl).
Defined.

(** Dan has no signature on packet 1. *)
Lemma remove_freshman_sig_absent_witness :
  is_open ex_now ex_packet = true ∧
  ¬ has_fresh ex_db 1 "dan1" ∧
  db_after (remove_freshman_sig ex_now 1 "dan1") ex_db = ex_db ∧
  printed (remove_freshman_sig ex_now 1 "dan1") ex_db
  = ["Failed to unsign packet; dan1 is not an onfloor"].
Proof.
  assert (H : ¬ has_fresh ex_db 1 "dan1")
    by (apply (bool_decide_unpack _); vm_compute; exact I).
  split; [reflexivity|]. split; [exact H|].
  apply (remove_freshman_sig_absent ex_now 1 "dan1" ex_db ex_packet eq_refl eq_refl H).
Defined.

(** A packet without signature rows requires nothing. *)
Lemma fetch_results_zero_division_witness :
  member_total (ex_required ex_db_unsigned (1, ex_packet)) = 0 ∧
  outcome (fetch_results ex_received ex_required ex_format_score ex_csv_line
             (Some "results.csv") true 738014) ex_db_unsigned
  = inl ZeroDivisionError.
Proof.
  split; [reflexivity|].
  apply (fetch_results_zero_division ex_received ex_required ex_format_score
           ex_csv_line (Some "results.csv") true 738014 ex_db_unsigned 1 ex_packet);
    [apply (bool_decide_unpack _); vm_compute; exact I
    | reflexivity | reflexivity | left; reflexivity].
Defined.

(** The roster that names alice1 twice: the third row wins. *)
Lemma parse_csv_last_row_wins_witness :
  ∃ d, outcome (parse_csv ex_roster_twice) ex_empty_db = inr d ∧
       d !! "alice1"
       = Some {| csv_name := "Alice"; rit_username := "alice1"; csv_onfloor := true |} ∧
       length (filter (λ f, rit_username f = "alice1") (values d)) = 1%nat.
Proof.
  apply (parse_csv_last_row_wins
           [ ["Al"; "FALSE"; "x"; "alice1"]; ["Bob"; "TRUE"; "x"; "bob1"] ] []
           ["Alice"; "TRUE"; "x"; " alice1 "] "Alice" "TRUE" " alice1 " ex_empty_db);
    [ apply (bool_decide_unpack _); vm_compute; exact I
    | reflexivity | reflexivity | reflexivity
    | constructor ].
Defined.

(** A season starting on day 738000: Alice's packet. *)
Lemma create_packets_timestamps_witness :
  packets ex_db_roster !! 1 = None ∧
  packets (db_after (create_packets "Y" 738000 ex_ldap_with_zed ex_roster)
             ex_db_roster) !! 1 = Some ex_packet ∧
  start ex_packet = combine 738000 packet_start_time ∧
  end_ ex_packet = combine (738000 + 14) packet_end_time ∧
  dt_time (start ex_packet) = time_of_hour 19 ∧
  dt_time (end_ ex_packet) = time_of_hour 21.
Proof.
  assert (H : packets (db_after (create_packets "Y" 738000 ex_ldap_with_zed ex_roster)
                         ex_db_roster) !! 1 = Some ex_packet)
    by (vm_compute; reflexivity).
  split; [reflexivity|]. split; [exact H|].
  apply (create_packets_timestamps "Y" 738000 ex_ldap_with_zed ex_roster
           ex_db_roster 1 ex_packet eq_refl H).
Defined.

(** C7, as stated, fails: the packet create-packets adds for Alice ends at
    the cutoff time, which is not the start-of-evening time its start
    carries. *)
Lemma create_packets_end_time_counterexample :
  packets ex_db_roster !! 1 = None ∧
  packets (db_after (create_packets "Y" 738000 ex_ldap_with_zed ex_roster)
             ex_db_roster) !! 1 = Some ex_packet ∧
  end_ ex_packet = combine (738000 + 14) packet_end_time ∧
  dt_time (start ex_packet) = packet_start_time ∧
  dt_time (end_ ex_packet) ≠ packet_start_time.
Proof.
  split; [reflexivity|]. split; [vm_compute; reflexivity|].
  split; [reflexivity|]. split; [reflexivity|]. discriminate.
Qed.

(** ** The model on concrete inputs *)

Example strip_example :
  strip (String (Ascii.ascii_of_nat 9) "  alice1 " +:+ nl) = "alice1".
Proof. reflexivity. Qed.

Example lower_example : lower "Y" = "y" ∧ lower "yes" ≠ "y".
Proof. split; [reflexivity|discriminate]. Qed.

Example add_days_overflow_example :
  add_days (combine MAXORDINAL packet_end_time) 14 = inl OverflowError.
Proof. reflexivity. Qed.

(** The example of Section 8: two roster rows into an empty store. *)
Example sync_freshmen_empty_store_example :
  freshmen (db_after (sync_freshmen ex_now
                        [ ["Alice"; "TRUE"; "x"; "alice1"];
                          ["Bob"; "FALSE"; "x"; "bob1"] ]) ex_empty_db)
  = list_to_map [ ("alice1", mk_Freshman "Alice" true);
                  ("bob1", mk_Freshman "Bob" false) ].
Proof. vm_compute. reflexivity. Qed.

(** Bob and Carol are off floor after the sync and lose their signatures
    on Alice's packet; Dan is new on floor and gets one. *)
Example sync_freshmen_example :
  fresh_sigs (db_after (sync_freshmen ex_now ex_roster) ex_db)
  = [ mk_FreshSignature 1 "dan1" false ] ∧
  printed (sync_freshmen ex_now ex_roster) ex_db
  = [ "Parsing file..."; "Syncing contents with the DB..."; "Done!" ].
Proof. split; vm_compute; reflexivity. Qed.

(** A short row ends parsing, and the command, before anything is stored. *)
Example sync_freshmen_short_row_example :
  outcome (sync_freshmen ex_now [ ["Alice"; "TRUE"; "x"] ]) ex_db = inl IndexError ∧
  db_after (sync_freshmen ex_now [ ["Alice"; "TRUE"; "x"] ]) ex_db = ex_db ∧
  printed (sync_freshmen ex_now [ ["Alice"; "TRUE"; "x"] ]) ex_db
  = [ "Parsing file..."; "Failure while parsing CSV" ].
Proof. repeat split; vm_compute; reflexivity. Qed.

(** A signature whose Freshman is not on record ends the command with
    nothing committed. *)
Example sync_freshmen_dangling_example :
  let db := add_fresh (mk_FreshSignature 1 "ghost" false) ex_db in
  outcome (sync_freshmen ex_now ex_roster) db = inl AttributeError ∧
  db_after (sync_freshmen ex_now ex_roster) db = db.
Proof. split; vm_compute; reflexivity. Qed.

(** The sync does not remove a signature of an on-floor owner: outside the
    data model, with Alice's own signature on her packet, it stays. *)
Example sync_freshmen_owner_signature_example :
  let db := add_fresh (mk_FreshSignature 1 "alice1" false) ex_db in
  ¬ consistent db ∧
  has_fresh (db_after (sync_freshmen ex_now ex_roster) db) 1 "alice1".
Proof.
  split.
  - intros [_ Hself]. apply (Hself 1 ex_packet); [reflexivity|].
    apply (bool_decide_unpack _). vm_compute. exact I.
  - apply (bool_decide_unpack _). vm_compute. exact I.
Qed.

(** Zed leaves the directory, then returns. *)
Example ldap_sync_example :
  let db1 := db_after (ldap_sync ex_now ex_ldap_without_zed) ex_db in
  let db2 := db_after (ldap_sync ex_later ex_ldap_with_zed) db1 in
  upper_member <$> upper_sigs db1 = ["amy"] ∧
  misc_member <$> misc_sigs db1 = ["old"; "zed"] ∧
  (λ sig, (upper_member sig, upper_signed sig)) <$> upper_sigs db2
  = [("amy", false); ("zed", true)] ∧
  misc_member <$> misc_sigs db2 = ["old"].
Proof. repeat split; vm_compute; reflexivity. Qed.

(** Answering anything but y or Y creates nothing. *)
Example create_packets_declined_example :
  db_after (create_packets "n" 738000 ex_ldap_with_zed ex_roster) ex_db_roster
  = ex_db_roster ∧
  outbox (snd (run (create_packets "n" 738000 ex_ldap_with_zed ex_roster)
                   ex_db_roster)) = [].
Proof. split; vm_compute; reflexivity. Qed.

(** One packet per freshman of the roster; Bob is off floor and signs
    nobody's packet. *)
Example create_packets_example :
  let db := db_after (create_packets "y" 738000 ex_ldap_with_zed ex_roster)
                     ex_db_roster in
  (λ p : Z * Packet, (p.1, freshman_username p.2)) <$> map_to_list (packets db)
  ≡ₚ [ (1, "alice1"); (2, "bob1"); (3, "dan1") ] ∧
  (λ sig, (fresh_packet_id sig, fresh_freshman_username sig)) <$> fresh_sigs db
  = [ (1, "dan1"); (2, "alice1"); (2, "dan1"); (3, "alice1") ] ∧
  length (upper_sigs db) = 6%nat.
Proof.
  split; [|split]; [|vm_compute; reflexivity..].
  apply (bool_decide_unpack _). vm_compute. exact I.
Qed.

(** Two MiscSignatures of one member: the bulk delete matches two rows, so
    nothing is committed. *)
Example remove_member_sig_two_misc_example :
  let db := add_misc (mk_MiscSignature 1 "old") ex_db in
  db_after (remove_member_sig ex_now 1 "old") db = db ∧
  printed (remove_member_sig ex_now 1 "old") db
  = [ "Failed to unsign packet; could not find signature" ].
Proof. split; vm_compute; reflexivity. Qed.

Example remove_freshman_sig_example :
  fresh_sigs (db_after (remove_freshman_sig ex_now 1 "bob1") ex_db)
  = [ mk_FreshSignature 1 "bob1" false; mk_FreshSignature 1 "carol1" false ].
Proof. vm_compute. reflexivity. Qed.

Example extend_packet_open_example :
  end_ <$> packets (db_after (extend_packet ex_now 1 738030) ex_db) !! 1
  = Some (combine 738030 packet_end_time) ∧
  printed (extend_packet ex_now 1 738030) ex_db
  = [ "Ready to extend packet #1 for alice1"; "Packet successfully extended" ].
Proof. split; vm_compute; reflexivity. Qed.

(** No packet with the id: the method call on [None] raises. *)
Example extend_packet_missing_example :
  outcome (extend_packet ex_now 7 738030) ex_db = inl AttributeError.
Proof. reflexivity. Qed.

(** The report of the example season: one of two upperclassmen and one of
    two freshmen have signed. *)
Example fetch_results_example :
  printed (fetch_results ex_received ex_required ex_format_score ex_csv_line
             None true 738014) ex_db
  = [ "Name (RIT Username),Upperclassmen Score,Total Score,Upperclassmen,Freshmen,Miscellaneous,Total Missed,";
      "Alice (alice1):,50.00%,50.00%,1/2,1/2,0/0,2," ].
Proof. vm_compute. reflexivity. Qed.

(** * The commands keep the data model of freshman signatures *)

(** ** Store edits that keep the data model *)

Lemma consistent_transfer s s' :
  (∀ pid, freshman_username <$> packets s' !! pid
          = freshman_username <$> packets s !! pid) →
  (∀ sig', sig' ∈ fresh_sigs s' →
     ∃ sig, sig ∈ fresh_sigs s ∧
            fresh_packet_id sig = fresh_packet_id sig' ∧
            fresh_freshman_username sig = fresh_freshman_username sig') →
  consistent s → consistent s'.
Proof.
  intros Hown Hsub [Hfk Hself]. split.
  - intros sig' Hin'. destruct (Hsub _ Hin') as (sig & Hin & Hpid & _).
    rewrite <- Hpid. apply fmap_is_Some with (f := freshman_username).
    rewrite Hown. apply fmap_is_Some. by apply Hfk.
  - intros pid packet Hp (sig' & Hin' & Hpid' & Hu').
    destruct (Hsub _ Hin') as (sig & Hin & Hpid & Hu).
    specialize (Hown pid). rewrite Hp in Hown. simpl in Hown.
    destruct (packets s !! pid) as [packet0|] eqn:Ep0; [|done].
    injection Hown as Hown.
    apply (Hself pid packet0 Ep0). exists sig. split; [done|].
    split; congruence.
Qed.

Lemma consistent_same_fresh s s' :
  packets s' = packets s → fresh_sigs s' = fresh_sigs s →
  consistent s → consistent s'.
Proof.
  intros Hp Hf. apply consistent_transfer.
  - intros pid. by rewrite Hp.
  - intros sig Hin. rewrite Hf in Hin. by exists sig.
Qed.

Lemma consistent_delete_fresh pid u s :
  consistent s → consistent (delete_fresh pid u s).
Proof.
  apply consistent_transfer; [done|].
  intros sig Hin. simpl in Hin. apply list_elem_of_filter in Hin as [_ Hin].
  by exists sig.
Qed.

Lemma consistent_add_fresh pid packet u b s :
  packets s !! pid = Some packet → u ≠ freshman_username packet →
  consistent s → consistent (add_fresh (mk_FreshSignature pid u b) s).
Proof.
  intros Hp Hne [Hfk Hself]. split.
  - intros sig Hin. simpl in Hin.
    apply elem_of_app in Hin as [Hin|Hin]; [by apply Hfk|].
    apply list_elem_of_singleton in Hin as ->. simpl. by rewrite Hp.
  - intros pid' packet' Hp' (sig & Hin & Hpid & Hu). simpl in Hin, Hp'.
    apply elem_of_app in Hin as [Hin|Hin].
    + apply (Hself pid' packet' Hp'). by exists sig.
    + apply list_elem_of_singleton in Hin as ->. simpl in *. congruence.
Qed.

Lemma consistent_set_end pid packet e s :
  packets s !! pid = Some packet →
  consistent s → consistent (set_packets (insert pid (set_end e packet)) s).
Proof.
  intros Hp. apply consistent_transfer.
  - intros pid'. simpl. rewrite lookup_insert. case_decide; [|done].
    subst. by rewrite Hp.
  - intros sig Hin. by exists sig.
Qed.

Lemma consistent_new_packet pid packet s :
  packets s !! pid = None →
  consistent s → consistent (set_packets (insert pid packet) s).
Proof.
  intros Hp [Hfk Hself]. split.
  - intros sig Hin. simpl. rewrite lookup_insert. case_decide; [done|].
    by apply Hfk.
  - intros pid' packet' Hp' (sig & Hin & Hpid & Hu). simpl in Hin, Hp'.
    rewrite lookup_insert in Hp'. case_decide.
    + subst pid'. destruct (Hfk _ Hin) as [? Hsome]. congruence.
    + apply (Hself pid' packet' Hp'). by exists sig.
Qed.

Lemma unsign_first_fresh_keys pid u l l' sig' :
  unsign_first_fresh pid u l = Some l' → sig' ∈ l' →
  ∃ sig, sig ∈ l ∧ fresh_packet_id sig = fresh_packet_id sig' ∧
         fresh_freshman_username sig = fresh_freshman_username sig'.
Proof.
  revert l'. induction l as [|x l IH]; intros l'; simpl; [done|].
  case_decide.
  - intros [= <-] Hin. apply elem_of_cons in Hin as [->|Hin].
    + exists x. split; [left|done].
    + exists sig'. split; [by right|done].
  - destruct (unsign_first_fresh pid u l) as [l0|]; [|done].
    simpl. intros [= <-] Hin. apply elem_of_cons in Hin as [->|Hin].
    + exists x. split; [left|done].
    + destruct (IH l0 eq_refl Hin) as (sig & Hs & ?). exists sig.
      split; [by right|done].
Qed.

(** ** Every command keeps the data model *)

Lemma kept_weaken (R : Store → Store → Prop) w :
  (∀ s c, R s c → kept s c) → holds R w → holds kept_committed w.
Proof. intros HR Hw. by destruct (HR _ _ Hw). Qed.

Lemma ldap_sync_kept now d :
  triple (holds kept) (ldap_sync now d) (λ _, holds kept) (holds kept_committed).
Proof.
  unfold ldap_sync.
  triple_step triple_print. triple_step triple_print.
  eapply triple_bind; [apply triple_get_session|intros s0].
  eapply triple_pre; [|intros w Hw; exact (proj1 Hw)].
  eapply triple_bind.
  { apply triple_for_each. intros p _.
    apply triple_modify_session. intros s c [Hs Hc]. split; [|done].
    destruct (ldap_sync_packet_other d (all_upper_dict d) p s) as (_ & HP & HF).
    by apply (consistent_same_fresh s). }
  intros ?. eapply triple_bind.
  { apply triple_commit with (R' := kept). by intros s c [Hs _]. }
  intros ?. apply triple_print.
Qed.

Lemma by_id_kept (R : Store → Store → Prop) packet_id :
  (∀ s c, R s c → kept s c) →
  triple (holds R) (by_id packet_id)
    (λ packet, holds (λ s c, R s c ∧ packets s !! packet_id = Some packet))
    (holds kept_committed).
Proof.
  intros HR w Hw. unfold by_id, get_session, mbind, M_bind.
  destruct (packets (session w) !! packet_id) as [packet|] eqn:Ep.
  - by split.
  - by eapply kept_weaken.
Qed.

Lemma extend_packet_kept now packet_id new_date :
  triple (holds kept) (extend_packet now packet_id new_date)
    (λ _, holds kept) (holds kept_committed).
Proof.
  unfold extend_packet.
  eapply triple_bind; [by apply by_id_kept|intros packet].
  destruct (negb (is_open now packet)).
  - eapply triple_post; [apply triple_print|]. by intros _ w [Hw _].
  - triple_step triple_print.
    eapply triple_bind.
    { apply triple_modify_session with (R' := kept).
      intros s c [[Hs Hc] Hp]. split; [|done]. by apply consistent_set_end. }
    intros ?. eapply triple_bind.
    { apply triple_commit with (R' := kept). by intros s c [Hs _]. }
    intros ?. apply triple_print.
Qed.

Lemma remove_sig_kept now packet_id username is_member :
  triple (holds kept) (remove_sig now packet_id username is_member)
    (λ _, holds kept) (holds kept_committed).
Proof.
  unfold remove_sig.
  eapply triple_bind; [by apply by_id_kept|intros packet].
  eapply triple_pre; [|intros w Hw; exact (proj1 Hw)].
  destruct (negb (is_open now packet)); [apply triple_print|].
  destruct is_member.
  - eapply triple_bind; [apply triple_get_session|intros s0].
    eapply triple_pre; [|intros w Hw; exact (proj1 Hw)].
    destruct (unsign_first_upper _ _ _) as [l|].
    + eapply triple_bind.
      { apply triple_modify_session with (R' := kept).
        intros s c [Hs Hc]. split; [|done]. by apply (consistent_same_fresh s). }
      intros ?. eapply triple_bind.
      { apply triple_commit with (R' := kept). by intros s c [Hs _]. }
      intros ?. apply triple_print.
    + eapply triple_bind.
      { apply triple_modify_session with (R' := kept).
        intros s c [Hs Hc]. split; [|done]. by apply (consistent_same_fresh s). }
      intros ?. case_decide; [|apply triple_print].
      eapply triple_bind.
      { apply triple_commit with (R' := kept). by intros s c [Hs _]. }
      intros ?. apply triple_print.
  - eapply triple_bind; [apply triple_get_session|intros s0].
    destruct (unsign_first_fresh _ _ _) as [l|] eqn:El.
    + eapply triple_bind.
      { apply triple_modify_session with (R' := kept).
        intros s c [[Hs Hc] ->]. split; [|done].
        revert Hs. apply consistent_transfer; [done|].
        intros sig' Hin. by eapply unsign_first_fresh_keys. }
      intros ?. eapply triple_bind.
      { apply triple_commit with (R' := kept). by intros s c [Hs _]. }
      intros ?. apply triple_print.
    + eapply triple_post; [apply triple_print|]. by intros _ w [Hw _].
Qed.

Lemma fetch_results_kept received required format_score csv_line
    file_path use_csv end_day :
  triple (holds kept)
    (fetch_results received required format_score csv_line file_path use_csv end_day)
    (λ _, holds kept) (holds kept_committed).
Proof.
  unfold fetch_results.
  eapply triple_bind with (Q := λ _, holds kept).
  { unfold open_w. destruct file_path as [path|]; [case_decide|].
    - by apply triple_ret.
    - triple_step triple_set_files. by apply triple_ret.
    - by apply triple_ret. }
  intros file_handle.
  eapply triple_bind; [apply triple_get_session|intros s0].
  eapply triple_pre; [|intros w Hw; exact (proj1 Hw)].
  eapply triple_bind with (Q := λ _, holds kept).
  { apply triple_lift; [done|]. intros w Hw. by eapply kept_weaken. }
  intros data. destruct use_csv.
  - triple_step triple_write.
    apply triple_for_each. intros row _. apply triple_write.
  - apply triple_for_each. intros row _. apply triple_write.
Qed.

Lemma consistent_set_freshmen f s :
  consistent s → consistent (set_freshmen f s).
Proof. by apply consistent_same_fresh. Qed.

Lemma drop_body_kept (ps : gmap Z Packet) sig :
  triple (holds (λ s c, kept s c ∧ packets s = ps)) (drop_body sig)
    (λ _, holds (λ s c, kept s c ∧ packets s = ps)) (holds kept_committed).
Proof.
  unfold drop_body.
  eapply triple_bind; [apply triple_get_session|intros s0].
  eapply triple_pre; [|intros w Hw; exact (proj1 Hw)].
  eapply triple_bind with (Q := λ _, holds (λ s c, kept s c ∧ packets s = ps)).
  { apply triple_lift; [done|]. intros w Hw.
    apply (kept_weaken (λ s c, kept s c ∧ packets s = ps)); [|exact Hw].
    by intros s c [? _]. }
  intros is_onfloor. destruct (negb is_onfloor); [|by apply triple_ret].
  apply triple_modify_session. intros s c [[Hs Hc] Hp].
  split; [split|]; [|done|done]. by apply consistent_delete_fresh.
Qed.

Lemma sync_packet_freshmen_kept (ps : gmap Z Packet) csv p :
  ps !! p.1 = Some p.2 →
  triple (holds (λ s c, kept s c ∧ packets s = ps)) (sync_packet_freshmen csv p)
    (λ _, holds (λ s c, kept s c ∧ packets s = ps)) (holds kept_committed).
Proof.
  intros Hp. unfold sync_packet_freshmen.
  eapply triple_bind; [apply triple_get_session|intros s0].
  eapply triple_pre; [|intros w Hw; exact (proj1 Hw)].
  eapply triple_bind.
  { apply triple_for_each. intros sig _. apply drop_body_kept. }
  intros ?. apply triple_for_each. intros c Hc.
  apply list_elem_of_filter in Hc as [(_ & _ & Hne) _].
  apply triple_modify_session. intros s c' [[Hs Hc'] Hps].
  split; [split|]; [|done|done].
  apply (consistent_add_fresh _ p.2); [by rewrite Hps|done|done].
Qed.

Lemma sync_freshmen_kept now rows :
  triple (holds kept) (sync_freshmen now rows)
    (λ _, holds kept) (holds kept_committed).
Proof.
  unfold sync_freshmen.
  eapply triple_bind with (Q := λ _, holds kept).
  { eapply triple_post; [apply triple_parse_csv|by intros csv w [Hw _]].
    by intros s c [_ Hc]. }
  intros csv. triple_step triple_print.
  eapply triple_bind.
  { apply triple_for_each. intros c _.
    apply triple_modify_session. intros s c' [Hs Hc]. split; [|done].
    by apply consistent_set_freshmen. }
  intros ?. eapply triple_bind.
  { apply triple_modify_session with (R' := kept).
    intros s c' [Hs Hc]. split; [|done]. by apply consistent_set_freshmen. }
  intros ?. eapply triple_bind; [apply triple_get_session|intros s1].
  eapply triple_pre with (P' := holds (λ s c, kept s c ∧ packets s = packets s1)).
  2:{ intros w [Hw Hs]. split; [done|]. by rewrite Hs. }
  eapply triple_bind.
  { apply triple_for_each. intros [pid packet] Hin.
    apply sync_packet_freshmen_kept.
    by apply elem_of_open_or_future_packets in Hin as [? _]. }
  intros ?. eapply triple_bind.
  { apply triple_commit with (R' := kept). by intros s c [[Hs _] _]. }
  intros ?. apply triple_print.
Qed.

Lemma create_packet_kept d all_upper start_ end__ freshman :
  triple (holds kept) (create_packet d all_upper start_ end__ freshman)
    (λ _, holds kept) (holds kept_committed).
Proof.
  unfold create_packet.
  eapply triple_bind; [apply triple_get_session|intros s0].
  set (pid := next_packet_id (packets s0)).
  set (packet := {| freshman_username := freshman.1; start := start_; end_ := end__ |}).
  set (R := λ s c : Store, kept s c ∧ packets s !! pid = Some packet).
  eapply triple_bind.
  { apply triple_modify_session with (R' := R).
    intros s c [[Hs Hc] ->]. split; [split; [|done]|].
    - apply consistent_new_packet; [apply next_packet_id_fresh|done].
    - simpl. apply lookup_insert_eq. }
  intros ?. triple_step triple_send. triple_step triple_send.
  eapply triple_bind.
  { apply triple_for_each. intros member _.
    apply triple_modify_session. intros s c [[Hs Hc] Hp].
    split; [split; [|done]|done]. by apply (consistent_same_fresh s). }
  intros ?. eapply triple_bind; [apply triple_get_session|intros s2].
  eapply triple_pre; [|intros w Hw; exact (proj1 Hw)].
  eapply triple_post with (Q' := λ _, holds R); [|by intros _ w [Hw _]].
  apply triple_for_each. intros f Hf.
  apply list_elem_of_filter in Hf as [[_ Hne] _].
  apply triple_modify_session. intros s c [[Hs Hc] Hp].
  split; [split; [|done]|done].
  by apply (consistent_add_fresh _ packet).
Qed.

Lemma create_packets_kept answer base_date d rows :
  triple (holds kept) (create_packets answer base_date d rows)
    (λ _, holds kept) (holds kept_committed).
Proof.
  unfold create_packets.
  triple_step triple_print.
  case_decide; [by apply triple_ret|].
  eapply triple_bind with (Q := λ _, holds kept).
  { apply triple_lift; [done|]. intros w Hw. by eapply kept_weaken. }
  intros end__. triple_step triple_print. triple_step triple_send.
  eapply triple_bind with (Q := λ _, holds kept).
  { eapply triple_post; [apply triple_parse_csv|by intros csv w [Hw _]].
    by intros s c [_ Hc]. }
  intros csv. triple_step triple_print.
  eapply triple_bind; [apply triple_get_session|intros s0].
  eapply triple_pre; [|intros w Hw; exact (proj1 Hw)].
  eapply triple_bind.
  { apply triple_for_each. intros f _. apply create_packet_kept. }
  intros ?. eapply triple_bind.
  { apply triple_commit with (R' := kept). by intros s c [Hs _]. }
  intros ?. apply triple_print.
Qed.

(** The data model of freshman signatures is an invariant of the database:
    every command leaves a consistent store consistent, whatever its
    outcome, and the empty store is consistent. *)
Lemma commands_keep_consistent (db : Store) :
  consistent db →
  (∀ now rows, consistent (db_after (sync_freshmen now rows) db)) ∧
  (∀ answer base_date d rows,
     consistent (db_after (create_packets answer base_date d rows) db)) ∧
  (∀ now d, consistent (db_after (ldap_sync now d) db)) ∧
  (∀ now packet_id new_date,
     consistent (db_after (extend_packet now packet_id new_date) db)) ∧
  (∀ now packet_id username is_member,
     consistent (db_after (remove_sig now packet_id username is_member) db)) ∧
  (∀ received required format_score csv_line file_path use_csv end_day,
     consistent (db_after (fetch_results received required format_score csv_line
                             file_path use_csv end_day) db)).
Proof.
  intros Hdb.
  assert (Hrun : ∀ (c : M unit),
            triple (holds kept) c (λ _, holds kept) (holds kept_committed) →
            consistent (db_after c db)).
  { intros c Hc. apply (triple_run c consistent (λ _, holds kept)); [done| |done].
    by intros _ w [_ Hw]. }
  split; [|split; [|split; [|split; [|split]]]]; intros; apply Hrun.
  - apply sync_freshmen_kept.
  - apply create_packets_kept.
  - apply ldap_sync_kept.
  - apply extend_packet_kept.
  - apply remove_sig_kept.
  - apply fetch_results_kept.
Qed.

Lemma empty_db_consistent : consistent ex_empty_db.
Proof.
  split.
  - intros sig Hin. by apply elem_of_nil in Hin.
  - intros pid packet Hp. simpl in Hp. by rewrite lookup_empty in Hp.
Qed.

(** * Further properties of the commands *)

(** ** Strings *)

Lemma append_cons c (s1 s2 : string) : String c s1 +:+ s2 = String c (s1 +:+ s2).
Proof. done. Qed.

Lemma append_nil_r (s : string) : s +:+ EmptyString = s.
Proof. induction s as [|c s IH]; [done|by rewrite append_cons, IH]. Qed.

Lemma append_assoc (s1 s2 s3 : string) : (s1 +:+ s2) +:+ s3 = s1 +:+ (s2 +:+ s3).
Proof. induction s1 as [|c s1 IH]; [done|by rewrite !append_cons, IH]. Qed.

Lemma rev_app_append (s acc : string) :
  String.rev_app s acc = String.rev s +:+ acc.
Proof.
  unfold String.rev. revert acc. induction s as [|c s IH]; intros acc; simpl; [done|].
  rewrite (IH (String c acc)), (IH (String c EmptyString)).
  by rewrite append_assoc.
Qed.

Lemma rev_cons c (s : string) :
  String.rev (String c s) = String.rev s +:+ String c EmptyString.
Proof. unfold String.rev at 1. simpl. apply rev_app_append. Qed.

Lemma rev_snoc (s : string) c :
  String.rev (s +:+ String c EmptyString) = String c (String.rev s).
Proof.
  induction s as [|a s IH]; [done|].
  rewrite append_cons, !rev_cons, IH. done.
Qed.

Lemma rev_involutive (s : string) : String.rev (String.rev s) = s.
Proof.
  induction s as [|c s IH]; [done|]. by rewrite rev_cons, rev_snoc, IH.
Qed.

Lemma lstrip_snoc (s : string) c :
  py_isspace c = false →
  lstrip (s +:+ String c EmptyString) = lstrip s +:+ String c EmptyString.
Proof.
  intros Hc. induction s as [|a s IH].
  - simpl. unfold String.append. simpl. by rewrite Hc.
  - rewrite append_cons. simpl. destruct (py_isspace a); [done|].
    by rewrite append_cons.
Qed.

(** What [lstrip] returns is empty or starts with a character that is not
    white space. *)
Lemma lstrip_head (s : string) :
  lstrip s = EmptyString ∨
  ∃ c s', lstrip s = String c s' ∧ py_isspace c = false.
Proof.
  induction s as [|a s IH]; [by left|]. simpl.
  destruct (py_isspace a) eqn:Ea; [done|]. right. by exists a, s.
Qed.

Lemma lstrip_idem (s : string) : lstrip (lstrip s) = lstrip s.
Proof.
  destruct (lstrip_head s) as [->|(c & s' & -> & Hc)]; [done|].
  simpl. by rewrite Hc.
Qed.

Lemma strip_head (s : string) :
  strip s = EmptyString ∨
  ∃ c r, strip s = String c (String.rev (lstrip (String.rev r))) ∧
         py_isspace c = false.
Proof.
  unfold strip, rstrip.
  destruct (lstrip_head s) as [->|(c & t & -> & Hc)]; [by left|].
  right. exists c, t. split; [|done].
  by rewrite rev_cons, lstrip_snoc, rev_snoc.
Qed.

(** A stripped string has nothing left to strip. *)
Lemma strip_idem (s : string) : strip (strip s) = strip s.
Proof.
  destruct (strip_head s) as [->|(c & r & -> & Hc)]; [done|].
  unfold strip, rstrip. simpl. rewrite Hc.
  rewrite rev_cons, lstrip_snoc by done.
  by rewrite rev_involutive, lstrip_idem, rev_snoc.
Qed.

(** ** Roster parsing: short rows and the entries of the dict *)

Lemma CSVFreshman_init_short row :
  (length row < 4)%nat → CSVFreshman_init row = inl IndexError.
Proof.
  intros Hlen. unfold CSVFreshman_init, index.
  rewrite (lookup_ge_None_2 row 3) by lia.
  by destruct (row !! 0%nat).
Qed.

Lemma CSVFreshman_init_inv row f :
  CSVFreshman_init row = inr f →
  ∃ c0 c1 c3, row !! 0%nat = Some c0 ∧ row !! 1%nat = Some c1 ∧
              row !! 3%nat = Some c3 ∧
              f = {| csv_name := strip c0; rit_username := strip c3;
                     csv_onfloor := bool_decide (strip c1 = "TRUE") |}.
Proof.
  unfold CSVFreshman_init, index.
  destruct (row !! 0%nat) as [c0|]; [|done].
  destruct (row !! 3%nat) as [c3|]; [|done].
  destruct (row !! 1%nat) as [c1|]; [|done].
  intros [= <-]. by exists c0, c1, c3.
Qed.

Lemma csv_dict_short rows acc :
  Exists (λ row, (length row < 4)%nat) rows → csv_dict rows acc = inl IndexError.
Proof.
  revert acc. induction rows as [|row rows IH]; intros acc Hex.
  - by apply Exists_nil in Hex.
  - simpl. destruct (decide (length row < 4)%nat) as [Hshort|Hlong].
    + by rewrite CSVFreshman_init_short.
    + destruct (CSVFreshman_init_total row) as [f ->]; [lia|].
      apply IH. apply Exists_cons in Hex as [?|?]; done.
Qed.

Lemma csv_dict_entries rows acc d u f :
  csv_dict rows acc = inr d → d !! u = Some f →
  acc !! u = Some f ∨
  ∃ row, row ∈ rows ∧ CSVFreshman_init row = inr f ∧ rit_username f = u.
Proof.
  revert acc. induction rows as [|row rows IH]; intros acc; simpl.
  - intros [= <-] ?. by left.
  - destruct (CSVFreshman_init row) as [e|f0] eqn:Ef; [done|].
    intros Hd Hu. destruct (IH _ Hd Hu) as [Hacc | (r & Hr & Er & Eu)].
    + rewrite lookup_insert in Hacc. case_decide as Hk.
      * injection Hacc as <-. right. exists row. split; [left|done].
      * by left.
    + right. exists r. split; [by right|done].
Qed.

Lemma csv_dict_dom rows acc d u :
  csv_dict rows acc = inr d →
  is_Some (d !! u)
  ↔ is_Some (acc !! u) ∨
    ∃ row f, row ∈ rows ∧ CSVFreshman_init row = inr f ∧ rit_username f = u.
Proof.
  revert acc. induction rows as [|row rows IH]; intros acc; simpl.
  - intros [= <-]. split; [by left|]. intros [?|(r & f & Hr & _)]; [done|].
    by apply elem_of_nil in Hr.
  - destruct (CSVFreshman_init row) as [e|f0] eqn:Ef; [done|].
    intros Hd. rewrite (IH _ Hd), lookup_insert. split.
    + intros [Hs | (r & f & Hr & Er & Eu)].
      * case_decide as Hk; [|by left]. right. exists row, f0. split; [left|done].
      * right. exists r, f. split; [by right|done].
    + intros [Hs | (r & f & Hr & Er & Eu)].
      * left. by case_decide.
      * apply elem_of_cons in Hr as [->|Hr].
        -- left. rewrite Ef in Er. injection Er as ->. by rewrite decide_True.
        -- right. by exists r, f.
Qed.

Lemma csv_dict_size rows acc d :
  csv_dict rows acc = inr d → (size d ≤ size acc + length rows)%nat.
Proof.
  revert acc. induction rows as [|row rows IH]; intros acc; simpl.
  - intros [= <-]. lia.
  - destruct (CSVFreshman_init row) as [e|f0]; [done|].
    intros Hd. apply IH in Hd.
    destruct (acc !! rit_username f0) eqn:E.
    + rewrite map_size_insert_Some in Hd by done. lia.
    + rewrite map_size_insert_None in Hd by done. lia.
Qed.

Lemma parse_csv_raise_world rows e w :
  csv_dict rows ∅ = inl e →
  parse_csv rows w
  = (inl e, {| committed := committed w; session := session w;
               stdout := stdout w ++ ["Parsing file..."; "Failure while parsing CSV"];
               files := files w; outbox := outbox w |}).
Proof.
  intros Hd. unfold parse_csv, reraising, lift, print, mbind, M_bind.
  rewrite Hd. simpl. by rewrite <- app_assoc.
Qed.

Lemma parse_csv_ok_world rows d w :
  csv_dict rows ∅ = inr d →
  parse_csv rows w
  = (inr d, {| committed := committed w; session := session w;
               stdout := stdout w ++ ["Parsing file..."];
               files := files w; outbox := outbox w |}).
Proof.
  intros Hd. unfold parse_csv, reraising, lift, print, mbind, M_bind.
  by rewrite Hd.
Qed.

Lemma parse_csv_outcome_dict rows db d :
  outcome (parse_csv rows) db = inr d → csv_dict rows ∅ = inr d.
Proof.
  unfold outcome, run. intros Hout.
  destruct (csv_dict rows ∅) as [e|d'] eqn:Hd.
  - by rewrite (parse_csv_raise_world _ _ _ Hd) in Hout.
  - rewrite (parse_csv_ok_world _ _ _ Hd) in Hout. simpl in Hout. congruence.
Qed.

(** X1: parse_csv returns a dict, after printing one line, when every row
    has its four columns; a row with fewer makes it print the failure
    message and raise IndexError.  In both cases the store is as before. *)
Theorem parse_csv_outcome rows (db : Store) :
  (Forall (λ row, (4 ≤ length row)%nat) rows →
     (∃ d, outcome (parse_csv rows) db = inr d) ∧
     printed (parse_csv rows) db = ["Parsing file..."]) ∧
  (Exists (λ row, (length row < 4)%nat) rows →
     outcome (parse_csv rows) db = inl IndexError ∧
     printed (parse_csv rows) db = ["Parsing file..."; "Failure while parsing CSV"]) ∧
  db_after (parse_csv rows) db = db.
Proof.
  unfold outcome, printed, db_after, run. split; [|split].
  - intros Hlen. rewrite Forall_forall in Hlen.
    destruct (csv_dict_total rows ∅ Hlen) as [d Hd].
    rewrite (parse_csv_ok_world _ _ _ Hd). split; [by exists d|done].
  - intros Hex. by rewrite (parse_csv_raise_world _ _ _ (csv_dict_short _ _ Hex)).
  - destruct (csv_dict rows ∅) as [e|d] eqn:Hd.
    + by rewrite (parse_csv_raise_world _ _ _ Hd).
    + by rewrite (parse_csv_ok_world _ _ _ Hd).
Qed.

(** The roster of the example parses; a roster with a two-column row does
    not. *)
Lemma parse_csv_outcome_witness :
  Forall (λ row, (4 ≤ length row)%nat) ex_roster ∧
  printed (parse_csv ex_roster) ex_db = ["Parsing file..."] ∧
  Exists (λ row, (length row < 4)%nat) [["Dan"; "TRUE"]] ∧
  outcome (parse_csv [["Dan"; "TRUE"]]) ex_db = inl IndexError.
Proof.
  assert (H1 : Forall (λ row, (4 ≤ length row)%nat) ex_roster)
    by (apply (bool_decide_unpack _); vm_compute; exact I).
  assert (H2 : Exists (λ row, (length row < 4)%nat) [["Dan"; "TRUE"]])
    by (apply (bool_decide_unpack _); vm_compute; exact I).
  destruct (parse_csv_outcome ex_roster ex_db) as ((_ & H3) & _ & _); [exact H1|].
  destruct (parse_csv_outcome [["Dan"; "TRUE"]] ex_db) as (_ & (H4 & _) & _);
    [exact H2|].
  split; [exact H1|]. split; [exact H3|]. split; [exact H2|]. exact H4.
Defined.

(** X2: the dict parse_csv returns has exactly the stripped fourth columns
    of the rows as its keys; every entry comes from a row with that
    username and carries the stripped name and the on-floor flag of that
    row; a key has no white space around it; and there are at most as many
    entries as rows. *)
Theorem parse_csv_entries rows (db : Store) d :
  outcome (parse_csv rows) db = inr d →
  (∀ u, is_Some (d !! u)
        ↔ ∃ row c3, row ∈ rows ∧ row !! 3%nat = Some c3 ∧ strip c3 = u) ∧
  (∀ u f, d !! u = Some f →
     ∃ row c0 c1 c3, row ∈ rows ∧ row !! 0%nat = Some c0 ∧ row !! 1%nat = Some c1 ∧
       row !! 3%nat = Some c3 ∧ strip c3 = u ∧
       f = {| csv_name := strip c0; rit_username := u;
              csv_onfloor := bool_decide (strip c1 = "TRUE") |}) ∧
  (∀ u, is_Some (d !! u) → strip u = u) ∧
  (size d ≤ length rows)%nat.
Proof.
  intros Hout. apply parse_csv_outcome_dict in Hout as Hd.
  assert (Hall : ∀ row, row ∈ rows → (4 ≤ length row)%nat).
  { intros row Hrow. destruct (decide (4 ≤ length row)%nat) as [|Hshort]; [done|].
    rewrite (csv_dict_short rows ∅) in Hd; [done|].
    apply Exists_exists. exists row. split; [done|lia]. }
  assert (Hent : ∀ u f, d !! u = Some f →
     ∃ row c0 c1 c3, row ∈ rows ∧ row !! 0%nat = Some c0 ∧ row !! 1%nat = Some c1 ∧
       row !! 3%nat = Some c3 ∧ strip c3 = u ∧
       f = {| csv_name := strip c0; rit_username := u;
              csv_onfloor := bool_decide (strip c1 = "TRUE") |}).
  { intros u f Hu.
    destruct (csv_dict_entries _ _ _ _ _ Hd Hu) as [Hacc | (row & Hrow & Ef & Eu)].
    - by rewrite lookup_empty in Hacc.
    - apply CSVFreshman_init_inv in Ef as (c0 & c1 & c3 & E0 & E1 & E3 & ->).
      simpl in Eu. subst u. by exists row, c0, c1, c3. }
  split; [|split; [exact Hent|split]].
  - intros u. rewrite (csv_dict_dom _ _ _ u Hd), lookup_empty. split.
    + intros [[? ?] | (row & f & Hrow & Ef & Eu)]; [done|].
      apply CSVFreshman_init_inv in Ef as (c0 & c1 & c3 & _ & _ & E3 & ->).
      by exists row, c3.
    + intros (row & c3 & Hrow & E3 & Eu). right.
      destruct (CSVFreshman_init_total row (Hall _ Hrow)) as [f Ef].
      exists row, f. split; [done|]. split; [done|].
      apply CSVFreshman_init_inv in Ef as (c0 & c1 & c3' & _ & _ & E3' & ->).
      simpl. congruence.
  - intros u [f Hu].
    destruct (Hent u f Hu) as (row & c0 & c1 & c3 & _ & _ & _ & _ & <- & _).
    apply strip_idem.
  - apply csv_dict_size in Hd. rewrite map_size_empty in Hd. lia.
Qed.

(** The roster that names alice1 twice has two entries. *)
Lemma parse_csv_entries_witness :
  ∃ d, outcome (parse_csv ex_roster_twice) ex_empty_db = inr d ∧
       (∀ u, is_Some (d !! u) → strip u = u) ∧
       (size d ≤ length ex_roster_twice)%nat.
Proof.
  destruct (outcome (parse_csv ex_roster_twice) ex_empty_db) as [e|d] eqn:E;
    [vm_compute in E; discriminate|].
  exists d. split; [reflexivity|].
  destruct (parse_csv_entries ex_roster_twice ex_empty_db d E) as (_ & _ & H1 & H2).
  split; [exact H1|exact H2].
Defined.

(** ** The date prompt *)

(** X3: input_date asks until a line is a date: it returns the day of the
    first line that parses, leaves the lines after it unread and has
    written one prompt for each line it read; when no line of the input
    parses it reads them all and ends with the EOFError of [input]. *)
Theorem input_date_reads_until_valid (strptime : string → option Z)
    (prompt : string) :
  (∀ bad good rest day,
     Forall (λ line, strptime line = None) bad →
     strptime good = Some day →
     input_date strptime prompt (bad ++ good :: rest)
     = (Some day, rest,
        replicate (S (length bad)) (prompt +:+ " (format: MM/DD/YYYY): "))) ∧
  (∀ stdin,
     Forall (λ line, strptime line = None) stdin →
     input_date strptime prompt stdin
     = (None, [],
        replicate (S (length stdin)) (prompt +:+ " (format: MM/DD/YYYY): "))).
Proof.
  split.
  - intros bad good rest day Hbad Hgood.
    induction Hbad as [|line bad Hline _ IH]; simpl.
    + by rewrite Hgood.
    + by rewrite Hline, IH.
  - intros stdin Hbad. induction Hbad as [|line bad Hline _ IH]; simpl; [done|].
    by rewrite Hline, IH.
Qed.

(** Two lines that are no date, the date, and the answer to the next
    prompt. *)
Lemma input_date_reads_until_valid_witness :
  Forall (λ line, ex_strptime line = None) ["tomorrow"; "29/07/2021"] ∧
  ex_strptime "07/29/2021" = Some 738000 ∧
  input_date ex_strptime "Input the first day of packet season"
    ["tomorrow"; "29/07/2021"; "07/29/2021"; "y"]
  = (Some 738000, ["y"],
     replicate 3 "Input the first day of packet season (format: MM/DD/YYYY): ").
Proof.
  assert (H1 : Forall (λ line, ex_strptime line = None) ["tomorrow"; "29/07/2021"])
    by (repeat constructor).
  split; [exact H1|]. split; [reflexivity|].
  destruct (input_date_reads_until_valid ex_strptime
              "Input the first day of packet season") as [H _].
  exact (H ["tomorrow"; "29/07/2021"] "07/29/2021" ["y"] 738000 H1 eq_refl).
Defined.

(** ** sync-freshmen: what a run prints, keeps and leaves alone *)

Lemma drop_body_stdout sig w : stdout (drop_body sig w).2 = stdout w.
Proof.
  unfold drop_body, mbind, M_bind, get_session, lift, freshman_onfloor.
  destruct (freshmen (session w) !! _) as [f|]; [|done].
  by destruct (onfloor f).
Qed.

Lemma for_each_stdout {A} (l : list A) (body : A → M unit) :
  (∀ x w, stdout (body x w).2 = stdout w) →
  ∀ w, stdout (for_each l body w).2 = stdout w.
Proof.
  intros Hbody. induction l as [|x l IH]; intros w; simpl; [done|].
  unfold mbind, M_bind. pose proof (Hbody x w) as Hx.
  destruct (body x w) as [[e|[]] w1]; simpl in *; [done|].
  by rewrite IH.
Qed.

Lemma sync_packet_freshmen_stdout csv p w :
  stdout (sync_packet_freshmen csv p w).2 = stdout w.
Proof.
  unfold sync_packet_freshmen, mbind, M_bind, get_session.
  pose proof (for_each_stdout (fresh_signatures (session w) p.1) drop_body
                drop_body_stdout w) as H1.
  destruct (for_each _ drop_body w) as [[e|[]] w1]; simpl in *; [done|].
  rewrite for_each_modify. simpl. done.
Qed.

Lemma sync_freshmen_printed now rows db :
  printed (sync_freshmen now rows) db
  = match csv_dict rows ∅ with
    | inl _ => ["Parsing file..."; "Failure while parsing CSV"]
    | inr csv =>
        match sync_freshmen_result now csv db with
        | inr _ => ["Parsing file..."; "Syncing contents with the DB..."; "Done!"]
        | inl _ => ["Parsing file..."; "Syncing contents with the DB..."]
        end
    end.
Proof.
  unfold printed, run, sync_freshmen.
  set (w0 := {| committed := db; session := db; stdout := []; files := ∅; outbox := [] |}).
  destruct (csv_dict rows ∅) as [e|csv] eqn:Ecsv.
  - erewrite bind_raise; [|by apply parse_csv_raise_world]. done.
  - erewrite bind_ok; [|by apply parse_csv_ok_world].
    erewrite bind_ok; [|reflexivity].
    erewrite bind_ok; [|apply (for_each_modify _ (λ c, set_freshmen (upsert_freshman c)))].
    erewrite bind_ok; [|reflexivity].
    erewrite bind_ok; [|reflexivity].
    set (w2 := with_session (set_freshmen (mark_departed csv)) _).
    set (s1 := set_freshmen (synced_freshmen csv) db).
    assert (Hw2 : session w2 = s1).
    { subst w2. simpl. by rewrite foldl_set_freshmen. }
    assert (Hout : stdout w2 = ["Parsing file..."; "Syncing contents with the DB..."])
      by done.
    clearbody w2. rewrite Hw2.
    pose proof (for_each_stdout (open_or_future_packets now s1)
                  (sync_packet_freshmen csv) (sync_packet_freshmen_stdout csv) w2)
      as Hloop.
    unfold sync_freshmen_result. fold s1.
    case_decide as Hres.
    + erewrite bind_ok; [|apply packets_loop_ok].
      * simpl. by rewrite Hout.
      * apply NoDup_open_or_future_packets.
      * by rewrite Hw2.
    + destruct (packets_loop_raise csv (open_or_future_packets now s1) w2)
        as (w' & E' & Hc').
      * apply NoDup_open_or_future_packets.
      * by rewrite Hw2.
      * erewrite bind_raise; [|done]. simpl. rewrite E' in Hloop. simpl in Hloop.
        by rewrite Hloop.
Qed.

(** A short row ends the command before it touches the session. *)
Lemma sync_freshmen_short_row now rows db :
  Exists (λ row, (length row < 4)%nat) rows →
  outcome (sync_freshmen now rows) db = inl IndexError ∧
  printed (sync_freshmen now rows) db
    = ["Parsing file..."; "Failure while parsing CSV"] ∧
  db_after (sync_freshmen now rows) db = db.
Proof.
  intros Hshort. pose proof (csv_dict_short rows ∅ Hshort) as Hd.
  rewrite sync_freshmen_printed.
  pose proof (sync_freshmen_run now rows db) as Hrun.
  rewrite Hd in *. by destruct Hrun.
Qed.

(** X4: on a store where every FreshSignature has its Freshman on record,
    sync-freshmen ends normally, with its three progress lines, when every
    roster row has its four columns; a row with fewer makes it raise
    IndexError after the parse failure message, with nothing committed. *)
Theorem sync_freshmen_outcome now rows (db : Store) :
  (∀ sig, sig ∈ fresh_sigs db →
          is_Some (freshmen db !! fresh_freshman_username sig)) →
  let c := sync_freshmen now rows in
  (Forall (λ row, (4 ≤ length row)%nat) rows →
     outcome c db = inr tt ∧
     printed c db = ["Parsing file..."; "Syncing contents with the DB..."; "Done!"]) ∧
  (Exists (λ row, (length row < 4)%nat) rows →
     outcome c db = inl IndexError ∧
     printed c db = ["Parsing file..."; "Failure while parsing CSV"] ∧
     db_after c db = db).
Proof.
  intros Hfk c. subst c. split; [|apply sync_freshmen_short_row].
  intros Hrows.
  assert (Hok := sync_freshmen_completes now rows db Hrows Hfk).
  split; [done|].
  rewrite sync_freshmen_printed.
  pose proof (sync_freshmen_run now rows db) as Hrun.
  destruct (csv_dict rows ∅) as [e|csv]; [destruct Hrun; congruence|].
  destruct (sync_freshmen_result now csv db); [destruct Hrun; congruence|done].
Qed.

(** The example season: the roster goes through, a row of three columns
    does not. *)
Lemma sync_freshmen_outcome_witness :
  (outcome (sync_freshmen ex_now ex_roster) ex_db = inr tt ∧
   printed (sync_freshmen ex_now ex_roster) ex_db
   = ["Parsing file..."; "Syncing contents with the DB..."; "Done!"]) ∧
  (outcome (sync_freshmen ex_now [ ["Alice"; "TRUE"; "x"] ]) ex_db = inl IndexError ∧
   printed (sync_freshmen ex_now [ ["Alice"; "TRUE"; "x"] ]) ex_db
   = ["Parsing file..."; "Failure while parsing CSV"] ∧
   db_after (sync_freshmen ex_now [ ["Alice"; "TRUE"; "x"] ]) ex_db = ex_db).
Proof.
  assert (Hfk : ∀ sig, sig ∈ fresh_sigs ex_db →
                       is_Some (freshmen ex_db !! fresh_freshman_username sig)).
  { apply Forall_forall. apply (bool_decide_unpack _). vm_compute. exact I. }
  split.
  - destruct (sync_freshmen_outcome ex_now ex_roster ex_db Hfk) as [H _].
    apply H. apply (bool_decide_unpack _). vm_compute. exact I.
  - destruct (sync_freshmen_outcome ex_now [ ["Alice"; "TRUE"; "x"] ] ex_db Hfk)
      as [_ H].
    apply H. apply (bool_decide_unpack _). vm_compute. exact I.
Defined.

(** X5: after a run of sync-freshmen that ends normally, a freshman of the
    roster is stored with the name and the on-floor flag of the roster, and
    every other stored freshman is kept, with the name as before and off
    floor.  No Freshman row is ever deleted. *)
Theorem sync_freshmen_freshman_table now rows (db : Store) :
  outcome (sync_freshmen now rows) db = inr tt →
  ∃ d, outcome (parse_csv rows) db = inr d ∧
       ∀ u, freshmen (db_after (sync_freshmen now rows) db) !! u
            = match d !! u with
              | Some c => Some {| name := csv_name c; onfloor := csv_onfloor c |}
              | None => set_onfloor false <$> freshmen db !! u
              end.
Proof.
  intros Hok.
  destruct (sync_freshmen_success _ _ _ Hok) as (csv & Ecsv & Hkey & _ & Hdb).
  exists csv. split.
  - unfold outcome, run. by rewrite (parse_csv_ok_world _ _ _ Ecsv).
  - intros u. rewrite Hdb.
    destruct (sync_all_other csv (open_or_future_packets now db)
                (set_freshmen (synced_freshmen csv) db)) as (-> & _).
    simpl. by rewrite synced_freshmen_lookup.
Qed.

(** Carol is not in the roster: she stays, off floor. *)
Lemma sync_freshmen_freshman_table_witness :
  outcome (sync_freshmen ex_now ex_roster) ex_db = inr tt ∧
  ∃ d, outcome (parse_csv ex_roster) ex_db = inr d ∧
       ∀ u, freshmen (db_after (sync_freshmen ex_now ex_roster) ex_db) !! u
            = match d !! u with
              | Some c => Some {| name := csv_name c; onfloor := csv_onfloor c |}
              | None => set_onfloor false <$> freshmen ex_db !! u
              end.
Proof.
  assert (H : outcome (sync_freshmen ex_now ex_roster) ex_db = inr tt)
    by (vm_compute; reflexivity).
  split; [exact H|].
  apply (sync_freshmen_freshman_table ex_now ex_roster ex_db H).
Defined.

(** X6: on a packet whose end is in the future, a run of sync-freshmen that
    ends normally keeps, as it is, every FreshSignature of a freshman who is
    on floor after the run, and every row the packet then has is a row it
    had before or an unsigned row of a freshman who had none on it. *)
Theorem sync_freshmen_keeps_signatures now rows (db : Store) pid packet :
  outcome (sync_freshmen now rows) db = inr tt →
  packets db !! pid = Some packet →
  dt_ltb now (end_ packet) = true →
  let db' := db_after (sync_freshmen now rows) db in
  (∀ sig, sig ∈ fresh_sigs db → fresh_packet_id sig = pid →
          is_onfloor db' (fresh_freshman_username sig) → sig ∈ fresh_sigs db') ∧
  (∀ sig, sig ∈ fresh_sigs db' → fresh_packet_id sig = pid →
          sig ∈ fresh_sigs db ∨
          (fresh_signed sig = false ∧ ¬ has_fresh db pid (fresh_freshman_username sig))).
Proof.
  intros Hok Hp Hopen db'.
  destruct (sync_freshmen_success _ _ _ Hok) as (csv & Ecsv & Hkey & Hres & Hdb).
  subst db'. rewrite Hdb.
  set (s1 := set_freshmen (synced_freshmen csv) db).
  set (l := open_or_future_packets now db).
  destruct (sync_all_other csv l s1) as (HF & _).
  assert (Hin : (pid, packet) ∈ l) by by apply elem_of_open_or_future_packets.
  pose proof (sync_all_turn csv l s1 (pid, packet)
                (NoDup_open_or_future_packets now db) Hin) as Hturn.
  change ((pid, packet).1) with pid in Hturn.
  change (fresh_signatures s1 pid) with (fresh_signatures db pid) in Hturn.
  change (freshmen s1) with (synced_freshmen csv (freshmen db)) in Hturn, HF.
  assert (Hmem : ∀ sig, fresh_packet_id sig = pid →
            sig ∈ fresh_sigs (sync_all csv l s1)
            ↔ sig ∈ fresh_signatures (sync_all csv l s1) pid).
  { intros sig Hpid. unfold fresh_signatures. rewrite list_elem_of_filter. tauto. }
  split.
  - intros sig Hsig Hpid (f & Ef & Eo). apply Hmem; [done|].
    rewrite Hturn, elem_of_app. left. apply list_elem_of_filter. split.
    + unfold offfloor. rewrite HF in Ef. rewrite Ef. simpl. by rewrite Eo.
    + by apply list_elem_of_filter.
  - intros sig Hsig Hpid. apply Hmem in Hsig; [|done].
    rewrite Hturn, elem_of_app in Hsig. destruct Hsig as [Hold|Hnew].
    + left. apply list_elem_of_filter in Hold as [_ Hold].
      by apply list_elem_of_filter in Hold as [_ ?].
    + right. unfold new_fresh_sigs in Hnew.
      apply list_elem_of_fmap in Hnew as (c & -> & Hc).
      apply list_elem_of_filter in Hc as [(Hnin & _ & _) _].
      split; [done|]. simpl. by rewrite has_fresh_loaded.
Qed.

(** Bob has signed Alice's packet and is taken off floor by the roster, so
    his row goes; Dan's new row is unsigned. *)
Lemma sync_freshmen_keeps_signatures_witness :
  outcome (sync_freshmen ex_now ex_roster) ex_db = inr tt ∧
  packets ex_db !! 1 = Some ex_packet ∧
  dt_ltb ex_now (end_ ex_packet) = true ∧
  (∀ sig, sig ∈ fresh_sigs (db_after (sync_freshmen ex_now ex_roster) ex_db) →
          fresh_packet_id sig = 1 →
          sig ∈ fresh_sigs ex_db ∨
          (fresh_signed sig = false ∧
           ¬ has_fresh ex_db 1 (fresh_freshman_username sig))).
Proof.
  assert (H : outcome (sync_freshmen ex_now ex_roster) ex_db = inr tt)
    by (vm_compute; reflexivity).
  split; [exact H|]. split; [reflexivity|]. split; [reflexivity|].
  destruct (sync_freshmen_keeps_signatures ex_now ex_roster ex_db 1 ex_packet
              H eq_refl eq_refl) as [_ H2].
  exact H2.
Defined.

(** X7: sync-freshmen never changes a packet, an UpperSignature or a
    MiscSignature, and it leaves alone the FreshSignatures of every packet
    whose end is not in the future, whether the run ends normally or
    not. *)
Theorem sync_freshmen_leaves_the_rest now rows (db : Store) :
  let db' := db_after (sync_freshmen now rows) db in
  packets db' = packets db ∧
  upper_sigs db' = upper_sigs db ∧
  misc_sigs db' = misc_sigs db ∧
  (∀ q, (∀ packet, packets db !! q = Some packet → dt_ltb now (end_ packet) = false) →
        fresh_signatures db' q = fresh_signatures db q).
Proof.
  intros db'. subst db'.
  destruct (outcome (sync_freshmen now rows) db) as [e|[]] eqn:Eo.
  { rewrite sync_freshmen_failure by (by rewrite Eo). done. }
  destruct (sync_freshmen_success _ _ _ Eo) as (csv & _ & _ & _ & ->).
  destruct (sync_all_other csv (open_or_future_packets now db)
              (set_freshmen (synced_freshmen csv) db)) as (_ & -> & -> & ->).
  repeat split; try done.
  intros q Hq. rewrite sync_all_frame; [done|].
  intros Hin. apply list_elem_of_fmap in Hin as ([q' packet] & -> & Hin).
  apply elem_of_open_or_future_packets in Hin as [Hp Hopen].
  simpl in *. by rewrite (Hq _ Hp) in Hopen.
Qed.

(** The packet of the example, after its end. *)
Lemma sync_freshmen_leaves_the_rest_witness :
  packets ex_db !! 1 = Some ex_packet ∧
  dt_ltb ex_after (end_ ex_packet) = false ∧
  fresh_signatures (db_after (sync_freshmen ex_after ex_roster) ex_db) 1
  = fresh_signatures ex_db 1.
Proof.
  assert (H1 : packets ex_db !! 1 = Some ex_packet) by (vm_compute; reflexivity).
  split; [exact H1|]. split; [reflexivity|].
  destruct (sync_freshmen_leaves_the_rest ex_after ex_roster ex_db)
    as (_ & _ & _ & H).
  apply H. intros packet Hp. rewrite H1 in Hp. injection Hp as <-. reflexivity.
Defined.

(** ** create-packets: the ways a run ends *)

Lemma add_days_out dt n :
  ¬ (MINORDINAL ≤ dt_date dt + n ≤ MAXORDINAL) → add_days dt n = inl OverflowError.
Proof.
  intros Hout. unfold add_days.
  destruct (decide (MINORDINAL ≤ dt_date dt + n)).
  - replace (dt_date dt + n <=? MAXORDINAL) with false by (symmetry; lia).
    by rewrite andb_false_r.
  - by replace (MINORDINAL <=? dt_date dt + n) with false by (symmetry; lia).
Qed.

Lemma add_days_in dt n :
  MINORDINAL ≤ dt_date dt + n ≤ MAXORDINAL →
  add_days dt n = inr {| dt_date := dt_date dt + n; dt_time := dt_time dt |}.
Proof.
  intros Hin. unfold add_days.
  replace (MINORDINAL <=? dt_date dt + n) with true by (symmetry; lia).
  by replace (dt_date dt + n <=? MAXORDINAL) with true by (symmetry; lia).
Qed.

(** X8: when the operator does not answer y (or Y) to the prompt,
    create-packets prints its warning and does nothing else: no packet, no
    mail, no notification. *)
Theorem create_packets_declined answer base_date d rows (db : Store) :
  lower answer ≠ "y" →
  let c := create_packets answer base_date d rows in
  outcome c db = inr tt ∧
  db_after c db = db ∧
  printed c db = [create_packets_warning] ∧
  outbox (snd (run c db)) = [].
Proof.
  intros Hno c. subst c.
  unfold outcome, db_after, printed, run, create_packets.
  erewrite bind_ok; [|reflexivity].
  by rewrite decide_True.
Qed.

(** The operator just presses return. *)
Lemma create_packets_declined_witness :
  lower "" ≠ "y" ∧
  db_after (create_packets "" 738000 ex_ldap_with_zed ex_roster) ex_db_roster
  = ex_db_roster ∧
  outbox (snd (run (create_packets "" 738000 ex_ldap_with_zed ex_roster)
                   ex_db_roster)) = [].
Proof.
  assert (H : lower "" ≠ "y") by discriminate.
  split; [exact H|].
  destruct (create_packets_declined "" 738000 ex_ldap_with_zed ex_roster
              ex_db_roster H) as (_ & H1 & _ & H2).
  split; [exact H1|exact H2].
Defined.

(** X9: a first day so late that the end, fourteen days later, is past the
    last day a date can hold makes create-packets raise OverflowError right
    after the prompt: nothing is fetched, sent or stored. *)
Theorem create_packets_date_overflow answer base_date d rows (db : Store) :
  lower answer = "y" →
  MAXORDINAL < base_date + 14 →
  let c := create_packets answer base_date d rows in
  outcome c db = inl OverflowError ∧
  db_after c db = db ∧
  printed c db = [create_packets_warning] ∧
  outbox (snd (run c db)) = [].
Proof.
  intros Hyes Hbig c. subst c.
  unfold outcome, db_after, printed, run, create_packets.
  erewrite bind_ok; [|reflexivity].
  rewrite decide_False by (by intros ?).
  erewrite bind_raise;
    [|unfold lift; rewrite add_days_out by (simpl; lia); reflexivity].
  done.
Qed.

(** A season starting on 31 December 9999. *)
Lemma create_packets_date_overflow_witness :
  lower "y" = "y" ∧
  MAXORDINAL < MAXORDINAL + 14 ∧
  outcome (create_packets "y" MAXORDINAL ex_ldap_with_zed ex_roster) ex_db_roster
  = inl OverflowError.
Proof.
  assert (H : MAXORDINAL < MAXORDINAL + 14) by lia.
  split; [reflexivity|]. split; [exact H|].
  apply (create_packets_date_overflow "y" MAXORDINAL ex_ldap_with_zed ex_roster
           ex_db_roster eq_refl H).
Defined.

(** X10: the roster is parsed after the season-start notification has been
    sent.  A roster with a short row makes create-packets raise IndexError
    with nothing committed, and the notification has gone out all the
    same. *)
Theorem create_packets_bad_roster answer base_date d rows (db : Store) :
  lower answer = "y" →
  MINORDINAL ≤ base_date + 14 ≤ MAXORDINAL →
  Exists (λ row, (length row < 4)%nat) rows →
  let c := create_packets answer base_date d rows in
  outcome c db = inl IndexError ∧
  db_after c db = db ∧
  printed c db = [create_packets_warning; "Fetching data from LDAP...";
                  "Parsing file..."; "Failure while parsing CSV"] ∧
  outbox (snd (run c db))
    = [PacketsStartingNotification (combine base_date packet_start_time)].
Proof.
  intros Hyes Hdate Hshort c. subst c.
  unfold outcome, db_after, printed, run, create_packets.
  erewrite bind_ok; [|reflexivity].
  rewrite decide_False by (by intros ?).
  erewrite bind_ok; [|unfold lift; rewrite add_days_in by done; reflexivity].
  erewrite bind_ok; [|reflexivity].
  erewrite bind_ok; [|reflexivity].
  erewrite bind_raise; [|apply parse_csv_raise_world; by apply csv_dict_short].
  done.
Qed.

(** A roster whose only row has three columns. *)
Lemma create_packets_bad_roster_witness :
  lower "y" = "y" ∧
  MINORDINAL ≤ 738000 + 14 ≤ MAXORDINAL ∧
  db_after (create_packets "y" 738000 ex_ldap_with_zed [ ["Alice"; "TRUE"; "x"] ])
    ex_db_roster = ex_db_roster ∧
  outbox (snd (run (create_packets "y" 738000 ex_ldap_with_zed
                      [ ["Alice"; "TRUE"; "x"] ]) ex_db_roster))
  = [PacketsStartingNotification (combine 738000 packet_start_time)].
Proof.
  assert (H : MINORDINAL ≤ 738000 + 14 ≤ MAXORDINAL) by (unfold MINORDINAL, MAXORDINAL; lia).
  split; [reflexivity|]. split; [exact H|].
  destruct (create_packets_bad_roster "y" 738000 ex_ldap_with_zed
              [ ["Alice"; "TRUE"; "x"] ] ex_db_roster eq_refl H) as (_ & H1 & _ & H2).
  { apply (bool_decide_unpack _). vm_compute. exact I. }
  split; [exact H1|exact H2].
Defined.

(** ** create-packets: the new season *)

Lemma foldr_max_le (l : list Z) k : k ∈ l → k ≤ foldr Z.max 0 l.
Proof.
  induction l as [|x l IH]; intros Hk; [by apply elem_of_nil in Hk|].
  apply elem_of_cons in Hk as [->|Hk]; simpl; [lia|].
  specialize (IH Hk). lia.
Qed.

Lemma foldr_max_perm (l1 l2 : list Z) :
  l1 ≡ₚ l2 → foldr Z.max 0 l1 = foldr Z.max 0 l2.
Proof.
  intros Hp. induction Hp as [|x l1 l2 _ IH|x y l|l1 l2 l3 _ IH1 _ IH2]; simpl; lia.
Qed.

(** The next id is above every id in use, and the ids of a batch of new
    packets are consecutive. *)
Lemma next_packet_id_above (ps : gmap Z Packet) pid :
  is_Some (ps !! pid) → pid < next_packet_id ps.
Proof.
  intros [p Hp]. apply elem_of_map_to_list in Hp.
  assert (Hk : pid ∈ (map_to_list ps).*1).
  { apply list_elem_of_fmap. by exists (pid, p). }
  apply foldr_max_le in Hk. unfold next_packet_id. lia.
Qed.

Lemma next_packet_id_insert (ps : gmap Z Packet) packet :
  next_packet_id (<[next_packet_id ps := packet]> ps) = next_packet_id ps + 1.
Proof.
  unfold next_packet_id at 1.
  rewrite (foldr_max_perm _ (next_packet_id ps :: (map_to_list ps).*1)).
  - simpl. unfold next_packet_id. lia.
  - rewrite map_to_list_insert by apply next_packet_id_fresh. done.
Qed.

Lemma create_packet_step_next d all_upper start_ end__ s freshman :
  next_packet_id (packets (create_packet_step d all_upper start_ end__ s freshman))
  = next_packet_id (packets s) + 1.
Proof. apply next_packet_id_insert. Qed.

Lemma foldl_add_upper (g : LdapMember → UpperSignature) (l : list LdapMember) s :
  foldl (λ s member, add_upper (g member) s) s l
  = set_upper_sigs (λ us, us ++ (g <$> l)) s.
Proof.
  revert s. induction l as [|x l IH]; intros s; simpl.
  - apply store_eq; simpl; try done. by rewrite app_nil_r.
  - rewrite IH. apply store_eq; simpl; try done. by rewrite <- app_assoc.
Qed.

Lemma foldl_add_fresh_rows {A} (g : A → FreshSignature) (l : list A) s :
  foldl (λ s f, add_fresh (g f) s) s l
  = set_fresh_sigs (λ fs, fs ++ (g <$> l)) s.
Proof.
  revert s. induction l as [|x l IH]; intros s; simpl.
  - apply store_eq; simpl; try done. by rewrite app_nil_r.
  - rewrite IH. apply store_eq; simpl; try done. by rewrite <- app_assoc.
Qed.

Lemma create_packet_run d all_upper start_ end__ freshman w :
  create_packet d all_upper start_ end__ freshman w
  = (inr tt,
     {| committed := committed w;
        session := create_packet_step d all_upper start_ end__ (session w) freshman;
        stdout := stdout w; files := files w;
        outbox := outbox w ++ [StartPacketMail (next_packet_id (packets (session w)));
                               PacketStartingNotification
                                 (next_packet_id (packets (session w)))] |}).
Proof.
  unfold create_packet.
  erewrite bind_ok; [|reflexivity].
  erewrite bind_ok; [|reflexivity].
  erewrite bind_ok; [|reflexivity].
  erewrite bind_ok; [|reflexivity].
  erewrite bind_ok;
    [|apply (for_each_modify _ (λ member,
               add_upper (packet_upper d (next_packet_id (packets (session w))) member)))].
  erewrite bind_ok; [|reflexivity].
  rewrite (for_each_modify _ (λ f : string * Freshman,
             add_fresh (mk_FreshSignature (next_packet_id (packets (session w))) f.1 false))).
  f_equal. unfold create_packet_step, with_session. simpl.
  f_equal; [|by rewrite <- app_assoc].
  rewrite (foldl_add_fresh_rows (λ f : string * Freshman,
             mk_FreshSignature (next_packet_id (packets (session w))) f.1 false)).
  rewrite (foldl_add_upper (packet_upper d (next_packet_id (packets (session w))))).
  done.
Qed.

Lemma create_loop_run d all_upper start_ end__ (l : list (string * Freshman)) w :
  for_each l (create_packet d all_upper start_ end__) w
  = (inr tt,
     {| committed := committed w;
        session := create_all d all_upper start_ end__ l (session w);
        stdout := stdout w; files := files w;
        outbox := outbox w ++ season_events (next_packet_id (packets (session w))) l |}).
Proof.
  revert w. induction l as [|f l IH]; intros w; simpl.
  - rewrite app_nil_r. by destruct w.
  - unfold mbind, M_bind. rewrite create_packet_run, IH.
    cbn [committed session stdout files outbox].
    rewrite create_packet_step_next, <- app_assoc. done.
Qed.

Section create_all_tables.
Context (d : Ldap) (all_upper : list LdapMember) (start_ end__ : datetime).

Lemma create_all_cons f l s :
  create_all d all_upper start_ end__ (f :: l) s
  = create_all d all_upper start_ end__ l
      (create_packet_step d all_upper start_ end__ s f).
Proof. done. Qed.

Lemma create_all_other l s :
  freshmen (create_all d all_upper start_ end__ l s) = freshmen s ∧
  misc_sigs (create_all d all_upper start_ end__ l s) = misc_sigs s.
Proof.
  revert s. induction l as [|f l IH]; intros s; [done|].
  rewrite create_all_cons.
  by destruct (IH (create_packet_step d all_upper start_ end__ s f)) as [-> ->].
Qed.

(** The packets after the loop: the new ones take the ids from the next id
    on, in the order of the list. *)
Lemma create_all_packets l s pid :
  let n := next_packet_id (packets s) in
  packets (create_all d all_upper start_ end__ l s) !! pid
  = if decide (n ≤ pid < n + Z.of_nat (length l))
    then (λ f : string * Freshman,
            {| freshman_username := f.1; start := start_; end_ := end__ |})
           <$> l !! Z.to_nat (pid - n)
    else packets s !! pid.
Proof.
  revert s. induction l as [|f l IH]; intros s n; subst n.
  - simpl. rewrite decide_False by lia. done.
  - rewrite create_all_cons, IH, create_packet_step_next. clear IH.
    set (n := next_packet_id (packets s)).
    rewrite length_cons.
    destruct (decide (pid = n)) as [->|Hne].
    + rewrite decide_False by lia. rewrite decide_True by lia.
      rewrite Z.sub_diag. simpl. apply lookup_insert_eq.
    + case_decide as H1.
      * rewrite decide_True by lia.
        replace (Z.to_nat (pid - n)) with (S (Z.to_nat (pid - (n + 1)))) by lia.
        done.
      * rewrite decide_False by lia. simpl. by rewrite lookup_insert_ne.
Qed.

(** The signature rows after the loop, when no row of the store is
    numbered from the next id on: the rows of the packets there were are
    as before, and a new packet has a row for each listed member and for
    each on-floor freshman other than its owner. *)
Lemma create_all_rows l s :
  let n := next_packet_id (packets s) in
  (∀ sig, sig ∈ upper_sigs s → upper_packet_id sig < n) →
  (∀ sig, sig ∈ fresh_sigs s → fresh_packet_id sig < n) →
  (∀ q, q < n →
     upper_signatures (create_all d all_upper start_ end__ l s) q = upper_signatures s q ∧
     fresh_signatures (create_all d all_upper start_ end__ l s) q = fresh_signatures s q) ∧
  (∀ (i : nat) f, l !! i = Some f →
     upper_signatures (create_all d all_upper start_ end__ l s) (n + Z.of_nat i)
       = packet_upper d (n + Z.of_nat i) <$> all_upper ∧
     fresh_signatures (create_all d all_upper start_ end__ l s) (n + Z.of_nat i)
       = (λ g : string * Freshman, mk_FreshSignature (n + Z.of_nat i) g.1 false)
           <$> other_onfloor_freshmen s f.1).
Proof.
  revert s. induction l as [|f0 l IH]; intros s n Hup Hfr; subst n.
  { split; [done|]. intros i f Hi. by rewrite lookup_nil in Hi. }
  set (n := next_packet_id (packets s)) in *.
  set (s' := create_packet_step d all_upper start_ end__ s f0).
  assert (Hn' : next_packet_id (packets s') = n + 1) by apply create_packet_step_next.
  assert (Hup' : ∀ sig, sig ∈ upper_sigs s' → upper_packet_id sig < n + 1).
  { intros sig Hin. simpl in Hin. apply elem_of_app in Hin as [Hin|Hin].
    - specialize (Hup _ Hin). lia.
    - apply list_elem_of_fmap in Hin as (m & -> & _). simpl. fold n. lia. }
  assert (Hfr' : ∀ sig, sig ∈ fresh_sigs s' → fresh_packet_id sig < n + 1).
  { intros sig Hin. simpl in Hin. apply elem_of_app in Hin as [Hin|Hin].
    - specialize (Hfr _ Hin). lia.
    - apply list_elem_of_fmap in Hin as (m & -> & _). simpl. fold n. lia. }
  rewrite <- Hn' in Hup', Hfr'.
  destruct (IH s' Hup' Hfr') as [IHold IHnew]. rewrite Hn' in IHold, IHnew.
  rewrite create_all_cons. fold s'.
  assert (Hstep_old : ∀ q, q < n →
            upper_signatures s' q = upper_signatures s q ∧
            fresh_signatures s' q = fresh_signatures s q).
  { intros q Hq. unfold upper_signatures, fresh_signatures. simpl.
    rewrite !filter_app. fold n.
    rewrite (filter_none _ (_ <$> all_upper)).
    2:{ intros sig Hin. apply list_elem_of_fmap in Hin as (m & -> & _). simpl. lia. }
    rewrite (filter_none _ (_ <$> other_onfloor_freshmen _ _)).
    2:{ intros sig Hin. apply list_elem_of_fmap in Hin as (m & -> & _). simpl. lia. }
    by rewrite !app_nil_r. }
  assert (Hstep_new :
            upper_signatures s' n = packet_upper d n <$> all_upper ∧
            fresh_signatures s' n
            = (λ g : string * Freshman, mk_FreshSignature n g.1 false)
                <$> other_onfloor_freshmen s f0.1).
  { unfold upper_signatures, fresh_signatures. simpl.
    rewrite !filter_app. fold n.
    rewrite (filter_none _ (upper_sigs s)).
    2:{ intros sig Hin. specialize (Hup _ Hin). lia. }
    rewrite (filter_none _ (fresh_sigs s)).
    2:{ intros sig Hin. specialize (Hfr _ Hin). lia. }
    simpl. split; apply filter_all; intros sig Hin;
      apply list_elem_of_fmap in Hin as (m & -> & _); done. }
  split.
  - intros q Hq. destruct (IHold q) as [-> ->]; [lia|]. by apply Hstep_old.
  - intros [|i] f Hi.
    + simpl in Hi. injection Hi as <-. change (Z.of_nat 0) with 0. rewrite Z.add_0_r.
      destruct (IHold n) as [-> ->]; [lia|]. done.
    + simpl in Hi. destruct (IHnew i f Hi) as [Eu Ef].
      replace (n + Z.of_nat (S i)) with (n + 1 + Z.of_nat i) by lia.
      rewrite Eu, Ef. done.
Qed.
End create_all_tables.

Lemma create_packets_run answer base_date d rows db csv :
  lower answer = "y" →
  MINORDINAL ≤ base_date + 14 ≤ MAXORDINAL →
  csv_dict rows ∅ = inr csv →
  let db' := create_all d (filter is_upper (ldap_get_active_members d))
               (combine base_date packet_start_time)
               (combine (base_date + 14) packet_end_time)
               (roster_freshmen csv db) db in
  run (create_packets answer base_date d rows) db
  = (inr tt,
     {| committed := db'; session := db';
        stdout := [create_packets_warning; "Fetching data from LDAP...";
                   "Parsing file..."; "Creating DB entries and sending emails...";
                   "Done!"];
        files := ∅;
        outbox := PacketsStartingNotification (combine base_date packet_start_time)
                  :: season_events (next_packet_id (packets db))
                       (roster_freshmen csv db) |}).
Proof.
  intros Hyes Hdate Hcsv db'. subst db'.
  unfold run, create_packets.
  erewrite bind_ok; [|reflexivity].
  rewrite decide_False by (by intros ?).
  erewrite bind_ok; [|unfold lift; rewrite add_days_in by done; reflexivity].
  erewrite bind_ok; [|reflexivity].
  erewrite bind_ok; [|reflexivity].
  erewrite bind_ok; [|by apply parse_csv_ok_world].
  erewrite bind_ok; [|reflexivity].
  erewrite bind_ok; [|reflexivity].
  erewrite bind_ok; [|apply create_loop_run].
  done.
Qed.

(** What create-packets commits: the store it found, or the store with the
    new season. *)
Lemma create_packets_db_after answer base_date d rows db :
  db_after (create_packets answer base_date d rows) db = db ∨
  ∃ csv, csv_dict rows ∅ = inr csv ∧
         db_after (create_packets answer base_date d rows) db
         = create_all d (filter is_upper (ldap_get_active_members d))
             (combine base_date packet_start_time)
             (combine (base_date + 14) packet_end_time)
             (roster_freshmen csv db) db.
Proof.
  destruct (decide (lower answer ≠ "y")) as [Hno|Hyes].
  { left. unfold db_after, run, create_packets.
    erewrite bind_ok; [|reflexivity]. by rewrite decide_True. }
  assert (Hy : lower answer = "y") by (by destruct (decide (lower answer = "y"))).
  destruct (decide (MINORDINAL ≤ base_date + 14 ≤ MAXORDINAL)) as [Hdate|Hdate].
  2:{ left. unfold db_after, run, create_packets.
      erewrite bind_ok; [|reflexivity].
      rewrite decide_False by done.
      erewrite bind_raise; [|unfold lift; rewrite add_days_out by done; reflexivity].
      done. }
  destruct (csv_dict rows ∅) as [e|csv] eqn:Ecsv.
  - left. unfold db_after, run, create_packets.
    erewrite bind_ok; [|reflexivity].
    rewrite decide_False by done.
    erewrite bind_ok; [|unfold lift; rewrite add_days_in by done; reflexivity].
    erewrite bind_ok; [|reflexivity].
    erewrite bind_ok; [|reflexivity].
    erewrite bind_raise; [|by apply parse_csv_raise_world].
    done.
  - right. exists csv. split; [done|]. unfold db_after.
    by rewrite (create_packets_run _ _ _ _ _ _ Hy Hdate Ecsv).
Qed.

Lemma roster_freshmen_NoDup csv s : NoDup (roster_freshmen csv s).*1.
Proof.
  unfold roster_freshmen.
  eapply sublist_NoDup; [apply (NoDup_fst_map_to_list (freshmen s))|].
  apply fmap_sublist, sublist_filter.
Qed.

Lemma elem_of_roster_freshmen csv s u :
  u ∈ (roster_freshmen csv s).*1 ↔ is_Some (csv !! u) ∧ is_Some (freshmen s !! u).
Proof.
  unfold roster_freshmen. rewrite list_elem_of_fmap. split.
  - intros ([k f] & -> & Hin). apply list_elem_of_filter in Hin as [Hk Hin].
    apply elem_of_map_to_list in Hin. simpl in *. split; [done|by eexists].
  - intros [Hk [f Hf]]. exists (u, f). split; [done|].
    apply list_elem_of_filter. split; [done|]. by apply elem_of_map_to_list.
Qed.

(** X11: a run of create-packets that goes through (the operator agrees,
    the end date exists, the roster parses to [csv]) adds one packet for
    each stored freshman of the roster, and for nobody else: the new
    packets take the ids from the next id on, each with its owner and the
    season's start and end; the packets there were, the Freshman rows and
    the MiscSignatures are as before; the season-start notification goes
    out first and then, for each new packet, its mail and its
    notification. *)
Theorem create_packets_new_packets answer base_date d rows (db : Store) csv :
  lower answer = "y" →
  MINORDINAL ≤ base_date + 14 ≤ MAXORDINAL →
  csv_dict rows ∅ = inr csv →
  let c := create_packets answer base_date d rows in
  let db' := db_after c db in
  let l := roster_freshmen csv db in
  let n := next_packet_id (packets db) in
  outcome c db = inr tt ∧
  printed c db = [create_packets_warning; "Fetching data from LDAP...";
                  "Parsing file..."; "Creating DB entries and sending emails...";
                  "Done!"] ∧
  freshmen db' = freshmen db ∧
  misc_sigs db' = misc_sigs db ∧
  (∀ pid, is_Some (packets db !! pid) → pid < n) ∧
  (∀ pid, packets db' !! pid
          = if decide (n ≤ pid < n + Z.of_nat (length l))
            then (λ f : string * Freshman,
                    {| freshman_username := f.1;
                       start := combine base_date packet_start_time;
                       end_ := combine (base_date + 14) packet_end_time |})
                   <$> l !! Z.to_nat (pid - n)
            else packets db !! pid) ∧
  NoDup l.*1 ∧
  (∀ u, u ∈ l.*1 ↔ is_Some (csv !! u) ∧ is_Some (freshmen db !! u)) ∧
  outbox (snd (run c db))
    = PacketsStartingNotification (combine base_date packet_start_time)
      :: season_events n l.
Proof.
  intros Hyes Hdate Hcsv c db' l n. subst c db'.
  unfold outcome, printed, db_after.
  rewrite (create_packets_run _ _ _ _ _ _ Hyes Hdate Hcsv).
  cbn [fst snd committed stdout outbox].
  split; [done|]. split; [done|]. subst l n.
  destruct (create_all_other d (filter is_upper (ldap_get_active_members d))
              (combine base_date packet_start_time)
              (combine (base_date + 14) packet_end_time)
              (roster_freshmen csv db) db) as [-> ->].
  split; [done|]. split; [done|].
  split; [apply next_packet_id_above|].
  split; [apply create_all_packets|].
  split; [apply roster_freshmen_NoDup|].
  split; [apply elem_of_roster_freshmen|done].
Qed.

(** The three freshmen of the roster get the packets 1, 2 and 3. *)
Lemma create_packets_new_packets_witness :
  lower "Y" = "y" ∧
  MINORDINAL ≤ 738000 + 14 ≤ MAXORDINAL ∧
  csv_dict ex_roster ∅ = inr ex_csv ∧
  outbox (snd (run (create_packets "Y" 738000 ex_ldap_with_zed ex_roster)
                   ex_db_roster))
  = PacketsStartingNotification (combine 738000 packet_start_time)
    :: season_events (next_packet_id (packets ex_db_roster))
         (roster_freshmen ex_csv ex_db_roster).
Proof.
  assert (H1 : MINORDINAL ≤ 738000 + 14 ≤ MAXORDINAL)
    by (unfold MINORDINAL, MAXORDINAL; lia).
  assert (H2 : csv_dict ex_roster ∅ = inr ex_csv) by (vm_compute; reflexivity).
  split; [reflexivity|]. split; [exact H1|]. split; [exact H2|].
  destruct (create_packets_new_packets "Y" 738000 ex_ldap_with_zed ex_roster
              ex_db_roster ex_csv eq_refl H1 H2) as (_ & _ & _ & _ & _ & _ & _ & _ & H).
  exact H.
Defined.

(** X12: on a store whose signature rows belong to stored packets, a run
    of create-packets that goes through gives the packet of the [i]-th
    freshman of the roster one unsigned UpperSignature, with the roles of
    the directory, for each entry of the directory's list of active
    members that is neither an intro member nor on co-op, in the
    directory's order, and one unsigned FreshSignature for each stored
    on-floor freshman other than the owner; the packets there were, and
    their rows, are as before. *)
Theorem create_packets_signatures answer base_date d rows (db : Store) csv :
  lower answer = "y" →
  MINORDINAL ≤ base_date + 14 ≤ MAXORDINAL →
  csv_dict rows ∅ = inr csv →
  (∀ sig, sig ∈ upper_sigs db → is_Some (packets db !! upper_packet_id sig)) →
  (∀ sig, sig ∈ fresh_sigs db → is_Some (packets db !! fresh_packet_id sig)) →
  let db' := db_after (create_packets answer base_date d rows) db in
  let n := next_packet_id (packets db) in
  (∀ (i : nat) f, roster_freshmen csv db !! i = Some f →
     packets db' !! (n + Z.of_nat i)
       = Some {| freshman_username := f.1;
                 start := combine base_date packet_start_time;
                 end_ := combine (base_date + 14) packet_end_time |} ∧
     upper_signatures db' (n + Z.of_nat i)
       = packet_upper d (n + Z.of_nat i)
           <$> filter is_upper (ldap_get_active_members d) ∧
     fresh_signatures db' (n + Z.of_nat i)
       = (λ g : string * Freshman, mk_FreshSignature (n + Z.of_nat i) g.1 false)
           <$> other_onfloor_freshmen db f.1) ∧
  (∀ q, q < n →
     packets db' !! q = packets db !! q ∧
     upper_signatures db' q = upper_signatures db q ∧
     fresh_signatures db' q = fresh_signatures db q).
Proof.
  intros Hyes Hdate Hcsv Hup Hfr db' n. subst db'.
  unfold db_after.
  rewrite (create_packets_run _ _ _ _ _ _ Hyes Hdate Hcsv).
  cbn [fst snd committed stdout].
  destruct (create_all_rows d (filter is_upper (ldap_get_active_members d))
              (combine base_date packet_start_time)
              (combine (base_date + 14) packet_end_time)
              (roster_freshmen csv db) db) as [Hold Hnew].
  { intros sig Hin. by apply next_packet_id_above, Hup. }
  { intros sig Hin. by apply next_packet_id_above, Hfr. }
  split.
  - intros i f Hi. split; [|by apply Hnew].
    rewrite create_all_packets. fold n.
    apply lookup_lt_Some in Hi as Hlt.
    rewrite decide_True by lia.
    replace (Z.to_nat (n + Z.of_nat i - n)) with i by lia.
    by rewrite Hi.
  - intros q Hq. split; [|by apply Hold].
    rewrite create_all_packets. fold n. by rewrite decide_False by lia.
Qed.

(** A second season on the example store: the rows of packet 1 stay. *)
Lemma create_packets_signatures_witness :
  lower "y" = "y" ∧
  MINORDINAL ≤ 738030 + 14 ≤ MAXORDINAL ∧
  csv_dict ex_roster ∅ = inr ex_csv ∧
  upper_signatures (db_after (create_packets "y" 738030 ex_ldap_with_zed ex_roster)
                      ex_db) 1
  = upper_signatures ex_db 1.
Proof.
  assert (H1 : MINORDINAL ≤ 738030 + 14 ≤ MAXORDINAL)
    by (unfold MINORDINAL, MAXORDINAL; lia).
  assert (H2 : csv_dict ex_roster ∅ = inr ex_csv) by (vm_compute; reflexivity).
  split; [reflexivity|]. split; [exact H1|]. split; [exact H2|].
  destruct (create_packets_signatures "y" 738030 ex_ldap_with_zed ex_roster
              ex_db ex_csv eq_refl H1 H2) as [_ H].
  { apply Forall_forall. apply (bool_decide_unpack _). vm_compute. exact I. }
  { apply Forall_forall. apply (bool_decide_unpack _). vm_compute. exact I. }
  destruct (H 1) as (_ & H3 & _); [vm_compute; reflexivity|]. exact H3.
Defined.

(** ** ldap-sync: roles, signed flags and what is left alone *)

(** An entry of [all_upper] is an active member of the directory who is
    neither an intro member nor on co-op, under its own uid. *)
Lemma all_upper_dict_lookup d u member :
  all_upper_dict d !! u = Some member →
  member ∈ ldap_get_active_members d ∧ is_upper member ∧ uid member = u.
Proof.
  unfold all_upper_dict.
  assert (H : ∀ (l : list LdapMember) (acc : gmap string LdapMember),
    foldl (λ acc member, <[uid member := member]> acc) acc l !! u = Some member →
    acc !! u = Some member ∨ (member ∈ l ∧ uid member = u)).
  { induction l as [|x l IH]; intros acc; simpl; [by left|].
    intros Hl. destruct (IH _ Hl) as [Hacc | [Hin E]].
    - rewrite lookup_insert in Hacc. case_decide; [|by left].
      injection Hacc as <-. right. split; [left|done].
    - right. split; [by right|done]. }
  intros Hl. destruct (H _ _ Hl) as [Hacc | [Hin E]].
  - by rewrite lookup_empty in Hacc.
  - apply list_elem_of_filter in Hin as [? ?]. done.
Qed.

(** When no two of these members share a uid, each of them is the entry of
    its uid. *)
Lemma all_upper_dict_unique d member :
  NoDup (uid <$> filter is_upper (ldap_get_active_members d)) →
  member ∈ filter is_upper (ldap_get_active_members d) →
  all_upper_dict d !! uid member = Some member.
Proof.
  unfold all_upper_dict.
  generalize (filter is_upper (ldap_get_active_members d)). intros l.
  assert (H : ∀ (l : list LdapMember) (acc : gmap string LdapMember),
    NoDup (uid <$> l) →
    (member ∈ l ∨ ((uid member ∉ (uid <$> l)) ∧ acc !! uid member = Some member)) →
    foldl (λ acc member, <[uid member := member]> acc) acc l !! uid member
    = Some member).
  { clear l. induction l as [|x l IH]; intros acc Hnd Hin; simpl.
    - destruct Hin as [Hin|[_ ?]]; [by apply elem_of_nil in Hin|done].
    - rewrite fmap_cons in Hnd. apply NoDup_cons in Hnd as [Hx Hnd].
      apply IH; [done|].
      destruct Hin as [Hin|[Hnin Hacc]].
      + apply elem_of_cons in Hin as [->|Hin]; [|by left].
        right. split; [done|]. apply lookup_insert_eq.
      + rewrite fmap_cons, not_elem_of_cons in Hnin. destruct Hnin as [Hne Hnin].
        right. split; [done|]. by rewrite lookup_insert_ne. }
  intros Hnd Hin. apply H; [done|by left].
Qed.

Lemma filter_filter_app_other {A} (P Q : A → Prop) `{!∀ x, Decision (P x)}
    `{!∀ x, Decision (Q x)} (l l' : list A) :
  (∀ x, x ∈ l → Q x → P x) → (∀ x, x ∈ l' → ¬ Q x) →
  filter Q (filter P (l ++ l')) = filter Q l.
Proof.
  intros HP HQ. rewrite list_filter_filter, filter_app.
  rewrite (filter_none _ l') by (intros x Hx [? _]; by eapply HQ).
  rewrite app_nil_r. apply filter_ext_elem.
  intros x Hx. split; [by intros [? _]|]. intros Hq. split; [done|by apply HP].
Qed.

Section ldap_sync_packet_roles.
Context (d : Ldap) (all_upper : gmap string LdapMember) (p : Z * Packet).

(** After the turn of a packet every UpperSignature of the packet carries
    the roles of its member. *)
Lemma ldap_sync_packet_roles s sig :
  sig ∈ upper_sigs (ldap_sync_packet d all_upper p s) →
  upper_packet_id sig = p.1 →
  ∃ member, all_upper !! upper_member sig = Some member ∧
            sig = with_roles d member sig.
Proof.
  intros Hin Hpid.
  apply ldap_sync_packet_upper in Hin
    as [(sig0 & _ & Hact & ->) | [(m & _ & _ & Hact & ->) | (k & mem & Hk & _ & _ & ->)]].
  - rewrite refresh_roles_packet_id in Hpid.
    destruct (Hact Hpid) as [member Hm]. exists member.
    rewrite refresh_roles_member. split; [done|].
    unfold refresh_roles. rewrite decide_True by done. by rewrite Hm.
  - destruct Hact as [member Hm]. exists member.
    rewrite reactivated_member. split; [done|].
    unfold reactivated. by rewrite Hm.
  - exists mem. by split.
Qed.

(** A packet whose rows already agree with the directory is left as it
    is. *)
Lemma ldap_sync_packet_fixed s :
  (∀ sig, sig ∈ upper_sigs s → upper_packet_id sig = p.1 →
     ∃ member, all_upper !! upper_member sig = Some member ∧
               sig = with_roles d member sig) →
  (∀ m, m ∈ misc_sigs s → misc_packet_id m = p.1 → all_upper !! misc_member m = None) →
  (∀ k, is_Some (all_upper !! k) → has_upper s p.1 k) →
  ldap_sync_packet d all_upper p s = s.
Proof.
  intros Hroles Hmisc Hall.
  assert (Hs : refreshed d all_upper p.1 s = s).
  { unfold refreshed. apply store_eq; try done. simpl.
    rewrite (fmap_ext_elem _ id); [apply list_fmap_id|].
    intros sig Hin. unfold refresh_roles. case_decide as Hpid; [|done].
    destruct (Hroles sig Hin Hpid) as (member & -> & E). by rewrite <- E. }
  unfold ldap_sync_packet. cbv zeta. rewrite Hs.
  rewrite (filter_none (λ sig, all_upper !! upper_member sig = None)).
  2:{ intros sig Hin. apply list_elem_of_filter in Hin as [Hpid Hin].
      destruct (Hroles sig Hin Hpid) as (member & -> & _). done. }
  simpl.
  rewrite (filter_none (λ sig, is_Some (all_upper !! misc_member sig))).
  2:{ intros m Hin. apply list_elem_of_filter in Hin as [Hpid Hin].
      rewrite (Hmisc m Hin Hpid). by intros [? ?]. }
  simpl. rewrite app_nil_r.
  rewrite filter_none; [done|].
  intros [k member] Hin Hnot. apply Hnot. simpl.
  apply elem_of_map_to_list in Hin.
  destruct (Hall k) as (sig & Hsig & Hpid & Hmem); [by eexists|].
  apply list_elem_of_fmap. exists sig. split; [done|].
  by apply list_elem_of_filter.
Qed.

Lemma filter_other_packet_upper q (P : UpperSignature → Prop)
    `{!∀ x, Decision (P x)} (l : list UpperSignature) :
  q ≠ p.1 →
  (∀ sig, upper_packet_id sig ≠ p.1 → P sig) →
  filter (λ sig, upper_packet_id sig = q)
         (filter P (refresh_roles d all_upper p.1 <$> l))
  = filter (λ sig, upper_packet_id sig = q) l.
Proof.
  intros Hne HP. induction l as [|sig l IH]; [done|].
  rewrite fmap_cons.
  destruct (decide (upper_packet_id sig = p.1)) as [Hpid|Hpid].
  - rewrite (filter_cons_False _ sig) by congruence.
    rewrite <- IH. rewrite filter_cons.
    destruct (decide (P (refresh_roles d all_upper p.1 sig))); [|done].
    rewrite filter_cons_False; [done|].
    rewrite refresh_roles_packet_id. congruence.
  - rewrite refresh_roles_other by done.
    rewrite (filter_cons_True P) by by apply HP.
    rewrite !filter_cons. rewrite IH. done.
Qed.

(** The turn of a packet leaves the rows of every other packet as they
    are, in number and in order. *)
Lemma ldap_sync_packet_other_rows s q :
  q ≠ p.1 →
  upper_signatures (ldap_sync_packet d all_upper p s) q = upper_signatures s q ∧
  misc_signatures (ldap_sync_packet d all_upper p s) q = misc_signatures s q.
Proof.
  intros Hne. unfold ldap_sync_packet, upper_signatures, misc_signatures.
  rewrite foldl_create_upper, foldl_migrate_to_upper, foldl_migrate_to_misc.
  simpl. split.
  - rewrite !filter_app.
    rewrite (filter_none (λ sig, upper_packet_id sig = q)
               (_ <$> filter _ (map_to_list _))).
    2:{ intros sig Hin. apply list_elem_of_fmap in Hin as (e & -> & _).
        simpl. congruence. }
    rewrite (filter_none (λ sig, upper_packet_id sig = q) (reactivated _ _ _ <$> _)).
    2:{ intros sig Hin. apply list_elem_of_fmap in Hin as (e & -> & _).
        rewrite reactivated_packet_id. congruence. }
    rewrite !app_nil_r.
    apply filter_other_packet_upper; [done|]. intros sig Hpid [? _]. done.
  - apply filter_filter_app_other.
    + intros m _ Hq [? _]. congruence.
    + intros m Hin Hq. apply list_elem_of_fmap in Hin as (e & -> & _).
      simpl in Hq. congruence.
Qed.
End ldap_sync_packet_roles.

Lemma ldap_sync_all_other_rows d all_upper l s q :
  q ∉ l.*1 →
  upper_signatures (ldap_sync_all d all_upper l s) q = upper_signatures s q ∧
  misc_signatures (ldap_sync_all d all_upper l s) q = misc_signatures s q.
Proof.
  revert s. induction l as [|p l IH]; intros s Hq; [done|].
  rewrite fmap_cons, not_elem_of_cons in Hq. destruct Hq as [Hne Hq].
  change (ldap_sync_all d all_upper (p :: l) s)
    with (ldap_sync_all d all_upper l (ldap_sync_packet d all_upper p s)).
  destruct (IH (ldap_sync_packet d all_upper p s) Hq) as [-> ->].
  by apply ldap_sync_packet_other_rows.
Qed.

Lemma ldap_sync_printed now d db :
  printed (ldap_sync now d) db
  = ["Fetching data from LDAP..."; "Applying updates to the DB..."; "Done!"].
Proof.
  unfold printed, run, ldap_sync.
  erewrite bind_ok; [|reflexivity].
  erewrite bind_ok; [|reflexivity].
  erewrite bind_ok; [|reflexivity]. simpl.
  erewrite bind_ok; [|apply for_each_modify].
  done.
Qed.

(** After a run the rows of an open packet agree with the directory of the
    run. *)
Lemma ldap_sync_settled now d db pid packet :
  packets db !! pid = Some packet →
  dt_ltb now (end_ packet) = true →
  let db1 := db_after (ldap_sync now d) db in
  (∀ sig, sig ∈ upper_sigs db1 → upper_packet_id sig = pid →
     ∃ member, all_upper_dict d !! upper_member sig = Some member ∧
               sig = with_roles d member sig) ∧
  (∀ m, m ∈ misc_sigs db1 → misc_packet_id m = pid →
     all_upper_dict d !! misc_member m = None) ∧
  (∀ k, is_Some (all_upper_dict d !! k) → has_upper db1 pid k).
Proof.
  intros Hp Hopen db1. split; [|split].
  - intros sig Hsig Hpid.
    destruct (ldap_sync_turn now d db pid packet Hp Hopen) as (s0 & _ & [H1 _]).
    apply (H1 sig Hpid) in Hsig.
    by apply ldap_sync_packet_roles in Hsig.
  - intros m Hm Hpid.
    assert (Hmisc : has_misc db1 pid (misc_member m)) by by exists m.
    subst db1.
    apply (ldap_sync_has_misc now d db pid packet Hp Hopen) in Hmisc as [Hna _].
    apply eq_None_not_Some. by rewrite all_upper_dict_active.
  - intros k Hk. subst db1.
    apply (ldap_sync_has_upper now d db pid packet Hp Hopen).
    by apply all_upper_dict_active.
Qed.

(** A run on a store whose open packets all agree with the directory
    commits that store. *)
Lemma ldap_sync_fixed now d db :
  (∀ pid packet, packets db !! pid = Some packet → dt_ltb now (end_ packet) = true →
     (∀ sig, sig ∈ upper_sigs db → upper_packet_id sig = pid →
        ∃ member, all_upper_dict d !! upper_member sig = Some member ∧
                  sig = with_roles d member sig) ∧
     (∀ m, m ∈ misc_sigs db → misc_packet_id m = pid →
        all_upper_dict d !! misc_member m = None) ∧
     (∀ k, is_Some (all_upper_dict d !! k) → has_upper db pid k)) →
  db_after (ldap_sync now d) db = db.
Proof.
  intros Hall. rewrite ldap_sync_db_after. unfold ldap_sync_all.
  apply foldl_fixed. intros [pid packet] Hin.
  apply elem_of_open_or_future_packets in Hin as [Hp Hopen].
  destruct (Hall pid packet Hp Hopen) as (H1 & H2 & H3).
  by apply ldap_sync_packet_fixed.
Qed.

(** X13: after a run of ldap-sync the UpperSignatures of a packet whose end
    is in the future are those of the active members of the directory who
    are neither intro members nor on co-op, and its MiscSignatures those of
    the others who had one or had signed as upperclassmen.  So a member who
    has left without having signed is on the packet no more. *)
Theorem ldap_sync_mirrors_directory now d (db : Store) pid packet :
  packets db !! pid = Some packet →
  dt_ltb now (end_ packet) = true →
  let db' := db_after (ldap_sync now d) db in
  (∀ u, has_upper db' pid u ↔ is_active_upper d u) ∧
  (∀ u, has_misc db' pid u
        ↔ ¬ is_active_upper d u ∧ (has_misc db pid u ∨ has_signed_upper db pid u)) ∧
  (∀ u, ¬ is_active_upper d u → ¬ has_signed_upper db pid u → ¬ has_misc db pid u →
        ¬ has_upper db' pid u ∧ ¬ has_misc db' pid u).
Proof.
  intros Hp Hopen db'. subst db'.
  assert (Hu := ldap_sync_has_upper now d db pid packet Hp Hopen).
  assert (Hm := ldap_sync_has_misc now d db pid packet Hp Hopen).
  split; [done|]. split; [done|].
  intros u. rewrite Hu, Hm. tauto.
Qed.

(** Amy has not signed packet 1 and Zed has; in a directory without either
    of them Amy's row is dropped and Zed's becomes a MiscSignature. *)
Lemma ldap_sync_mirrors_directory_witness :
  packets ex_db !! 1 = Some ex_packet ∧
  dt_ltb ex_now (end_ ex_packet) = true ∧
  ¬ is_active_upper (ex_directory [ex_ivy]) "amy" ∧
  ¬ has_signed_upper ex_db 1 "amy" ∧
  ¬ has_misc ex_db 1 "amy" ∧
  ¬ has_upper (db_after (ldap_sync ex_now (ex_directory [ex_ivy])) ex_db) 1 "amy" ∧
  ¬ has_misc (db_after (ldap_sync ex_now (ex_directory [ex_ivy])) ex_db) 1 "amy".
Proof.
  assert (H1 : ¬ is_active_upper (ex_directory [ex_ivy]) "amy")
    by (apply (bool_decide_unpack _); vm_compute; exact I).
  assert (H2 : ¬ has_signed_upper ex_db 1 "amy")
    by (apply (bool_decide_unpack _); vm_compute; exact I).
  assert (H3 : ¬ has_misc ex_db 1 "amy")
    by (apply (bool_decide_unpack _); vm_compute; exact I).
  split; [reflexivity|]. split; [reflexivity|].
  split; [exact H1|]. split; [exact H2|]. split; [exact H3|].
  destruct (ldap_sync_mirrors_directory ex_now (ex_directory [ex_ivy]) ex_db 1
              ex_packet eq_refl eq_refl) as (_ & _ & H).
  exact (H "amy" H1 H2 H3).
Defined.

(** X14: after a run of ldap-sync every UpperSignature of a packet whose
    end is in the future belongs to an active member of the directory who
    is neither an intro member nor on co-op, and its six role columns are
    what the directory of the run says about that member. *)
Theorem ldap_sync_roles now d (db : Store) pid packet sig :
  packets db !! pid = Some packet →
  dt_ltb now (end_ packet) = true →
  sig ∈ upper_sigs (db_after (ldap_sync now d) db) →
  upper_packet_id sig = pid →
  ∃ member,
    member ∈ ldap_get_active_members d ∧ is_upper member ∧
    uid member = upper_member sig ∧
    eboard sig = ldap_get_eboard_role member ∧
    active_rtp sig = bool_decide (upper_member sig ∈ ldap_get_active_rtps d) ∧
    three_da sig = bool_decide (upper_member sig ∈ ldap_get_3das d) ∧
    webmaster sig = bool_decide (upper_member sig ∈ ldap_get_webmasters d) ∧
    c_m sig = bool_decide (upper_member sig ∈ ldap_get_constitutional_maintainers d) ∧
    drink_admin sig = bool_decide (upper_member sig ∈ ldap_get_drink_admins d).
Proof.
  intros Hp Hopen Hin Hpid.
  destruct (ldap_sync_settled now d db pid packet Hp Hopen) as (H1 & _ & _).
  destruct (H1 sig Hin Hpid) as (member & Hm & E).
  apply all_upper_dict_lookup in Hm as (Hact & Hup & Huid).
  exists member. rewrite E. simpl. done.
Qed.

(** Amy's row on packet 1 after a sync: she is the chairman and an RTP. *)
Lemma ldap_sync_roles_witness :
  packets ex_db !! 1 = Some ex_packet ∧
  dt_ltb ex_now (end_ ex_packet) = true ∧
  with_roles ex_ldap_with_zed ex_amy (new_upper 1 "amy" false)
    ∈ upper_sigs (db_after (ldap_sync ex_now ex_ldap_with_zed) ex_db) ∧
  ∃ member,
    member ∈ ldap_get_active_members ex_ldap_with_zed ∧ is_upper member ∧
    uid member = "amy" ∧
    Some "Chairman" = ldap_get_eboard_role member.
Proof.
  assert (H : with_roles ex_ldap_with_zed ex_amy (new_upper 1 "amy" false)
                ∈ upper_sigs (db_after (ldap_sync ex_now ex_ldap_with_zed) ex_db))
    by (apply (bool_decide_unpack _); vm_compute; exact I).
  split; [reflexivity|]. split; [reflexivity|]. split; [exact H|].
  destruct (ldap_sync_roles ex_now ex_ldap_with_zed ex_db 1 ex_packet _
              eq_refl eq_refl H eq_refl) as (member & H1 & H2 & H3 & H4 & _).
  exists member. split; [exact H1|]. split; [exact H2|]. split; [exact H3|exact H4].
Defined.

(** X15: ldap-sync does not touch the signed flags of a member who stays:
    for an active member with an UpperSignature and no MiscSignature on a
    packet whose end is in the future, the packet has a signed row of the
    member after the run exactly if it had one before, and likewise an
    unsigned one. *)
Theorem ldap_sync_keeps_signed now d (db : Store) pid packet u :
  packets db !! pid = Some packet →
  dt_ltb now (end_ packet) = true →
  is_active_upper d u →
  has_upper db pid u →
  ¬ has_misc db pid u →
  ∀ b, (∃ sig, sig ∈ upper_sigs (db_after (ldap_sync now d) db) ∧
               upper_matches pid u sig ∧ upper_signed sig = b)
       ↔ (∃ sig, sig ∈ upper_sigs db ∧ upper_matches pid u sig ∧ upper_signed sig = b).
Proof.
  intros Hp Hopen Hact Hu Hnm b.
  destruct (ldap_sync_turn now d db pid packet Hp Hopen) as (s0 & H0 & H1).
  apply all_upper_dict_active in Hact.
  split.
  - intros (sig & Hin & [Hpid Hmem] & Hb).
    apply (proj1 H1 sig Hpid) in Hin.
    apply ldap_sync_packet_upper in Hin
      as [(sig0 & Hin & _ & ->) | [(m & Hin & Hpm & _ & ->) | (k & mem & _ & Hnu & _ & ->)]].
    + rewrite refresh_roles_packet_id in Hpid.
      rewrite refresh_roles_member in Hmem. rewrite refresh_roles_signed in Hb.
      exists sig0. split; [by apply (proj1 H0 sig0 Hpid)|done].
    + exfalso. apply Hnm. rewrite reactivated_member in Hmem.
      apply (same_rows_has_misc _ _ _ _ H0). by exists m.
    + exfalso. simpl in Hmem. subst k. apply Hnu.
      by apply (same_rows_has_upper _ _ _ _ H0).
  - intros (sig0 & Hin & [Hpid Hmem] & Hb).
    exists (refresh_roles d (all_upper_dict d) pid sig0).
    rewrite refresh_roles_signed. split; [|split; [split|done]].
    + apply (proj1 H1); [by rewrite refresh_roles_packet_id|].
      apply ldap_sync_packet_upper. left. exists sig0.
      split; [by apply (proj1 H0 sig0 Hpid)|]. split; [|done].
      intros _. by rewrite Hmem.
    + by rewrite refresh_roles_packet_id.
    + by rewrite refresh_roles_member.
Qed.

(** Zed has signed packet 1 and is in the directory: the signature stays
    signed. *)
Lemma ldap_sync_keeps_signed_witness :
  is_active_upper ex_ldap_with_zed "zed" ∧
  has_upper ex_db 1 "zed" ∧
  ¬ has_misc ex_db 1 "zed" ∧
  ∃ sig, sig ∈ upper_sigs (db_after (ldap_sync ex_now ex_ldap_with_zed) ex_db) ∧
         upper_matches 1 "zed" sig ∧ upper_signed sig = true.
Proof.
  assert (H1 : is_active_upper ex_ldap_with_zed "zed")
    by (apply (bool_decide_unpack _); vm_compute; exact I).
  assert (H2 : has_upper ex_db 1 "zed")
    by (apply (bool_decide_unpack _); vm_compute; exact I).
  assert (H3 : ¬ has_misc ex_db 1 "zed")
    by (apply (bool_decide_unpack _); vm_compute; exact I).
  split; [exact H1|]. split; [exact H2|]. split; [exact H3|].
  apply (ldap_sync_keeps_signed ex_now ex_ldap_with_zed ex_db 1 ex_packet "zed"
           eq_refl eq_refl H1 H2 H3 true).
  exists (new_upper 1 "zed" true). split; [|done].
  apply (bool_decide_unpack _). vm_compute. exact I.
Defined.

(** X16: ldap-sync always ends normally, with its three progress lines; it
    never changes a Freshman, a packet or a FreshSignature, and it leaves
    the UpperSignatures and MiscSignatures of every packet whose end is not
    in the future as they are, in number and in order. *)
Theorem ldap_sync_leaves_the_rest now d (db : Store) :
  let db' := db_after (ldap_sync now d) db in
  outcome (ldap_sync now d) db = inr tt ∧
  printed (ldap_sync now d) db
    = ["Fetching data from LDAP..."; "Applying updates to the DB..."; "Done!"] ∧
  freshmen db' = freshmen db ∧
  packets db' = packets db ∧
  fresh_sigs db' = fresh_sigs db ∧
  (∀ q, (∀ packet, packets db !! q = Some packet → dt_ltb now (end_ packet) = false) →
        upper_signatures db' q = upper_signatures db q ∧
        misc_signatures db' q = misc_signatures db q).
Proof.
  intros db'. subst db'.
  split; [apply ldap_sync_outcome|]. split; [apply ldap_sync_printed|].
  rewrite ldap_sync_db_after.
  destruct (ldap_sync_all_other d (all_upper_dict d) (open_or_future_packets now db) db)
    as (-> & -> & ->).
  repeat split; try done.
  all: apply ldap_sync_all_other_rows; intros Hin;
    apply list_elem_of_fmap in Hin as ([q' packet] & -> & Hin);
    apply elem_of_open_or_future_packets in Hin as [Hp Hopen];
    simpl in *; rewrite (H _ Hp) in Hopen; done.
Qed.

(** The packet of the example, after its end: zed has left the
    directory and keeps the UpperSignature. *)
Lemma ldap_sync_leaves_the_rest_witness :
  packets ex_db !! 1 = Some ex_packet ∧
  dt_ltb ex_after (end_ ex_packet) = false ∧
  upper_signatures (db_after (ldap_sync ex_after ex_ldap_without_zed) ex_db) 1
  = upper_signatures ex_db 1.
Proof.
  assert (H1 : packets ex_db !! 1 = Some ex_packet) by (vm_compute; reflexivity).
  split; [exact H1|]. split; [reflexivity|].
  destruct (ldap_sync_leaves_the_rest ex_after ex_ldap_without_zed ex_db)
    as (_ & _ & _ & _ & _ & H).
  apply H. intros packet Hp. rewrite H1 in Hp. injection Hp as <-. reflexivity.
Defined.

(** X17: ldap-sync is idempotent: a second run with the same directory, at
    the same time or later, commits the very store the first run left. *)
Theorem ldap_sync_idempotent now1 now2 d (db : Store) :
  dt_leb now1 now2 = true →
  let db1 := db_after (ldap_sync now1 d) db in
  db_after (ldap_sync now2 d) db1 = db1.
Proof.
  intros Hle db1. apply ldap_sync_fixed. intros pid packet Hp1 Hopen2.
  assert (Hp : packets db !! pid = Some packet).
  { subst db1. by rewrite ldap_sync_packets in Hp1. }
  assert (Hopen1 : dt_ltb now1 (end_ packet) = true) by by eapply dt_leb_ltb_trans.
  apply (ldap_sync_settled now1 d db pid packet Hp Hopen1).
Qed.

(** Two syncs of the example season, a day apart. *)
Lemma ldap_sync_idempotent_witness :
  dt_leb ex_now ex_later = true ∧
  db_after (ldap_sync ex_later ex_ldap_without_zed)
    (db_after (ldap_sync ex_now ex_ldap_without_zed) ex_db)
  = db_after (ldap_sync ex_now ex_ldap_without_zed) ex_db.
Proof.
  split; [reflexivity|].
  apply (ldap_sync_idempotent ex_now ex_later ex_ldap_without_zed ex_db eq_refl).
Defined.

(** ** fetch-results: what is written, and where *)

Lemma for_each_print {A} (g : A → string) (l : list A) w :
  for_each l (λ x, print (g x)) w
  = (inr tt, {| committed := committed w; session := session w;
                stdout := stdout w ++ (g <$> l); files := files w;
                outbox := outbox w |}).
Proof.
  revert w. induction l as [|x l IH]; intros w; simpl.
  - rewrite app_nil_r. by destruct w.
  - unfold mbind, M_bind. simpl. rewrite IH. simpl.
    by rewrite <- app_assoc.
Qed.

Lemma for_each_write_file {A} (path : string) (g : A → string) (l : list A) w :
  for_each l (λ x, set_files
                     (λ fs, <[path := default EmptyString (fs !! path) +:+ g x]> fs)) w
  = (inr tt, {| committed := committed w; session := session w;
                stdout := stdout w;
                files := foldl (λ fs x, <[path := default EmptyString (fs !! path)
                                                   +:+ g x]> fs)
                               (files w) l;
                outbox := outbox w |}).
Proof.
  revert w. induction l as [|x l IH]; intros w; simpl.
  - by destruct w.
  - unfold mbind, M_bind. simpl. by rewrite IH.
Qed.

Lemma foldl_append_file {A} (path : string) (g : A → string) (l : list A)
    (fs : gmap string string) text :
  fs !! path = Some text →
  foldl (λ fs x, <[path := default EmptyString (fs !! path) +:+ g x]> fs) fs l
  = <[path := text +:+ join (g <$> l)]> fs.
Proof.
  revert fs text. induction l as [|x l IH]; intros fs text E; simpl.
  - unfold join. simpl. rewrite append_nil_r. by rewrite insert_id.
  - erewrite IH; [|apply lookup_insert_eq].
    rewrite insert_insert_eq, E. simpl.
    unfold join. simpl. by rewrite append_assoc.
Qed.

Lemma collect_Forall2 {A B} (f : A → exn + B) (l : list A) (ys : list B) :
  collect f l = inr ys ↔ Forall2 (λ x y, f x = inr y) l ys.
Proof.
  revert ys. induction l as [|x l IH]; intros ys; simpl.
  - split; [intros [= <-]; constructor|].
    intros H. by apply Forall2_nil_inv_l in H as ->.
  - destruct (f x) as [e|y] eqn:Ef.
    + split; [done|]. intros H.
      apply Forall2_cons_inv_l in H as (y & ys' & Hy & _ & _). congruence.
    + destruct (collect f l) as [e|ys'] eqn:Ec.
      * split; [done|]. intros H.
        apply Forall2_cons_inv_l in H as (y' & ys' & Hy & Hys & ->).
        apply IH in Hys. done.
      * split.
        -- intros [= <-]. constructor; [done|]. by apply IH.
        -- intros H. apply Forall2_cons_inv_l in H as (y' & ys'' & Hy & Hys & ->).
           apply IH in Hys. congruence.
Qed.

Lemma collect_ok_iff {A B} (f : A → exn + B) (l : list A) :
  (∃ ys, collect f l = inr ys) ↔ Forall (λ x, ∃ y, f x = inr y) l.
Proof.
  induction l as [|x l IH]; simpl.
  - split; [constructor|by eexists].
  - rewrite Forall_cons, <- IH. destruct (f x) as [e|y].
    + split; [by intros [? ?]|by intros [[? ?] _]].
    + destruct (collect f l) as [e|ys].
      * split; [by intros [? ?]|by intros [_ [? ?]]].
      * split; [intros _; split; by eexists|by eexists].
Qed.

(** A packet has a row in the report when its owner is on record and
    neither of the two required totals is zero. *)
Lemma report_row_ok_iff received required format_score s packet :
  (∃ row, report_row received required format_score s packet = inr row)
  ↔ is_Some (freshmen s !! freshman_username packet.2) ∧
    member_total (required s packet) ≠ 0 ∧ total (required s packet) ≠ 0.
Proof.
  unfold report_row, score.
  destruct (freshmen s !! freshman_username packet.2) as [f|].
  - destruct (decide (member_total (required s packet) = 0)) as [E1|E1];
      destruct (decide (total (required s packet) = 0)) as [E2|E2]; simpl;
      (split; [intros [row Hrow]; try done|intros (? & ? & ?); try done]).
    by eexists.
  - split; [by intros [? ?]|]. by intros ([? ?] & _).
Qed.

Section report_facts.
Context (signatures_received signatures_required : Store → Z * Packet → SigCounts).
Context (format_score : Z → Z → string) (csv_line : list string → string).
Context (file_path : option string) (use_csv : bool) (end_day : Z) (db : Store).

(** The whole run: the rows are computed first; then the header, in the
    csv format, and one chunk for each row are written to the file or to
    standard output. *)
Lemma fetch_results_run :
  let c := fetch_results signatures_received signatures_required format_score
             csv_line file_path use_csv end_day in
  let handle := match file_path with
                | Some path => if decide (path = EmptyString) then None else Some path
                | None => None
                end in
  let opened : gmap string string :=
    match handle with Some path => {[ path := EmptyString ]} | None => ∅ end in
  match collect (report_row signatures_received signatures_required format_score db)
                (packets_ending (combine end_day packet_end_time) db) with
  | inl e => run c db = (inl e, mk_World db db [] opened [])
  | inr rows =>
      let chunks := if use_csv then csv_line column_titles :: (csv_line <$> rows)
                    else text_block <$> rows in
      run c db
      = (inr tt,
         match handle with
         | Some path => mk_World db db [] {[ path := join chunks ]} []
         | None => mk_World db db chunks ∅ []
         end)
  end.
Proof.
  intros c handle opened. subst c handle opened.
  unfold run, fetch_results, open_w.
  destruct file_path as [path|]; [case_decide|]; simpl;
    unfold mbind, M_bind, set_files, get_session, lift; simpl;
    destruct (collect _ _) as [e|rows]; simpl; try done;
    destruct use_csv; simpl;
    rewrite ?for_each_print, ?for_each_write_file; simpl; try done.
  - do 2 f_equal. erewrite foldl_append_file; [|apply lookup_insert_eq].
    rewrite lookup_insert_eq. simpl. rewrite !insert_insert_eq. apply insert_empty.
  - do 2 f_equal. erewrite foldl_append_file; [|apply lookup_insert_eq].
    rewrite insert_insert_eq. apply insert_empty.
Qed.

Lemma fetch_results_db_after :
  db_after (fetch_results signatures_received signatures_required format_score
              csv_line file_path use_csv end_day) db = db.
Proof.
  pose proof fetch_results_run as Hrun. cbv zeta in Hrun. unfold db_after.
  destruct (collect _ _) as [e|rows]; rewrite Hrun; [done|].
  by destruct file_path as [path|]; [case_decide|].
Qed.

(** X18: fetch-results only reports.  Whatever its arguments and however it
    ends, the committed store and the session are as before and nothing is
    sent; with a file path standard output stays empty and no other file is
    touched, and without one (or with the empty path) no file is
    touched. *)
Theorem fetch_results_only_reports :
  let c := fetch_results signatures_received signatures_required format_score
             csv_line file_path use_csv end_day in
  db_after c db = db ∧
  session (snd (run c db)) = db ∧
  outbox (snd (run c db)) = [] ∧
  (∀ path, file_path = Some path → path ≠ EmptyString →
     printed c db = [] ∧
     ∀ other, other ≠ path → files (snd (run c db)) !! other = None) ∧
  (file_path = None ∨ file_path = Some EmptyString → files (snd (run c db)) = ∅).
Proof.
  intros c. subst c.
  pose proof fetch_results_run as Hrun.
  cbv zeta in Hrun. unfold db_after, printed.
  destruct (collect _ _) as [e|rows]; rewrite Hrun; clear Hrun;
    (destruct file_path as [path|]; [case_decide as Hpath|]); simpl;
    repeat split; try done;
    try (by intros [?|[= ?]]);
    try (intros; simplify_eq; done);
    try (intros; simplify_eq; by rewrite lookup_singleton_ne).
Qed.

(** X19: fetch-results ends normally exactly when every packet that ends on
    the given day has its owner on record and requires a member total and a
    total other than zero. *)
Theorem fetch_results_succeeds_iff :
  outcome (fetch_results signatures_received signatures_required format_score
             csv_line file_path use_csv end_day) db = inr tt
  ↔ Forall (λ p, is_Some (freshmen db !! freshman_username p.2) ∧
                 member_total (signatures_required db p) ≠ 0 ∧
                 total (signatures_required db p) ≠ 0)
           (packets_ending (combine end_day packet_end_time) db).
Proof.
  pose proof fetch_results_run as Hrun.
  cbv zeta in Hrun. unfold outcome.
  rewrite <- (Forall_iff _ _ _ (λ p, report_row_ok_iff signatures_received
                signatures_required format_score db p)).
  rewrite <- collect_ok_iff.
  destruct (collect _ _) as [e|rows]; rewrite Hrun; simpl.
  - split; [done|]. by intros [? ?].
  - split; [by eexists|done].
Qed.

(** X20: a report that ends normally has one row for each packet that ends
    on the given day, in the order of the query.  The csv format writes
    the header line and then one line for each row, the text format one
    block for each row and no header; what is written is all of standard
    output, or all of the named file. *)
Theorem fetch_results_report :
  let c := fetch_results signatures_received signatures_required format_score
             csv_line file_path use_csv end_day in
  outcome c db = inr tt →
  ∃ rows,
    Forall2 (λ p row, report_row signatures_received signatures_required
                        format_score db p = inr row)
            (packets_ending (combine end_day packet_end_time) db) rows ∧
    let chunks := if use_csv then csv_line column_titles :: (csv_line <$> rows)
                  else text_block <$> rows in
    (file_path = None ∨ file_path = Some EmptyString → printed c db = chunks) ∧
    (∀ path, file_path = Some path → path ≠ EmptyString →
       files (snd (run c db)) !! path = Some (join chunks)).
Proof.
  intros c. subst c.
  pose proof fetch_results_run as Hrun.
  cbv zeta in Hrun. unfold outcome, printed.
  destruct (collect _ _) as [e|rows] eqn:Ec; rewrite Hrun; clear Hrun; [done|].
  intros _. exists rows. split; [by apply collect_Forall2|].
  destruct file_path as [path|]; [case_decide as Hpath|]; simpl.
  - subst path. split; [done|]. by intros p [= <-].
  - split; [by intros [?|[= ?]]|]. intros p [= <-] _. apply lookup_singleton_eq.
  - split; [done|]. done.
Qed.
End report_facts.

(** The report of the example season, as text in a file. *)
Lemma fetch_results_report_witness :
  outcome (fetch_results ex_received ex_required ex_format_score ex_csv_line
             (Some "results.txt") false 738014) ex_db = inr tt ∧
  ∃ rows,
    Forall2 (λ p row, report_row ex_received ex_required ex_format_score ex_db p
                      = inr row)
            (packets_ending (combine 738014 packet_end_time) ex_db) rows ∧
    files (snd (run (fetch_results ex_received ex_required ex_format_score
                       ex_csv_line (Some "results.txt") false 738014) ex_db))
      !! "results.txt"
    = Some (join (text_block <$> rows)).
Proof.
  assert (H : outcome (fetch_results ex_received ex_required ex_format_score
                         ex_csv_line (Some "results.txt") false 738014) ex_db
              = inr tt) by (vm_compute; reflexivity).
  split; [exact H|].
  destruct (fetch_results_report ex_received ex_required ex_format_score ex_csv_line
              (Some "results.txt") false 738014 ex_db H) as (rows & H1 & _ & H2).
  exists rows. split; [exact H1|]. apply H2; [reflexivity|discriminate].
Defined.

(** ** extend-packet on an open packet *)

Lemma by_id_missing packet_id w :
  packets (session w) !! packet_id = None →
  by_id packet_id w = (inl AttributeError, w).
Proof. intros E. unfold by_id, get_session, mbind, M_bind. by rewrite E. Qed.

Lemma extend_packet_db_after now packet_id new_date db :
  db_after (extend_packet now packet_id new_date) db
  = match packets db !! packet_id with
    | Some packet =>
        if is_open now packet
        then set_packets
               (insert packet_id (set_end (combine new_date packet_end_time) packet)) db
        else db
    | None => db
    end.
Proof.
  unfold db_after, run, extend_packet.
  destruct (packets db !! packet_id) as [packet|] eqn:Ep.
  - erewrite bind_ok; [|by apply by_id_found].
    by destruct (is_open now packet).
  - erewrite bind_raise; [|by apply by_id_missing]. done.
Qed.

(** X21: on an open packet extend-packet sets the end to the given day at
    the cutoff time, whatever the end was, commits and reports; the owner
    and the start of the packet, the other packets and all other tables are
    as before. *)
Theorem extend_packet_open now packet_id new_date (db : Store) packet :
  packets db !! packet_id = Some packet →
  is_open now packet = true →
  outcome (extend_packet now packet_id new_date) db = inr tt ∧
  db_after (extend_packet now packet_id new_date) db
    = set_packets
        (insert packet_id (set_end (combine new_date packet_end_time) packet)) db ∧
  printed (extend_packet now packet_id new_date) db
    = [ "Ready to extend packet #" +:+ pretty packet_id +:+ " for "
          +:+ freshman_username packet;
        "Packet successfully extended" ].
Proof.
  intros Hp Hopen.
  unfold outcome, db_after, printed, run, extend_packet.
  erewrite bind_ok; [|by apply by_id_found].
  by rewrite Hopen.
Qed.

(** Packet 1, extended to day 738030. *)
Lemma extend_packet_open_witness :
  packets ex_db !! 1 = Some ex_packet ∧
  is_open ex_now ex_packet = true ∧
  db_after (extend_packet ex_now 1 738030) ex_db
  = set_packets (insert 1 (set_end (combine 738030 packet_end_time) ex_packet)) ex_db.
Proof.
  split; [reflexivity|]. split; [reflexivity|].
  destruct (extend_packet_open ex_now 1 738030 ex_db ex_packet eq_refl eq_refl)
    as (_ & H & _).
  exact H.
Defined.

(** X22: extend-packet does not compare the new end with the clock or
    with the old end.  When the new end leaves the packet closed, the next
    extend-packet on it is refused and commits nothing. *)
Theorem extend_packet_may_close now now' packet_id new_date new_date' (db : Store)
    packet :
  packets db !! packet_id = Some packet →
  is_open now packet = true →
  is_open now' (set_end (combine new_date packet_end_time) packet) = false →
  let db1 := db_after (extend_packet now packet_id new_date) db in
  outcome (extend_packet now' packet_id new_date') db1 = inr tt ∧
  db_after (extend_packet now' packet_id new_date') db1 = db1 ∧
  printed (extend_packet now' packet_id new_date') db1
    = ["Packet is already closed so it cannot be extended"].
Proof.
  intros Hp Hopen Hclosed db1.
  assert (Hdb : db1 = set_packets
                  (insert packet_id (set_end (combine new_date packet_end_time) packet))
                  db).
  { subst db1. by rewrite extend_packet_db_after, Hp, Hopen. }
  rewrite Hdb.
  unfold outcome, db_after, printed, run, extend_packet.
  erewrite bind_ok; [|apply by_id_found; simpl; apply lookup_insert_eq].
  by rewrite Hclosed.
Qed.

(** Packet 1 "extended", on day 738005, to day 738001. *)
Lemma extend_packet_may_close_witness :
  is_open ex_now ex_packet = true ∧
  is_open ex_now (set_end (combine 738001 packet_end_time) ex_packet) = false ∧
  printed (extend_packet ex_now 1 738030)
    (db_after (extend_packet ex_now 1 738001) ex_db)
  = ["Packet is already closed so it cannot be extended"].
Proof.
  split; [reflexivity|]. split; [reflexivity|].
  destruct (extend_packet_may_close ex_now ex_now 1 738001 738030 ex_db ex_packet
              eq_refl eq_refl eq_refl) as (_ & _ & H).
  exact H.
Defined.

(** ** The signature removals: closed packets, and what a removal keeps *)

Lemma remove_sig_db_after now packet_id username is_member db :
  db_after (remove_sig now packet_id username is_member) db
  = remove_sig_store now packet_id username is_member db.
Proof.
  unfold db_after, run, remove_sig, remove_sig_store.
  destruct (packets db !! packet_id) as [packet|] eqn:Ep.
  - erewrite bind_ok; [|by apply by_id_found].
    destruct (is_open now packet); simpl; [|done].
    destruct is_member.
    + erewrite bind_ok; [|reflexivity]. simpl.
      destruct (unsign_first_upper _ _ _); [done|].
      unfold mbind, M_bind, modify_session. simpl. by case_decide.
    + erewrite bind_ok; [|reflexivity]. simpl.
      by destruct (unsign_first_fresh _ _ _).
  - erewrite bind_raise; [|by apply by_id_missing]. done.
Qed.

Lemma unsign_first_upper_keys pid m l l' :
  unsign_first_upper pid m l = Some l' → upper_key <$> l' = upper_key <$> l.
Proof.
  revert l'. induction l as [|sig l IH]; intros l'; simpl; [done|].
  case_decide.
  - by intros [= <-].
  - destruct (unsign_first_upper pid m l) as [l0|]; simpl; [|done].
    intros [= <-]. simpl. f_equal. by apply IH.
Qed.

Lemma unsign_first_fresh_same_keys pid u l l' :
  unsign_first_fresh pid u l = Some l' → fresh_key <$> l' = fresh_key <$> l.
Proof.
  revert l'. induction l as [|sig l IH]; intros l'; simpl; [done|].
  case_decide.
  - by intros [= <-].
  - destruct (unsign_first_fresh pid u l) as [l0|]; simpl; [|done].
    intros [= <-]. simpl. f_equal. by apply IH.
Qed.

Lemma unsign_first_upper_again pid m l l' :
  unsign_first_upper pid m l = Some l' → unsign_first_upper pid m l' = Some l'.
Proof.
  revert l'. induction l as [|sig l IH]; intros l'; simpl; [done|].
  case_decide as Hm.
  - intros [= <-]. simpl. by rewrite decide_True.
  - destruct (unsign_first_upper pid m l) as [l0|]; simpl; [|done].
    intros [= <-]. simpl. rewrite decide_False by done.
    by rewrite (IH l0).
Qed.

Lemma unsign_first_fresh_again pid u l l' :
  unsign_first_fresh pid u l = Some l' → unsign_first_fresh pid u l' = Some l'.
Proof.
  revert l'. induction l as [|sig l IH]; intros l'; simpl; [done|].
  case_decide as Hm.
  - intros [= <-]. simpl. by rewrite decide_True.
  - destruct (unsign_first_fresh pid u l) as [l0|]; simpl; [|done].
    intros [= <-]. simpl. rewrite decide_False by done.
    by rewrite (IH l0).
Qed.

Lemma unsign_first_fresh_some pid u l1 sig l2 :
  (∀ sig', sig' ∈ l1 → ¬ fresh_matches pid u sig') →
  fresh_matches pid u sig →
  unsign_first_fresh pid u (l1 ++ sig :: l2)
  = Some (l1 ++ unsigned_fresh sig :: l2).
Proof.
  intros Hno Hm. induction l1 as [|x l1 IH]; simpl.
  - by rewrite decide_True.
  - rewrite decide_False; [|apply Hno; left].
    rewrite IH; [done|]. intros y Hy. apply Hno. by right.
Qed.

(** The rows after a removal: the same packets and signers, row by row,
    for upperclassmen and freshmen, and no new MiscSignature. *)
Lemma remove_sig_store_rows now packet_id username is_member db :
  let db' := remove_sig_store now packet_id username is_member db in
  freshmen db' = freshmen db ∧
  packets db' = packets db ∧
  upper_key <$> upper_sigs db' = upper_key <$> upper_sigs db ∧
  fresh_key <$> fresh_sigs db' = fresh_key <$> fresh_sigs db ∧
  misc_sigs db' `sublist_of` misc_sigs db.
Proof.
  intros db'. subst db'. unfold remove_sig_store.
  destruct (packets db !! packet_id) as [packet|]; [|done].
  destruct (is_open now packet); simpl; [|done].
  destruct is_member.
  - destruct (unsign_first_upper _ _ _) as [l|] eqn:El.
    + simpl. by rewrite (unsign_first_upper_keys _ _ _ _ El).
    + case_decide; [|done]. simpl. repeat split; try done.
      apply sublist_filter.
  - destruct (unsign_first_fresh _ _ _) as [l|] eqn:El; [|done].
    simpl. by rewrite (unsign_first_fresh_same_keys _ _ _ _ El).
Qed.

Lemma has_upper_key s pid u : has_upper s pid u ↔ (pid, u) ∈ upper_key <$> upper_sigs s.
Proof.
  unfold has_upper, upper_matches, upper_key. rewrite list_elem_of_fmap. split.
  - intros (sig & Hin & <- & <-). by exists sig.
  - intros (sig & [= -> ->] & Hin). by exists sig.
Qed.

Lemma has_fresh_key s pid u : has_fresh s pid u ↔ (pid, u) ∈ fresh_key <$> fresh_sigs s.
Proof.
  unfold has_fresh, fresh_matches, fresh_key. rewrite list_elem_of_fmap. split.
  - intros (sig & Hin & <- & <-). by exists sig.
  - intros (sig & [= -> ->] & Hin). by exists sig.
Qed.

(** X23: on a closed packet a signature removal, for a member or for a
    freshman, is refused: it prints that the signatures of the packet
    cannot be modified and commits nothing. *)
Theorem remove_sig_closed now packet_id username is_member (db : Store) packet :
  packets db !! packet_id = Some packet →
  is_open now packet = false →
  outcome (remove_sig now packet_id username is_member) db = inr tt ∧
  db_after (remove_sig now packet_id username is_member) db = db ∧
  printed (remove_sig now packet_id username is_member) db
    = ["Packet is already closed so its signatures cannot be modified"].
Proof.
  intros Hp Hclosed.
  unfold outcome, db_after, printed, run, remove_sig.
  erewrite bind_ok; [|by apply by_id_found].
  by rewrite Hclosed.
Qed.

(** Packet 1 after its end. *)
Lemma remove_sig_closed_witness :
  packets ex_db !! 1 = Some ex_packet ∧
  is_open ex_after ex_packet = false ∧
  db_after (remove_sig ex_after 1 "zed" true) ex_db = ex_db ∧
  printed (remove_sig ex_after 1 "bob1" false) ex_db
  = ["Packet is already closed so its signatures cannot be modified"].
Proof.
  split; [reflexivity|]. split; [reflexivity|]. split.
  - destruct (remove_sig_closed ex_after 1 "zed" true ex_db ex_packet eq_refl eq_refl)
      as (_ & H & _).
    exact H.
  - destruct (remove_sig_closed ex_after 1 "bob1" false ex_db ex_packet eq_refl eq_refl)
      as (_ & _ & H).
    exact H.
Defined.

(** X24: on an open packet remove-freshman-sig clears the signed flag of
    the first FreshSignature of the freshman on the packet, commits and
    reports success; the row stays, and so does every other row. *)
Theorem remove_freshman_sig_first_match now packet_id freshman (db : Store)
    packet l1 sig l2 :
  packets db !! packet_id = Some packet →
  is_open now packet = true →
  fresh_sigs db = l1 ++ sig :: l2 →
  (∀ sig', sig' ∈ l1 → ¬ fresh_matches packet_id freshman sig') →
  fresh_matches packet_id freshman sig →
  outcome (remove_freshman_sig now packet_id freshman) db = inr tt ∧
  db_after (remove_freshman_sig now packet_id freshman) db
    = set_fresh_sigs (λ _, l1 ++ unsigned_fresh sig :: l2) db ∧
  printed (remove_freshman_sig now packet_id freshman) db
    = ["Successfully unsigned packet"].
Proof.
  intros Hp Hopen El Hno Hm.
  unfold outcome, db_after, printed, run, remove_freshman_sig, remove_sig.
  erewrite bind_ok; [|by apply by_id_found].
  rewrite Hopen. simpl.
  erewrite bind_ok; [|reflexivity]. simpl.
  rewrite El, unsign_first_fresh_some by done. done.
Qed.

(** Carol's signature is the second row of the table. *)
Lemma remove_freshman_sig_first_match_witness :
  packets ex_db !! 1 = Some ex_packet ∧
  is_open ex_now ex_packet = true ∧
  db_after (remove_freshman_sig ex_now 1 "carol1") ex_db
  = set_fresh_sigs (λ _, [mk_FreshSignature 1 "bob1" true;
                          unsigned_fresh (mk_FreshSignature 1 "carol1" false)]) ex_db.
Proof.
  split; [reflexivity|]. split; [reflexivity|].
  destruct (remove_freshman_sig_first_match ex_now 1 "carol1" ex_db ex_packet
              [mk_FreshSignature 1 "bob1" true] (mk_FreshSignature 1 "carol1" false) []
              eq_refl eq_refl eq_refl) as (_ & H & _).
  - intros sig' Hin [_ Hu]. apply list_elem_of_singleton in Hin. by subst sig'.
  - by split.
  - exact H.
Defined.

(** X25: a signature removal never deletes or adds an UpperSignature or a
    FreshSignature: whoever has a row on a packet before it has one after
    it, and the tables have as many rows as before; it adds no
    MiscSignature, and it leaves the Freshman rows and the packets as they
    are.  This holds for every run, also one that is refused or raises. *)
Theorem remove_sig_keeps_rows now packet_id username is_member (db : Store) :
  let db' := db_after (remove_sig now packet_id username is_member) db in
  freshmen db' = freshmen db ∧
  packets db' = packets db ∧
  (∀ q u, has_upper db' q u ↔ has_upper db q u) ∧
  (∀ q u, has_fresh db' q u ↔ has_fresh db q u) ∧
  (∀ q u, has_misc db' q u → has_misc db q u) ∧
  length (upper_sigs db') = length (upper_sigs db) ∧
  length (fresh_sigs db') = length (fresh_sigs db).
Proof.
  intros db'. subst db'. rewrite remove_sig_db_after.
  destruct (remove_sig_store_rows now packet_id username is_member db)
    as (HF & HP & HU & HS & HM).
  split; [done|]. split; [done|]. split; [|split; [|split; [|split]]].
  - intros q u. by rewrite !has_upper_key, HU.
  - intros q u. by rewrite !has_fresh_key, HS.
  - intros q u (m & Hin & Hm). exists m. split; [|done].
    by eapply elem_of_sublist.
  - by rewrite <- (length_fmap upper_key), HU, length_fmap.
  - by rewrite <- (length_fmap fresh_key), HS, length_fmap.
Qed.

(** X26: a signature removal is idempotent on the store: the same removal
    run again commits the store the first run left. *)
Theorem remove_sig_idempotent now packet_id username is_member (db : Store) :
  let c := remove_sig now packet_id username is_member in
  db_after c (db_after c db) = db_after c db.
Proof.
  intros c. subst c. rewrite !remove_sig_db_after.
  set (r := remove_sig_store now packet_id username is_member db).
  assert (Hp : packets r = packets db).
  { by destruct (remove_sig_store_rows now packet_id username is_member db)
      as (_ & ? & _). }
  unfold remove_sig_store at 1. rewrite Hp.
  destruct (packets db !! packet_id) as [packet|] eqn:Ep; [|done].
  destruct (is_open now packet) eqn:Eo; simpl; [|done].
  subst r. unfold remove_sig_store. rewrite Ep, Eo. simpl.
  destruct is_member.
  - destruct (unsign_first_upper _ _ (upper_sigs db)) as [l|] eqn:El.
    + simpl. by rewrite (unsign_first_upper_again _ _ _ _ El).
    + case_decide as Hone.
      * simpl. rewrite El. rewrite decide_False; [done|].
        rewrite list_filter_filter.
        rewrite filter_none; [done|]. by intros x _ [? ?].
      * rewrite El. by rewrite decide_False.
  - destruct (unsign_first_fresh _ _ (fresh_sigs db)) as [l|] eqn:El.
    + simpl. by rewrite (unsign_first_fresh_again _ _ _ _ El).
    + by rewrite El.
Qed.

Example remove_member_sig_twice_example :
  printed (remove_member_sig ex_now 1 "old")
    (db_after (remove_member_sig ex_now 1 "old") ex_db)
  = ["Failed to unsign packet; could not find signature"].
Proof. vm_compute. reflexivity. Qed.

(** ** The references of the data model, command by command *)

Lemma fresh_sigs_sync_all csv l s sig :
  sig ∈ fresh_sigs (sync_all csv l s) →
  sig ∈ fresh_sigs s ∨
  ∃ c, c ∈ values csv ∧ fresh_freshman_username sig = rit_username c.
Proof.
  revert s. induction l as [|p l IH]; intros s Hin; [by left|].
  change (sync_all csv (p :: l) s) with (sync_all csv l (packet_step csv p s)) in Hin.
  destruct (IH _ Hin) as [Hs|?]; [|by right].
  simpl in Hs. apply elem_of_app in Hs as [Hs|Hs].
  - left. by apply list_elem_of_filter in Hs as [_ ?].
  - right. unfold new_fresh_sigs in Hs.
    apply list_elem_of_fmap in Hs as (c & -> & Hc).
    apply list_elem_of_filter in Hc as [_ Hc]. by exists c.
Qed.

Lemma referential_sync_freshmen now rows db :
  referential db → referential (db_after (sync_freshmen now rows) db).
Proof.
  intros (Hup & Hmisc & Hfr & Hown).
  destruct (outcome (sync_freshmen now rows) db) as [e|[]] eqn:Eo.
  { by rewrite sync_freshmen_failure by (by rewrite Eo). }
  destruct (sync_freshmen_success _ _ _ Eo) as (csv & _ & Hkey & _ & ->).
  set (l := open_or_future_packets now db).
  set (s1 := set_freshmen (synced_freshmen csv) db).
  destruct (sync_all_other csv l s1) as (HF & HP & HU & HM).
  assert (Hgrow : ∀ u, is_Some (freshmen db !! u) →
                       is_Some (synced_freshmen csv (freshmen db) !! u)).
  { intros u [f Ef]. rewrite synced_freshmen_lookup by done.
    destruct (csv !! u); [done|]. by rewrite Ef. }
  unfold referential. rewrite HF, HP, HU, HM. simpl.
  split; [done|]. split; [done|]. split.
  - intros sig Hin. apply fresh_sigs_sync_all in Hin as [Hin | (c & Hc & ->)].
    + by apply Hgrow, Hfr.
    + rewrite synced_freshmen_lookup by done.
      apply elem_of_values in Hc; [|done]. by rewrite Hc.
  - intros pid packet Hp. by eapply Hgrow, Hown.
Qed.

Lemma referential_create_packet_step d all_upper start_ end__ s f :
  is_Some (freshmen s !! f.1) →
  referential s →
  referential (create_packet_step d all_upper start_ end__ s f).
Proof.
  intros Hf (Hup & Hmisc & Hfr & Hown).
  assert (Hgrow : ∀ pid, is_Some (packets s !! pid) →
            is_Some (<[next_packet_id (packets s) :=
                        {| freshman_username := f.1; start := start_; end_ := end__ |}]>
                       (packets s) !! pid)).
  { intros pid Hpid. rewrite lookup_insert. by case_decide. }
  unfold referential. simpl. split; [|split; [|split]].
  - intros sig Hin. apply elem_of_app in Hin as [Hin|Hin]; [by apply Hgrow, Hup|].
    apply list_elem_of_fmap in Hin as (m & -> & _). simpl.
    by rewrite lookup_insert_eq.
  - intros sig Hin. by apply Hgrow, Hmisc.
  - intros sig Hin. apply elem_of_app in Hin as [Hin|Hin]; [by apply Hfr|].
    apply list_elem_of_fmap in Hin as ([u g] & -> & Hg). simpl.
    apply list_elem_of_filter in Hg as [_ Hg].
    apply elem_of_map_to_list in Hg. by eexists.
  - intros pid packet. rewrite lookup_insert. case_decide.
    + by intros [= <-].
    + apply Hown.
Qed.

Lemma referential_create_all d all_upper start_ end__ l s :
  (∀ f, f ∈ l → is_Some (freshmen s !! f.1)) →
  referential s → referential (create_all d all_upper start_ end__ l s).
Proof.
  revert s. induction l as [|f l IH]; intros s Hl Hs; [done|].
  rewrite create_all_cons. apply IH.
  - intros g Hg. simpl. apply Hl. by right.
  - apply referential_create_packet_step; [|done]. apply Hl. by left.
Qed.

Lemma referential_create_packets answer base_date d rows db :
  referential db →
  referential (db_after (create_packets answer base_date d rows) db).
Proof.
  intros Hdb.
  destruct (create_packets_db_after answer base_date d rows db)
    as [->|(csv & _ & ->)]; [done|].
  apply referential_create_all; [|done].
  intros [u f] Hin. apply list_elem_of_filter in Hin as [_ Hin].
  apply elem_of_map_to_list in Hin. by eexists.
Qed.

Lemma referential_ldap_sync_packet d all_upper p s :
  is_Some (packets s !! p.1) →
  referential s → referential (ldap_sync_packet d all_upper p s).
Proof.
  intros Hp (Hup & Hmisc & Hfr & Hown).
  destruct (ldap_sync_packet_other d all_upper p s) as (HF & HP & HS).
  unfold referential. rewrite HF, HP, HS.
  split; [|split; [|done]].
  - intros sig Hin.
    apply ldap_sync_packet_upper in Hin
      as [(sig0 & Hin & _ & ->) | [(m & _ & _ & _ & ->) | (k & mem & _ & _ & _ & ->)]].
    + rewrite refresh_roles_packet_id. by apply Hup.
    + by rewrite reactivated_packet_id.
    + done.
  - intros m Hin.
    apply ldap_sync_packet_misc in Hin as [[Hin _] | (sig0 & _ & _ & _ & _ & ->)].
    + by apply Hmisc.
    + done.
Qed.

Lemma referential_ldap_sync now d db :
  referential db → referential (db_after (ldap_sync now d) db).
Proof.
  intros Hdb. rewrite ldap_sync_db_after.
  assert (H : ∀ l s, (∀ p, p ∈ l → is_Some (packets s !! p.1)) → referential s →
            referential (ldap_sync_all d (all_upper_dict d) l s)).
  { induction l as [|p l IH]; intros s Hl Hs; [done|].
    change (ldap_sync_all d (all_upper_dict d) (p :: l) s)
      with (ldap_sync_all d (all_upper_dict d) l
              (ldap_sync_packet d (all_upper_dict d) p s)).
    apply IH.
    - intros q Hq.
      destruct (ldap_sync_packet_other d (all_upper_dict d) p s) as (_ & -> & _).
      apply Hl. by right.
    - apply referential_ldap_sync_packet; [|done]. apply Hl. by left. }
  apply H; [|done].
  intros [pid packet] Hin. apply elem_of_open_or_future_packets in Hin as [Hp _].
  by eexists.
Qed.

Lemma referential_extend_packet now packet_id new_date db :
  referential db → referential (db_after (extend_packet now packet_id new_date) db).
Proof.
  intros (Hup & Hmisc & Hfr & Hown). rewrite extend_packet_db_after.
  destruct (packets db !! packet_id) as [packet|] eqn:Ep; [|done].
  destruct (is_open now packet); [|done].
  assert (Hgrow : ∀ pid, is_Some (packets db !! pid) →
            is_Some (<[packet_id := set_end (combine new_date packet_end_time) packet]>
                       (packets db) !! pid)).
  { intros pid Hpid. rewrite lookup_insert. by case_decide. }
  unfold referential. simpl. split; [|split; [|split; [done|]]].
  - intros sig Hin. by apply Hgrow, Hup.
  - intros sig Hin. by apply Hgrow, Hmisc.
  - intros pid p. rewrite lookup_insert. case_decide.
    + intros [= <-]. simpl. by eapply Hown.
    + apply Hown.
Qed.

Lemma referential_remove_sig now packet_id username is_member db :
  referential db →
  referential (db_after (remove_sig now packet_id username is_member) db).
Proof.
  intros (Hup & Hmisc & Hfr & Hown). rewrite remove_sig_db_after.
  destruct (remove_sig_store_rows now packet_id username is_member db)
    as (HF & HP & HU & HS & HM).
  unfold referential. rewrite HF, HP. split; [|split; [|split; [|done]]].
  - intros sig Hin.
    assert (Hk : upper_key sig ∈ upper_key <$> upper_sigs db).
    { rewrite <- HU. apply list_elem_of_fmap. by exists sig. }
    apply list_elem_of_fmap in Hk as (sig0 & E & Hin0).
    injection E as -> _. by apply Hup.
  - intros m Hin. apply Hmisc. by eapply elem_of_sublist.
  - intros sig Hin.
    assert (Hk : fresh_key sig ∈ fresh_key <$> fresh_sigs db).
    { rewrite <- HS. apply list_elem_of_fmap. by exists sig. }
    apply list_elem_of_fmap in Hk as (sig0 & E & Hin0).
    injection E as _ ->. by apply Hfr.
Qed.

Lemma empty_db_referential : referential ex_empty_db.
Proof.
  unfold referential, ex_empty_db. simpl.
  repeat split; intros ? Hin; try (by apply elem_of_nil in Hin).
  intros ?. by rewrite lookup_empty.
Qed.

(** Every command keeps the data model. *)
Lemma command_keeps_well_formed c db :
  well_formed db → well_formed (db_after (command c) db).
Proof.
  intros [Hc Hr]. split.
  - destruct (commands_keep_consistent db Hc) as (H1 & H2 & H3 & H4 & H5 & H6).
    destruct c; simpl;
      [done|apply H1|apply H2|apply H3|apply H6|apply H4|apply H5|apply H5].
  - destruct c; simpl.
    + done.
    + by apply referential_sync_freshmen.
    + by apply referential_create_packets.
    + by apply referential_ldap_sync.
    + by rewrite fetch_results_db_after.
    + by apply referential_extend_packet.
    + by apply referential_remove_sig.
    + by apply referential_remove_sig.
Qed.

Lemma history_snoc cs c :
  history (cs ++ [c]) = db_after (command c) (history cs).
Proof. unfold history. by rewrite foldl_app. Qed.

Lemma history_well_formed (cs : list Command) : well_formed (history cs).
Proof.
  induction cs as [|c cs IH] using rev_ind.
  - split; [apply empty_db_consistent|apply empty_db_referential].
  - rewrite history_snoc. by apply command_keeps_well_formed.
Qed.

(** ** Histories of the command line *)

(** X27: whatever commands are run, with whatever arguments, clock
    readings, directories and answers, from the empty store on, the store
    keeps the references of the data model: every FreshSignature belongs
    to a stored packet and to a stored Freshman, no packet has one of its
    own owner, every UpperSignature and MiscSignature belongs to a stored
    packet, and every packet has its owner on record. *)
Theorem history_keeps_data_model (cs : list Command) :
  let db := history cs in
  fresh_sigs_have_packet db ∧
  no_self_signature db ∧
  (∀ sig, sig ∈ upper_sigs db → is_Some (packets db !! upper_packet_id sig)) ∧
  (∀ sig, sig ∈ misc_sigs db → is_Some (packets db !! misc_packet_id sig)) ∧
  (∀ sig, sig ∈ fresh_sigs db → is_Some (freshmen db !! fresh_freshman_username sig)) ∧
  (∀ pid packet, packets db !! pid = Some packet →
                 is_Some (freshmen db !! freshman_username packet)).
Proof.
  intros db. subst db.
  destruct (history_well_formed cs) as [[H1 H2] (H3 & H4 & H5 & H6)].
  done.
Qed.

(** X28: on a store that the commands have built from the empty store,
    sync-freshmen ends normally exactly when every roster row has its four
    columns: the AttributeError of a signature without its Freshman cannot
    occur there. *)
Theorem history_sync_freshmen_completes (cs : list Command) now rows :
  outcome (sync_freshmen now rows) (history cs) = inr tt
  ↔ Forall (λ row, (4 ≤ length row)%nat) rows.
Proof.
  destruct (history_well_formed cs) as [_ (_ & _ & Hfr & _)].
  split.
  - intros Hok. apply Forall_forall. intros row Hrow.
    destruct (decide (4 ≤ length row)%nat) as [|Hshort]; [done|].
    assert (Hex : Exists (λ row, (length row < 4)%nat) rows).
    { apply Exists_exists. exists row. split; [done|lia]. }
    destruct (sync_freshmen_short_row now rows (history cs) Hex) as (Ho & _).
    congruence.
  - intros Hrows. by apply sync_freshmen_completes.
Qed.

(** A sync of the roster, a season, Zed's signature on packet 1 removed,
    and a directory sync after Zed has left: Zed is on no packet any
    more. *)
Example history_example :
  let db := history [ SyncFreshmen ex_now ex_roster;
                      CreatePackets "y" 738000 ex_ldap_with_zed ex_roster;
                      RemoveMemberSig ex_now 1 "zed";
                      LdapSync ex_later ex_ldap_without_zed ] in
  (λ sig, (upper_packet_id sig, upper_member sig, upper_signed sig)) <$> upper_sigs db
  = [ (1, "amy", false); (2, "amy", false); (3, "amy", false) ] ∧
  misc_sigs db = [] ∧
  (λ sig, (fresh_packet_id sig, fresh_freshman_username sig)) <$> fresh_sigs db
  = [ (1, "dan1"); (2, "alice1"); (2, "dan1"); (3, "alice1") ].
Proof. vm_compute. done. Qed.

(** ** The commands in sequence *)

(** After a run that ended normally the FreshSignatures of an open packet
    are those of on-floor freshmen, and no on-floor freshman of the roster
    is missing. *)
Lemma sync_freshmen_settled now rows db csv pid packet :
  outcome (sync_freshmen now rows) db = inr tt →
  csv_dict rows ∅ = inr csv →
  packets db !! pid = Some packet →
  dt_ltb now (end_ packet) = true →
  let db1 := db_after (sync_freshmen now rows) db in
  (∀ x, x ∈ fresh_signatures db1 pid →
        ∃ f, freshmen db1 !! fresh_freshman_username x = Some f ∧ onfloor f = true) ∧
  new_fresh_sigs csv (pid, packet) (fresh_signatures db1 pid) = [].
Proof.
  intros Hok Ecsv Hp Hopen db1.
  destruct (sync_freshmen_success _ _ _ Hok) as (csv' & Ecsv' & Hkey & Hres & Hdb).
  assert (csv' = csv) as -> by congruence.
  fold db1 in Hdb.
  set (s1 := set_freshmen (synced_freshmen csv) db) in *.
  set (l := open_or_future_packets now db) in *.
  destruct (sync_all_other csv l s1) as (HF & _).
  rewrite <- Hdb in HF.
  change (freshmen s1) with (synced_freshmen csv (freshmen db)) in HF.
  assert (Hin : (pid, packet) ∈ l) by by apply elem_of_open_or_future_packets.
  assert (Hres_p : Forall (resolves (synced_freshmen csv (freshmen db)))
                     (fresh_signatures db pid)).
  { unfold all_resolve in Hres. rewrite Forall_forall in Hres. apply (Hres _ Hin). }
  assert (Hturn : fresh_signatures db1 pid
                  = after_turn csv (freshmen db) (pid, packet) (fresh_signatures db pid)).
  { rewrite Hdb. apply (sync_all_turn csv l s1 (pid, packet));
      [apply NoDup_open_or_future_packets|done]. }
  rewrite Hturn, HF. split.
  - intros x Hx. by eapply after_turn_onfloor.
  - unfold new_fresh_sigs. rewrite filter_none; [done|].
    intros c Hc (Hnin & Hon & Hne). apply Hnin.
    apply after_turn_complete; auto.
Qed.

(** X29: the season's routine.  On a store that keeps the data model,
    after a sync of the roster that ended normally and a run of
    create-packets with the same roster, whatever its answer, date and
    directory, a further sync of that roster, at the same time or later,
    ends normally and commits the store it found: the signatures
    create-packets gives a new packet are the ones sync-freshmen wants. *)
Theorem sync_freshmen_create_packets_sync_freshmen now1 now2 rows answer base_date d
    (db : Store) :
  well_formed db →
  dt_leb now1 now2 = true →
  outcome (sync_freshmen now1 rows) db = inr tt →
  let db1 := db_after (sync_freshmen now1 rows) db in
  let db2 := db_after (create_packets answer base_date d rows) db1 in
  outcome (sync_freshmen now2 rows) db2 = inr tt ∧
  db_after (sync_freshmen now2 rows) db2 = db2.
Proof.
  intros [Hcons Href] Hle Hok db1 db2. subst db2.
  destruct (create_packets_db_after answer base_date d rows db1)
    as [E|(csv & Ecsv & E)].
  { rewrite E. by apply sync_freshmen_again. }
  set (db2 := db_after (create_packets answer base_date d rows) db1) in *.
  assert (Hcons1 : consistent db1).
  { destruct (commands_keep_consistent db Hcons) as (H & _). apply H. }
  assert (Href1 : referential db1) by by apply referential_sync_freshmen.
  destruct Href1 as (Hup1 & _ & _ & _). destruct Hcons1 as [Hfr1 _].
  destruct (sync_freshmen_success _ _ _ Hok) as (csv' & Ecsv' & Hkey & _ & Hdb).
  assert (csv' = csv) as -> by congruence.
  fold db1 in Hdb.
  destruct (sync_all_other csv (open_or_future_packets now1 db)
              (set_freshmen (synced_freshmen csv) db)) as (HF & HP & _).
  rewrite <- Hdb in HF, HP. simpl in HF, HP.
  set (au := filter is_upper (ldap_get_active_members d)) in *.
  set (l := roster_freshmen csv db1) in *.
  set (n := next_packet_id (packets db1)) in *.
  destruct (create_all_rows d au (combine base_date packet_start_time)
              (combine (base_date + 14) packet_end_time) l db1) as [Hold Hnew].
  { intros sig Hin. by apply next_packet_id_above, Hup1. }
  { intros sig Hin. by apply next_packet_id_above, Hfr1. }
  fold n in Hold, Hnew. rewrite <- E in Hold, Hnew.
  assert (HF2 : freshmen db2 = synced_freshmen csv (freshmen db)).
  { rewrite E. by destruct (create_all_other d au (combine base_date packet_start_time)
              (combine (base_date + 14) packet_end_time) l db1) as [-> _]. }
  assert (Hs2 : set_freshmen (synced_freshmen csv) db2 = db2).
  { apply store_eq; simpl; try done. rewrite HF2. by apply synced_freshmen_idem. }
  assert (Hfacts : ∀ p, p ∈ open_or_future_packets now2 db2 →
            (∀ x, x ∈ fresh_signatures db2 p.1 →
               ∃ f, freshmen db2 !! fresh_freshman_username x = Some f ∧
                    onfloor f = true) ∧
            new_fresh_sigs csv p (fresh_signatures db2 p.1) = []).
  { intros [pid packet] Hin. simpl.
    apply elem_of_open_or_future_packets in Hin as [Hp2 Hopen2].
    rewrite E, create_all_packets in Hp2. fold n l in Hp2.
    case_decide as Hrange.
    - destruct (l !! Z.to_nat (pid - n)) as [f|] eqn:Ef; [|done].
      injection Hp2 as <-.
      destruct (Hnew _ _ Ef) as [_ Efr].
      replace (n + Z.of_nat (Z.to_nat (pid - n))) with pid in Efr by lia.
      rewrite Efr. split.
      + intros x Hx. apply list_elem_of_fmap in Hx as ([u g] & -> & Hg).
        apply list_elem_of_filter in Hg as [[Hon _] Hg].
        apply elem_of_map_to_list in Hg. simpl in *.
        exists g. split; [|done]. by rewrite HF2, <- HF.
      + unfold new_fresh_sigs. rewrite filter_none; [done|].
        intros c Hc (Hnin & Hon & Hne). apply Hnin. simpl in Hne.
        destruct (csv_onfloor_synced csv (freshmen db) Hkey c Hc Hon) as (g & Eg & Hg).
        rewrite <- list_fmap_compose.
        apply list_elem_of_fmap. exists (rit_username c, g). split; [done|].
        apply list_elem_of_filter. split; [done|].
        apply elem_of_map_to_list. by rewrite HF.
    - assert (Hlt : pid < n) by (apply next_packet_id_above; by eexists).
      destruct (Hold pid Hlt) as [_ Efr]. rewrite Efr, HF2, <- HF.
      assert (Hopen1 : dt_ltb now1 (end_ packet) = true) by by eapply dt_leb_ltb_trans.
      rewrite HP in Hp2.
      apply (sync_freshmen_settled now1 rows db csv pid packet Hok Ecsv Hp2 Hopen1). }
  pose proof (sync_freshmen_run now2 rows db2) as Hrun.
  rewrite Ecsv in Hrun. unfold sync_freshmen_result in Hrun. rewrite Hs2 in Hrun.
  rewrite decide_True in Hrun.
  2:{ unfold all_resolve. apply Forall_forall. intros p Hin.
      apply Forall_forall. intros x Hx.
      destruct (Hfacts p Hin) as [Hon _]. destruct (Hon x Hx) as (f & Ef & _).
      unfold resolves. by rewrite Ef. }
  destruct Hrun as [Ho Hdb2]. split; [done|]. rewrite Hdb2.
  apply foldl_fixed. intros p Hin. destruct (Hfacts p Hin) as [Hon Hnone].
  apply packet_step_fixed; [|done].
  intros x Hx. destruct (Hon x Hx) as (f & Ef & Eo).
  unfold offfloor. rewrite Ef. simpl. by rewrite Eo.
Qed.

(** The roster synced into the empty store, a season, the roster again. *)
Lemma sync_freshmen_create_packets_sync_freshmen_witness :
  dt_leb ex_now ex_later = true ∧
  outcome (sync_freshmen ex_now ex_roster) (history []) = inr tt ∧
  db_after (sync_freshmen ex_later ex_roster)
    (db_after (create_packets "y" 738000 ex_ldap_with_zed ex_roster)
       (db_after (sync_freshmen ex_now ex_roster) (history [])))
  = db_after (create_packets "y" 738000 ex_ldap_with_zed ex_roster)
      (db_after (sync_freshmen ex_now ex_roster) (history [])).
Proof.
  assert (H : outcome (sync_freshmen ex_now ex_roster) (history []) = inr tt)
    by (vm_compute; reflexivity).
  split; [reflexivity|]. split; [exact H|].
  destruct (sync_freshmen_create_packets_sync_freshmen ex_now ex_later ex_roster
              "y" 738000 ex_ldap_with_zed (history []) (history_well_formed [])
              eq_refl H) as [_ H2].
  exact H2.
Defined.

(** X30: on a store that keeps the data model, and with a directory in
    which no two of the members ldap-sync considers share a uid, a run of
    ldap-sync after a directory sync and a run of create-packets with the
    same directory commits the store it found: the UpperSignatures
    create-packets gives a new packet, roles included, are the ones
    ldap-sync wants. *)
Theorem ldap_sync_create_packets_ldap_sync now1 now2 d answer base_date rows
    (db : Store) :
  well_formed db →
  NoDup (uid <$> filter is_upper (ldap_get_active_members d)) →
  dt_leb now1 now2 = true →
  let db1 := db_after (ldap_sync now1 d) db in
  let db2 := db_after (create_packets answer base_date d rows) db1 in
  db_after (ldap_sync now2 d) db2 = db2.
Proof.
  intros [Hcons Href] Hnd Hle db1 db2. subst db2.
  assert (Hsettled1 : ∀ pid packet, packets db1 !! pid = Some packet →
            dt_ltb now2 (end_ packet) = true →
            (∀ sig, sig ∈ upper_sigs db1 → upper_packet_id sig = pid →
               ∃ member, all_upper_dict d !! upper_member sig = Some member ∧
                         sig = with_roles d member sig) ∧
            (∀ m, m ∈ misc_sigs db1 → misc_packet_id m = pid →
               all_upper_dict d !! misc_member m = None) ∧
            (∀ k, is_Some (all_upper_dict d !! k) → has_upper db1 pid k)).
  { intros pid packet Hp1 Hopen2.
    assert (Hp : packets db !! pid = Some packet).
    { subst db1. by rewrite ldap_sync_packets in Hp1. }
    assert (Hopen1 : dt_ltb now1 (end_ packet) = true) by by eapply dt_leb_ltb_trans.
    apply (ldap_sync_settled now1 d db pid packet Hp Hopen1). }
  destruct (create_packets_db_after answer base_date d rows db1)
    as [E|(csv & Ecsv & E)].
  { rewrite E. by apply ldap_sync_fixed. }
  set (db2 := db_after (create_packets answer base_date d rows) db1) in *.
  assert (Hcons1 : consistent db1).
  { destruct (commands_keep_consistent db Hcons) as (_ & _ & H & _). apply H. }
  assert (Href1 : referential db1) by by apply referential_ldap_sync.
  destruct Href1 as (Hup1 & Hmisc1 & _ & _). destruct Hcons1 as [Hfr1 _].
  set (au := filter is_upper (ldap_get_active_members d)) in *.
  set (l := roster_freshmen csv db1) in *.
  set (n := next_packet_id (packets db1)) in *.
  destruct (create_all_rows d au (combine base_date packet_start_time)
              (combine (base_date + 14) packet_end_time) l db1) as [Hold Hnew].
  { intros sig Hin. by apply next_packet_id_above, Hup1. }
  { intros sig Hin. by apply next_packet_id_above, Hfr1. }
  fold n in Hold, Hnew. rewrite <- E in Hold, Hnew.
  assert (Hmisc2 : misc_sigs db2 = misc_sigs db1).
  { rewrite E. apply create_all_other. }
  assert (Hmem : ∀ sig q, sig ∈ upper_sigs db2 → upper_packet_id sig = q →
                          sig ∈ upper_signatures db2 q).
  { intros sig q Hin Hq. by apply list_elem_of_filter. }
  apply ldap_sync_fixed. intros pid packet Hp2 Hopen2.
  rewrite E, create_all_packets in Hp2. fold n l in Hp2.
  split; [|split].
  - intros sig Hsig Hpid. apply (Hmem sig pid) in Hsig; [|done].
    case_decide as Hrange.
    + destruct (l !! Z.to_nat (pid - n)) as [f|] eqn:Ef; [|done].
      destruct (Hnew _ _ Ef) as [Eu _].
      replace (n + Z.of_nat (Z.to_nat (pid - n))) with pid in Eu by lia.
      rewrite Eu in Hsig. apply list_elem_of_fmap in Hsig as (member & -> & Hmember).
      exists member. split; [|done]. simpl. by apply all_upper_dict_unique.
    + assert (Hlt : pid < n) by (apply next_packet_id_above; by eexists).
      destruct (Hold pid Hlt) as [Eu _]. rewrite Eu in Hsig.
      apply list_elem_of_filter in Hsig as [_ Hsig].
      by apply (Hsettled1 pid packet Hp2 Hopen2).
  - intros m Hm Hpid. rewrite Hmisc2 in Hm.
    case_decide as Hrange.
    + exfalso. specialize (Hmisc1 m Hm). rewrite Hpid in Hmisc1.
      apply next_packet_id_above in Hmisc1. fold n in Hmisc1. lia.
    + by apply (Hsettled1 pid packet Hp2 Hopen2).
  - intros k Hk.
    assert (Hrows : ∀ sig, sig ∈ upper_signatures db2 pid → upper_member sig = k →
                           has_upper db2 pid k).
    { intros sig Hsig Hk'. apply list_elem_of_filter in Hsig as [? ?].
      by exists sig. }
    case_decide as Hrange.
    + destruct (l !! Z.to_nat (pid - n)) as [f|] eqn:Ef; [|done].
      destruct (Hnew _ _ Ef) as [Eu _].
      replace (n + Z.of_nat (Z.to_nat (pid - n))) with pid in Eu by lia.
      destruct Hk as [member Hmember].
      apply all_upper_dict_lookup in Hmember as (Hact & Hupper & Huid).
      apply (Hrows (packet_upper d pid member)); [|done].
      rewrite Eu. apply list_elem_of_fmap. exists member. split; [done|].
      by apply list_elem_of_filter.
    + assert (Hlt : pid < n) by (apply next_packet_id_above; by eexists).
      destruct (Hold pid Hlt) as [Eu _].
      destruct (Hsettled1 pid packet Hp2 Hopen2) as (_ & _ & H3).
      destruct (H3 k Hk) as (sig & Hsig & Hpid & Hmem').
      apply (Hrows sig); [|done]. rewrite Eu. by apply list_elem_of_filter.
Qed.

(** The roster and the directory of the example: a directory sync, a
    season, a directory sync a day later. *)
Lemma ldap_sync_create_packets_ldap_sync_witness :
  NoDup (uid <$> filter is_upper (ldap_get_active_members ex_ldap_with_zed)) ∧
  dt_leb ex_now ex_later = true ∧
  db_after (ldap_sync ex_later ex_ldap_with_zed)
    (db_after (create_packets "y" 738000 ex_ldap_with_zed ex_roster)
       (db_after (ldap_sync ex_now ex_ldap_with_zed)
          (history [SyncFreshmen ex_now ex_roster])))
  = db_after (create_packets "y" 738000 ex_ldap_with_zed ex_roster)
      (db_after (ldap_sync ex_now ex_ldap_with_zed)
         (history [SyncFreshmen ex_now ex_roster])).
Proof.
  assert (H : NoDup (uid <$> filter is_upper
                       (ldap_get_active_members ex_ldap_with_zed)))
    by (apply (bool_decide_unpack _); vm_compute; exact I).
  split; [exact H|]. split; [reflexivity|].
  apply (ldap_sync_create_packets_ldap_sync ex_now ex_later ex_ldap_with_zed
           "y" 738000 ex_roster (history [SyncFreshmen ex_now ex_roster])
           (history_well_formed [SyncFreshmen ex_now ex_roster]) H eq_refl).
Defined.
